(** * Booking analytics: the aggregation and time-normalisation core

    A shallow embedding of [app.py] (pipeline A: bookings per country) and
    [app2.py] (pipeline B: booking status per week or month), together with
    the part of pandas the two programs rely on.

    Conventions of the model:
    - a Python [str] is a sequence of code points; a frame holds it as a
      [string], its UTF-8 bytes, and the text functions work on the code
      points ([Text.code_points]);
    - a number is an exact rational [Qc]; the programs compute on binary
      floating point, which agrees with the exact value whenever the latter
      is representable (as it is for the worked example of pipeline A);
    - a calendar instant is the proleptic Gregorian ordinal of its day
      ([datetime.date.toordinal]), every instant the programs build being a
      midnight;
    - a missing value (NaN, NaT) is [None]. *)

From Stdlib Require Import ZArith QArith Qcanon Qround Ascii String Lia.
From stdpp Require Import base decidable option numbers strings gmap sorting list.

Local Open Scope Z_scope.

(** ** Python text *)
Module Text.

(** A Python [str] is a sequence of code points.  A frame holds text as a
    [string], the UTF-8 bytes of the file, and [code_points] is the
    decoding [read_csv] has done.  A file with a byte that does not decode
    is refused by [read_csv], so no cell holds one; the decoding here puts
    U+FFFD for such a byte. *)
Definition continuation (b : N) : bool := ((128 <=? b) && (b <? 192))%N.

Definition replacement : N := 65533%N.

Definition two_bytes (b0 b1 : N) : option N :=
  if ((194 <=? b0) && (b0 <? 224))%N && continuation b1
  then Some ((b0 - 192) * 64 + (b1 - 128))%N
  else None.

Definition three_bytes (b0 b1 b2 : N) : option N :=
  let c := ((b0 - 224) * 4096 + (b1 - 128) * 64 + (b2 - 128))%N in
  if ((224 <=? b0) && (b0 <? 240))%N && continuation b1 && continuation b2
     && (2048 <=? c)%N && negb ((55296 <=? c) && (c <? 57344))%N
  then Some c
  else None.

Definition four_bytes (b0 b1 b2 b3 : N) : option N :=
  let c := ((b0 - 240) * 262144 + (b1 - 128) * 4096
            + (b2 - 128) * 64 + (b3 - 128))%N in
  if ((240 <=? b0) && (b0 <? 248))%N
     && continuation b1 && continuation b2 && continuation b3
     && (65536 <=? c)%N && (c <? 1114112)%N
  then Some c
  else None.

Fixpoint decode (bs : list N) : list N :=
  match bs with
  | [] => []
  | b0 :: r0 =>
      if (b0 <? 128)%N then b0 :: decode r0
      else
        match r0 with
        | b1 :: r1 =>
            match two_bytes b0 b1 with
            | Some c => c :: decode r1
            | None =>
                match r1 with
                | b2 :: r2 =>
                    match three_bytes b0 b1 b2 with
                    | Some c => c :: decode r2
                    | None =>
                        match r2 with
                        | b3 :: r3 =>
                            match four_bytes b0 b1 b2 b3 with
                            | Some c => c :: decode r3
                            | None => replacement :: decode r0
                            end
                        | [] => replacement :: decode r0
                        end
                    end
                | [] => replacement :: decode r0
                end
            end
        | [] => [replacement]
        end
  end.

Definition code_points (s : string) : list N :=
  decode (N_of_ascii <$> list_ascii_of_string s).

Definition in_range (c : N) (r : N * N) : bool := ((r.1 <=? c) && (c <=? r.2))%N.

(** The characters [str.strip] removes and [\s] matches in a [str]
    pattern: those [str.isspace] holds of. *)
Definition space_ranges : list (N * N) :=
  [(9, 13); (28, 32); (133, 133); (160, 160); (5760, 5760); (8192, 8202);
   (8232, 8233); (8239, 8239); (8287, 8287); (12288, 12288)]%N.

Definition is_space (c : N) : bool := existsb (in_range c) space_ranges.

(** The characters [\d] matches in a [str] pattern and [int] reads: the
    decimal digits of Unicode (category Nd).  They come in runs of ten,
    nought to nine; these are the noughts of Unicode 15.0, the version of
    Python 3.12, the first Python that accepts line 201 of [app2.py]
    (Python 3.13 has the same digits, a later Python has more runs). *)
Definition decimal_zeros : list N :=
  [48; 1632; 1776; 1984; 2406; 2534; 2662; 2790; 2918; 3046;
   3174; 3302; 3430; 3558; 3664; 3792; 3872; 4160; 4240; 6112;
   6160; 6470; 6608; 6784; 6800; 6992; 7088; 7232; 7248; 42528;
   43216; 43264; 43472; 43504; 43600; 44016; 65296; 66720; 68912; 69734;
   69872; 69942; 70096; 70384; 70736; 70864; 71248; 71360; 71472; 71904;
   72016; 72784; 73040; 73120; 73552; 92768; 92864; 93008; 120782; 120792;
   120802; 120812; 120822; 123200; 123632; 124144; 125264; 130032]%N.

(** The value of a decimal digit. *)
Definition decimal (c : N) : option Z :=
  (λ z, Z.of_N (c - z.2)) <$> list_find (λ z, (z ≤ c < z + 10)%N) decimal_zeros.

Definition is_digit (c : N) : bool :=
  match decimal c with Some _ => true | None => false end.

Definition digit_value (c : N) : Z := default 0 (decimal c).

(** The digits [pd.to_numeric] reads. *)
Definition is_ascii_digit (c : N) : bool := in_range c (48, 57)%N.

Fixpoint take_while (p : N → bool) (s : list N) : list N :=
  match s with
  | a :: s' => if p a then a :: take_while p s' else []
  | [] => []
  end.

Fixpoint drop_while (p : N → bool) (s : list N) : list N :=
  match s with
  | a :: s' => if p a then drop_while p s' else s
  | [] => []
  end.

Definition lstrip (s : list N) : list N := drop_while is_space s.
Definition rstrip (s : list N) : list N := rev (drop_while is_space (rev s)).
Definition strip (s : list N) : list N := rstrip (lstrip s).

(** The number a run of digits writes. *)
Definition digits_value (ds : list N) : Z :=
  fold_left (λ acc d, 10 * acc + digit_value d) ds 0.

(** [int] on a run of digits; [None] is the [ValueError] it raises for
    more digits than [sys.get_int_max_str_digits()], noughts in front
    included. *)
Definition int_max_str_digits : nat := 4300.

Definition int (ds : list N) : option Z :=
  if (length ds <=? int_max_str_digits)%nat then Some (digits_value ds) else None.

(** The text after a literal prefix, when the text starts with it. *)
Fixpoint consume (lit s : list N) : option (list N) :=
  match lit, s with
  | [], _ => Some s
  | c :: lit', a :: s' => if (c =? a)%N then consume lit' s' else None
  | _ :: _, [] => None
  end.

(** The text does not go on with a character of class [p]. *)
Definition stops (p : N → bool) (s : list N) : Prop :=
  match s with [] => True | a :: _ => p a = false end.

Definition nonempty {A} (l : list A) : bool :=
  match l with [] => false | _ :: _ => true end.

End Text.

(** ** The pandas model *)
Module Pandas.
Import Text.

(** A non-missing value held by a frame. *)
Inductive scalar :=
| Str (s : string)
| Num (q : Qc)
| Date (d : Z).

(** A cell of a frame; [None] is NaN (or NaT in a datetime column). *)
Definition cell : Type := option scalar.

#[global] Instance scalar_eq_dec : EqDecision scalar.
Proof. solve_decision. Defined.

(** A row maps column names to cells; a frame keeps the column order
    beside its rows.  Reading a name that a row does not carry yields a
    missing value; [getitem] below raises [KeyError] for a name that is
    not a column of the frame. *)
Abbreviation row := (gmap string cell).

Record DataFrame := {
  columns : list string;
  rows : list row
}.

Definition at_col (c : string) (r : row) : cell := default None (r !! c).

(** [len(df)] and [df.empty]. *)
Definition len (df : DataFrame) : nat := length (rows df).

Definition empty (df : DataFrame) : bool :=
  match columns df, rows df with
  | [], _ | _, [] => true
  | _, _ => false
  end.

(** *** Exceptions and the caller's frame

    A function that receives a frame receives a reference to the caller's
    object: an item assignment [df[c] = ...] is seen by the caller, while
    [df = df.dropna()] only rebinds the local name.  [Py A] threads the
    caller's frame and an exception through a computation. *)
Inductive exn := KeyError (c : string).

Inductive result (A : Type) :=
| Ok (a : A)
| Raise (e : exn).
Arguments Ok {A} a.
Arguments Raise {A} e.

Definition Py (A : Type) : Type := DataFrame → result A * DataFrame.

Definition ret {A} (a : A) : Py A := λ df, (Ok a, df).

Definition bind {A B} (m : Py A) (k : A → Py B) : Py B :=
  λ df, match m df with
        | (Ok a, df') => k a df'
        | (Raise e, df') => (Raise e, df')
        end.

Definition get : Py DataFrame := λ df, (Ok df, df).

Definition lift {A} (r : result A) : Py A := λ df, (r, df).

#[global] Instance Py_ret : MRet Py := @ret.
#[global] Instance Py_bind : MBind Py := λ A B k m, bind m k.

(** [df[c]]: the cells of column [c], top to bottom; [KeyError] when the
    frame has no such column. *)
Definition column (c : string) (df : DataFrame) : result (list cell) :=
  if decide (c ∈ columns df) then Ok (at_col c <$> rows df) else Raise (KeyError c).

Definition getitem (c : string) : Py (list cell) :=
  df ← get; lift (column c df).

(** [df[c'] = df[c].apply(f)] and the element-wise [pd.to_datetime]
    assignment: column [c'] is created at the right end of the frame, or
    overwritten when it exists, in the caller's object. *)
Definition assign (c' : string) (f : row → cell) (df : DataFrame) : DataFrame :=
  {| columns := if decide (c' ∈ columns df) then columns df else columns df ++ [c'];
     rows := (λ r, <[c' := f r]> r) <$> rows df |}.

Definition setitem_apply (c' c : string) (f : cell → cell) : Py unit :=
  λ df, if decide (c ∈ columns df)
        then (Ok tt, assign c' (λ r, f (at_col c r)) df)
        else (Raise (KeyError c), df).

(** [df.columns = names]: the columns are renamed by position. *)
Definition rename_row (old new : list string) (r : row) : row :=
  list_to_map (zip new ((λ c, at_col c r) <$> old)).

Definition set_columns (new : list string) (df : DataFrame) : DataFrame :=
  {| columns := new; rows := rename_row (columns df) new <$> rows df |}.

(** [df.dropna()] drops a row with a missing value in any column;
    [df.dropna(subset=[c])] looks at column [c] only.  Both return a new
    frame. *)
Definition complete_row (cols : list string) (r : row) : Prop :=
  Forall (λ c, at_col c r ≠ None) cols.

Definition dropna (df : DataFrame) : DataFrame :=
  {| columns := columns df; rows := filter (complete_row (columns df)) (rows df) |}.

Definition dropna_subset (c : string) (df : DataFrame) : DataFrame :=
  {| columns := columns df; rows := filter (λ r, at_col c r ≠ None) (rows df) |}.

(** *** Ordering of group keys

    [groupby] (with its default [sort=True]) and [pivot] list their keys
    in ascending order: text by code point, numbers by value, and in a
    mixed column numbers before text. *)
Definition scalar_leb (x y : scalar) : bool :=
  match x, y with
  | Num a, Num b => bool_decide (a ≤ b)%Qc
  | Num _, _ => true
  | Date a, Date b => bool_decide (a ≤ b)
  | Date _, Num _ => false
  | Date _, Str _ => true
  | Str a, Str b => String.leb a b
  | Str _, _ => false
  end.

Definition scalar_le : relation scalar := λ x y, scalar_leb x y.

Definition pair_le : relation (scalar * scalar) :=
  λ p q, if decide (p.1 = q.1) then scalar_leb p.2 q.2 else scalar_leb p.1 q.1.

#[global] Instance scalar_le_dec : RelDecision scalar_le.
Proof. intros x y. unfold scalar_le. apply _. Defined.

#[global] Instance pair_le_dec : RelDecision pair_le.
Proof. intros p q. unfold pair_le. destruct (decide (p.1 = q.1)); apply _. Defined.

(** The distinct keys of a grouping, in ascending order. *)
Definition unique_sorted (keys : list scalar) : list scalar :=
  merge_sort scalar_le (remove_dups keys).

(** *** [sort_values]

    Both programs call [sort_values] with its default [kind='quicksort'],
    which pandas documents as not stable: the rows come back ordered by
    the key, and the relative order of rows with equal keys is the
    library's choice.  A [Sorter] is any sort with that contract, and what
    is proved of a [Sorter] holds of the sort the library runs; that sort
    itself is in [Numpy] below.  The key here is never missing (a count,
    or a column whose NaT rows were dropped). *)
Definition ordered {A} (ascending : bool) (key : A → Z) : relation A :=
  λ x y, if ascending then key x ≤ key y else key y ≤ key x.

Record Sorter := {
  sort_values : ∀ {A : Type}, bool → (A → Z) → list A → list A;
  sort_values_perm : ∀ (A : Type) asc (key : A → Z) l, sort_values asc key l ≡ₚ l;
  sort_values_sorted : ∀ (A : Type) asc (key : A → Z) l,
      Sorted (ordered asc key) (sort_values asc key l)
}.

(** A sort within the contract, for running the programs: an insertion
    sort, which leaves equal keys in the order it finds them. *)
Definition key_leb {A} (ascending : bool) (key : A → Z) (x y : A) : bool :=
  if ascending then key x <=? key y else key y <=? key x.

Fixpoint insert_by {A} (leb : A → A → bool) (x : A) (l : list A) : list A :=
  match l with
  | [] => [x]
  | y :: l' => if leb x y then x :: l else y :: insert_by leb x l'
  end.

Definition stable_sort {A} (ascending : bool) (key : A → Z) (l : list A) : list A :=
  foldr (insert_by (key_leb ascending key)) [] l.

(** [drop_duplicates(subset=[c])] keeps the first row of every key. *)
Fixpoint drop_duplicates_from {A K} `{EqDecision K}
    (key : A → K) (seen : list K) (l : list A) : list A :=
  match l with
  | [] => []
  | x :: l' =>
      if decide (key x ∈ seen) then drop_duplicates_from key seen l'
      else x :: drop_duplicates_from key (key x :: seen) l'
  end.

Definition drop_duplicates {A K} `{EqDecision K} (key : A → K) (l : list A) : list A :=
  drop_duplicates_from key [] l.

(** *** Numbers *)

(** Round half to even, as [numpy.rint]. *)
Definition rint (q : Q) : Z :=
  let f := Qfloor q in
  match Qcompare (q - inject_Z f) (1 # 2) with
  | Lt => f
  | Gt => f + 1
  | Eq => if Z.even f then f else f + 1
  end.

(** [.round(2)] on a number. *)
Definition round2 (q : Qc) : Qc := Q2Qc (rint (q * 100) # 100).

Definition numeric (c : cell) : option Qc :=
  match c with Some (Num q) => Some q | _ => None end.

Definition sum_list (l : list Qc) : Qc := foldr Qcplus (Q2Qc 0) l.

(** [Series.sum()] skips missing values; [Series.mean()] of no value is
    NaN; [Series.count()] counts the values present. *)
Definition series_sum (l : list cell) : Qc := sum_list (omap numeric l).

Definition series_mean (l : list cell) : option Qc :=
  match omap numeric l with
  | [] => None
  | v :: vs => Some (sum_list (v :: vs) / Q2Qc (Z.of_nat (length (v :: vs)) # 1))%Qc
  end.

Definition series_count (l : list cell) : nat := length (filter (λ c, c ≠ None) l).

(** The unsigned whole numbers, a part of what [pd.to_numeric] reads from
    text; the examples run with it. *)
Definition whole_number (s : string) : option Qc :=
  let l := code_points s in
  if nonempty l && forallb is_ascii_digit l then Some (Qc_of_Z (digits_value l))
  else None.

(** Lookup in an association list, first match. *)
Fixpoint assoc {K V} `{EqDecision K} (k : K) (l : list (K * V)) : option V :=
  match l with
  | [] => None
  | (k', v) :: l' => if decide (k = k') then Some v else assoc k l'
  end.

(** [Series.value_counts()]: the values present with the number of their
    occurrences, most frequent first; a missing value is not counted. *)
Definition value_counts (S : Sorter) (l : list cell) : list (scalar * nat) :=
  let values := omap id l in
  sort_values S false (λ e, Z.of_nat e.2)
    ((λ v, (v, length (filter (λ v', v' = v) values)))
       <$> drop_duplicates id values).

(** [series.get(key, default)]. *)
Definition series_get {V} (key : scalar) (default_value : V)
    (s : list (scalar * V)) : V :=
  default default_value (assoc key s).

End Pandas.

(** ** The sort of numpy

    [sort_values] with its default [kind='quicksort'] sorts the positions
    of the rows by [numpy.argsort], which for that kind runs [aquicksort_]
    of [npysort/quicksort.cpp]: a quicksort on a median of three that
    finishes parts of up to 16 elements by insertion and falls back on a
    heap sort when it nests too deep.  On 17 elements or more it moves
    equal keys past one another.  (For some types of key and processor
    numpy runs a vectorised sort in its place, which is not stable
    either; the keys of a datetime column go through the code below.)
    [None] is a loop that did not end within the steps allowed to it. *)
Module Numpy.
Import Pandas.

Definition SMALL_QUICKSORT : nat := 15.

Section npysort.

(** The keys, read and never written. *)
Variable v : list Z.

Definition less (a b : Z) : bool := a <? b.

(** The key at a place of the array of positions, and [INTP_SWAP] of two
    places. *)
Definition key (tosort : list nat) (p : nat) : Z := v !!! (tosort !!! p).

Definition INTP_SWAP (tosort : list nat) (p q : nat) : list nat :=
  <[q := tosort !!! p]> (<[p := tosort !!! q]> tosort).

(** [do { ++pi; } while (Tag::less(v[*pi], vp))] and its mirror image. *)
Fixpoint scan_up (fuel : nat) (tosort : list nat) (vp : Z) (pi : nat) : option nat :=
  match fuel with
  | O => None
  | S fuel =>
      let pi := S pi in
      if less (key tosort pi) vp then scan_up fuel tosort vp pi else Some pi
  end.

Fixpoint scan_down (fuel : nat) (tosort : list nat) (vp : Z) (pj : nat) : option nat :=
  match fuel with
  | O => None
  | S fuel =>
      let pj := pred pj in
      if less vp (key tosort pj) then scan_down fuel tosort vp pj else Some pj
  end.

Fixpoint partition_loop (fuel : nat) (tosort : list nat) (vp : Z) (pi pj : nat)
    : option (list nat * nat) :=
  match fuel with
  | O => None
  | S fuel =>
      pi ← scan_up (length tosort) tosort vp pi;
      pj ← scan_down (length tosort) tosort vp pj;
      if decide (pj ≤ pi)%nat then Some (tosort, pi)
      else partition_loop fuel (INTP_SWAP tosort pi pj) vp pi pj
  end.

(** One pass of the [while] loop: the median of the keys at [pl], [pm] and [pr] is
    put aside at [pr - 1], the rest is split around it, and it is put back
    at [pi]. *)
Definition partition (tosort : list nat) (pl pr : nat) : option (list nat * nat) :=
  let pm := (pl + (pr - pl) / 2)%nat in
  let tosort := if less (key tosort pm) (key tosort pl)
                then INTP_SWAP tosort pm pl else tosort in
  let tosort := if less (key tosort pr) (key tosort pm)
                then INTP_SWAP tosort pr pm else tosort in
  let tosort := if less (key tosort pm) (key tosort pl)
                then INTP_SWAP tosort pm pl else tosort in
  let vp := key tosort pm in
  let pj := (pr - 1)%nat in
  let tosort := INTP_SWAP tosort pm pj in
  r ← partition_loop (length tosort) tosort vp pl pj;
  Some (INTP_SWAP r.1 r.2 (pr - 1), r.2).

(** The insertion sort of the positions [pl] to [pr]. *)
Fixpoint sift (steps : nat) (tosort : list nat) (vi : nat) (vp : Z) (pj : nat)
    : list nat :=
  match steps with
  | O => <[pj := vi]> tosort
  | S steps =>
      if less vp (key tosort (pj - 1))
      then sift steps (<[pj := tosort !!! (pj - 1)%nat]> tosort) vi vp (pj - 1)
      else <[pj := vi]> tosort
  end.

Definition insertion_sort (tosort : list nat) (pl pr : nat) : list nat :=
  foldl (λ tosort pi,
           let vi := tosort !!! pi in
           sift (pi - pl) tosort vi (v !!! vi) pi)
        tosort (seq (S pl) (pr - pl)).

(** [aheapsort_] on the [n] positions from [base]; [a[k]] is the position
    [base + k - 1]. *)
Definition heap_at (base k : nat) : nat := (base + k - 1)%nat.

Fixpoint sift_down (fuel : nat) (tosort : list nat) (base n tmp i j : nat)
    : option (list nat) :=
  match fuel with
  | O => None
  | S fuel =>
      if decide (j ≤ n)%nat then
        let j := if bool_decide (j < n)%nat
                    && less (key tosort (heap_at base j)) (key tosort (heap_at base (j + 1)))
                 then (j + 1)%nat else j in
        if less (v !!! tmp) (key tosort (heap_at base j))
        then sift_down fuel (<[heap_at base i := tosort !!! heap_at base j]> tosort)
               base n tmp j (j + j)
        else Some (<[heap_at base i := tmp]> tosort)
      else Some (<[heap_at base i := tmp]> tosort)
  end.

Fixpoint heapify (l : nat) (tosort : list nat) (base n : nat) : option (list nat) :=
  match l with
  | O => Some tosort
  | S l' =>
      tosort ← sift_down (S n) tosort base n (tosort !!! heap_at base l) l (l + l);
      heapify l' tosort base n
  end.

Fixpoint heap_pop (n : nat) (tosort : list nat) (base : nat) : option (list nat) :=
  match n with
  | O => Some tosort
  | S n' =>
      if decide (1 < n)%nat then
        let tmp := tosort !!! heap_at base n in
        let tosort := <[heap_at base n := tosort !!! heap_at base 1]> tosort in
        tosort ← sift_down (S n) tosort base n' tmp 1 2;
        heap_pop n' tosort base
      else Some tosort
  end.

Definition aheapsort (tosort : list nat) (base n : nat) : option (list nat) :=
  tosort ← heapify (n / 2) tosort base n;
  heap_pop n tosort base.

(** The loop [while ((pr - pl) > SMALL_QUICKSORT)]: the larger part goes
    on the stack with the depth left, the smaller one is split next. *)
Fixpoint split (fuel : nat) (tosort : list nat) (pl pr : nat) (cdepth : Z)
    (stack : list (nat * nat * Z))
    : option (list nat * nat * nat * Z * list (nat * nat * Z)) :=
  match fuel with
  | O => None
  | S fuel =>
      if decide (SMALL_QUICKSORT < pr - pl)%nat then
        r ← partition tosort pl pr;
        let tosort := r.1 in
        let pi := r.2 in
        let cdepth := cdepth - 1 in
        if decide (pi - pl < pr - pi)%nat
        then split fuel tosort pl (pi - 1) cdepth ((S pi, pr, cdepth) :: stack)
        else split fuel tosort (S pi) pr cdepth ((pl, (pi - 1)%nat, cdepth) :: stack)
      else Some (tosort, pl, pr, cdepth, stack)
  end.

(** The outer loop: a part is sorted, by the heap sort when the depth is
    used up, and the next one is taken off the stack. *)
Fixpoint sort_parts (fuel : nat) (tosort : list nat) (pl pr : nat) (cdepth : Z)
    (stack : list (nat * nat * Z)) : option (list nat) :=
  match fuel with
  | O => None
  | S fuel =>
      r ← (if cdepth <? 0
           then tosort ← aheapsort tosort pl (pr - pl + 1); Some (tosort, stack)
           else s ← split (S (length tosort)) tosort pl pr cdepth stack;
                let '(tosort, pl, pr, _, stack) := s in
                Some (insertion_sort tosort pl pr, stack));
      match r.2 with
      | [] => Some r.1
      | (pl, pr, cdepth) :: stack => sort_parts fuel r.1 pl pr cdepth stack
      end
  end.

(** [aquicksort_(v, tosort, num)], [tosort] holding the positions 0 to
    [num - 1] as [argsort] fills it. *)
Definition aquicksort : option (list nat) :=
  let num := length v in
  sort_parts (S num) (seq 0 num) 0 (num - 1) (Z.log2 (Z.of_nat num) * 2) [].

End npysort.

(** [nargsort] of pandas on keys none of which is missing: for a
    descending sort the keys are sorted back to front and the result is
    turned round. *)
Definition nargsort (ascending : bool) (items : list Z) : option (list nat) :=
  let idx := seq 0 (length items) in
  if ascending then aquicksort items
  else
    indexer ← aquicksort (rev items);
    Some (rev ((λ i, rev idx !!! i) <$> indexer)).

(** [take]: the rows at the positions of the indexer. *)
Definition take_rows {A} (l : list A) (indexer : list nat) : list A :=
  omap (l !!.) indexer.

#[global] Instance ordered_dec {A} asc (key : A → Z) : RelDecision (ordered asc key).
Proof. intros x y. unfold ordered. destruct asc; apply _. Defined.

(** [sort_values] on the rows [l] with key column [key]: the rows are
    taken at the positions [nargsort] yields.  The result is tested for
    being the rows of [l] in the order of the key, which makes this a sort
    within the contract without a proof about the loops above; where the
    test fails the rows are sorted by insertion.  The examples below show
    the positions [nargsort] yields on the frames they run. *)
Definition sort_values_numpy {A} (ascending : bool) (key : A → Z) (l : list A)
    : list A :=
  match nargsort ascending (key <$> l) with
  | Some indexer =>
      let sorted := take_rows l indexer in
      if decide (indexer ≡ₚ seq 0 (length l) ∧ Sorted (ordered ascending key) sorted)
      then sorted
      else stable_sort ascending key l
  | None => stable_sort ascending key l
  end.

End Numpy.

(** ** Pipeline A: [app.py] *)
Module App.
Import Pandas.

Definition expected_columns : list string :=
  ["Hotel Country Name"; "Guests"; "Room Nights"]%string.

(** One row of [country_analysis] after the column names are flattened. *)
Record CountrySummary := {
  Hotel_Country_Name : scalar;
  Total_Bookings : nat;
  Avg_Guests : option Qc;
  Total_Guests : Qc;
  Avg_Stay_Nights : option Qc;
  Total_Nights : Qc
}.

Record analysis := {
  total_bookings : nat;
  total_countries : nat;
  total_guests : Qc;
  avg_stay : option Qc;
  country_data : list CountrySummary;
  top_country : scalar
}.

(** The rows of the group of country [k]. *)
Definition group (k : scalar) (df : DataFrame) : list row :=
  filter (λ r, at_col "Hotel Country Name" r = Some k) (rows df).

(** [.agg({'Guests': ['count', 'mean', 'sum'],
          'Room Nights': ['mean', 'sum']}).round(2)] on one group. *)
Definition agg (k : scalar) (g : list row) : CountrySummary :=
  let guests := at_col "Guests" <$> g in
  let nights := at_col "Room Nights" <$> g in
  {| Hotel_Country_Name := k;
     Total_Bookings := series_count guests;
     Avg_Guests := round2 <$> series_mean guests;
     Total_Guests := round2 (series_sum guests);
     Avg_Stay_Nights := round2 <$> series_mean nights;
     Total_Nights := round2 (series_sum nights) |}.

(** [df.groupby('Hotel Country Name').agg(...)], [reset_index]: one row
    per country present, countries ascending; rows whose key is missing
    belong to no group. *)
Definition country_table (df : DataFrame) : list CountrySummary :=
  (λ k, agg k (group k df))
    <$> unique_sorted (omap id (at_col "Hotel Country Name" <$> rows df)).

Definition groupby_agg : Py (list CountrySummary) :=
  _ ← getitem "Hotel Country Name";
  _ ← getitem "Guests";
  _ ← getitem "Room Nights";
  df ← get;
  mret (country_table df).

Definition by_bookings (s : CountrySummary) : Z := Z.of_nat (Total_Bookings s).

Definition analyze_booking_data (S : Sorter) : Py analysis :=
  country_analysis ← groupby_agg;
  let country_analysis := sort_values S false by_bookings country_analysis in
  df ← get;
  guests ← getitem "Guests";
  nights ← getitem "Room Nights";
  mret {| total_bookings := len df;
          total_countries := length country_analysis;
          total_guests := series_sum guests;
          avg_stay := series_mean nights;
          country_data := country_analysis;
          top_country := match country_analysis with
                         | s :: _ => Hotel_Country_Name s
                         | [] => Str "N/A"
                         end |}.

(** What [main] shows for an uploaded file that [pd.read_csv] has read:
    - [SchemaError n]: 'Invalid file format: Expected 3 columns, found n';
    - [EmptyDatasetError]: 'No valid data found after processing';
    - [ProcessingError]: the outer handler, 'Error processing file: ...';
    - [Success]: the dashboard built from the analysis. *)
Inductive outcome :=
| SchemaError (found : nat)
| EmptyDatasetError
| ProcessingError (e : exn)
| Success (a : analysis).

Section main.

(** The numbers [pd.to_numeric] reads from text. *)
Variable numeric_literal : string → option Qc.

(** [pd.to_numeric(..., errors='coerce')] on one cell: a number stays, text
    is read as a number or becomes NaN, NaN stays.  ([read_csv] yields no
    timestamp.) *)
Definition to_numeric (c : cell) : cell :=
  match c with
  | Some (Num q) => Some (Num q)
  | Some (Str s) => Num <$> numeric_literal s
  | Some (Date _) | None => None
  end.

(** The cleaning steps of [main], from the frame read to the frame handed
    to [analyze_booking_data].  With [errors='coerce'] the conversion does
    not raise, so the handler around it is never entered. *)
Definition clean (df : DataFrame) : DataFrame :=
  let df := set_columns expected_columns df in
  let df := assign "Guests" (λ r, to_numeric (at_col "Guests" r)) df in
  let df := assign "Room Nights" (λ r, to_numeric (at_col "Room Nights" r)) df in
  dropna df.

(** What the cleaning steps make of one row of a frame whose columns are
    [cols]: the cells renamed by position, the two numeric ones coerced. *)
Definition coerce_row (cols : list string) (r : row) : row :=
  let r0 := rename_row cols expected_columns r in
  let r1 := <["Guests"%string := to_numeric (at_col "Guests" r0)]> r0 in
  <["Room Nights"%string := to_numeric (at_col "Room Nights" r1)]> r1.

(** A row of a frame with columns [c0], [c1], [c2] that has a country and
    two numbers. *)
Definition valid_row (c0 c1 c2 : string) (r : row) : Prop :=
  at_col c0 r ≠ None
  ∧ to_numeric (at_col c1 r) ≠ None
  ∧ to_numeric (at_col c2 r) ≠ None.

Definition main (S : Sorter) (df : DataFrame) : outcome :=
  if decide (length (columns df) ≠ 3%nat) then SchemaError (length (columns df))
  else
    let df := clean df in
    if empty df then EmptyDatasetError
    else match analyze_booking_data S df with
         | (Ok a, _) => Success a
         | (Raise e, _) => ProcessingError e
         end.

End main.

(** The three canonical cells of a row. *)
Definition fields (r : row) : cell * cell * cell :=
  (at_col "Hotel Country Name" r, at_col "Guests" r, at_col "Room Nights" r).

(** The cells of a frame by position, row by row. *)
Definition cells (df : DataFrame) : list (list cell) :=
  (λ r, (λ c, at_col c r) <$> columns df) <$> rows df.

(** The frames [main] hands to [analyze_booking_data]: the three canonical
    columns, no missing value. *)
Definition cleaned (df : DataFrame) : Prop :=
  columns df = expected_columns ∧ Forall (complete_row expected_columns) (rows df).

(** A cleaned row. *)
Definition booking (country : string) (guests nights : Z) : row :=
  {[ "Hotel Country Name"%string := Some (Str country);
     "Guests"%string := Some (Num (Qc_of_Z guests));
     "Room Nights"%string := Some (Num (Qc_of_Z nights)) ]}.

(** End-to-end scenario 1 of the specification. *)
Definition scenario_1 : DataFrame :=
  {| columns := expected_columns;
     rows := [booking "France" 2 3; booking "France" 1 5; booking "Spain" 4 2] |}.

Definition france_summary : CountrySummary :=
  {| Hotel_Country_Name := Str "France";
     Total_Bookings := 2;
     Avg_Guests := Some (Q2Qc (3 # 2));
     Total_Guests := Q2Qc 3;
     Avg_Stay_Nights := Some (Q2Qc 4);
     Total_Nights := Q2Qc 8 |}.

Definition spain_summary : CountrySummary :=
  {| Hotel_Country_Name := Str "Spain";
     Total_Bookings := 1;
     Avg_Guests := Some (Q2Qc 4);
     Total_Guests := Q2Qc 4;
     Avg_Stay_Nights := Some (Q2Qc 2);
     Total_Nights := Q2Qc 2 |}.

(** A file as [pd.read_csv] hands it over, headers of its own: a good row,
    a row whose guests are no number, and a row without a country whose
    numbers are fine. *)
Definition raw_upload : DataFrame :=
  {| columns := ["Country"; "G"; "N"]%string;
     rows := [ {[ "Country"%string := Some (Str "France");
                  "G"%string := Some (Str "2"); "N"%string := Some (Num (Qc_of_Z 3)) ]};
               {[ "Country"%string := Some (Str "Spain");
                  "G"%string := Some (Str "many"); "N"%string := Some (Num (Qc_of_Z 2)) ]};
               {[ "Country"%string := None;
                  "G"%string := Some (Str "1"); "N"%string := Some (Num (Qc_of_Z 5)) ]} ] |}.

(** A frame without the rows whose column [c] is missing. *)
Definition without_missing (c : string) (df : DataFrame) : DataFrame :=
  {| columns := columns df; rows := filter (λ r, at_col c r ≠ None) (rows df) |}.

(** Bookings of one guest for one night: for every country of the list as
    many as the number beside it. *)
Definition bookings_of (countries : list (string * nat)) : list row :=
  c ← countries; replicate c.2 (booking c.1 1 1).

(** Twenty countries, eight of them with two bookings and twelve with
    one. *)
Definition twenty_countries : DataFrame :=
  {| columns := expected_columns;
     rows := bookings_of
               [("Austria", 1); ("Belgium", 2); ("Croatia", 1); ("Denmark", 1);
                ("Estonia", 2); ("Finland", 2); ("France", 1); ("Germany", 2);
                ("Greece", 1); ("Hungary", 1); ("Ireland", 1); ("Italy", 2);
                ("Latvia", 1); ("Malta", 2); ("Norway", 2); ("Poland", 1);
                ("Portugal", 1); ("Spain", 2); ("Sweden", 1); ("Turkey", 1)]%nat |}.

End App.

(** ** Pipeline B: [app2.py] *)
Module App2.
Import Text Pandas.

(** [re.match(r'Week\s+(\d+)\s+(\d{4})', s)]: the pattern is anchored at
    the start of [s] only.  Each run is followed by a character of another
    class, so the greedy runs are the only way to match; the result is the
    pair of groups. *)
Definition re_match_week (s : list N) : option (list N * list N) :=
  match consume (code_points "Week") s with
  | Some s1 =>
      let ws1 := take_while is_space s1 in
      let s2 := drop_while is_space s1 in
      let ds := take_while is_digit s2 in
      let s3 := drop_while is_digit s2 in
      let ws2 := take_while is_space s3 in
      let s4 := drop_while is_space s3 in
      let y := take 4 s4 in
      if nonempty ws1 && nonempty ds && nonempty ws2
         && (length y =? 4)%nat && forallb is_digit y
      then Some (ds, y)
      else None
  | None => None
  end.

(** *** Calendar *)

(** [date(year, 1, 1).toordinal()]. *)
Definition ordinal_jan1 (year : Z) : Z :=
  365 * (year - 1) + (year - 1) / 4 - (year - 1) / 100 + (year - 1) / 400 + 1.

(** [date.weekday()]: Monday is 0. *)
Definition weekday (ordinal : Z) : Z := (ordinal + 6) mod 7.

Definition is_leap (year : Z) : bool :=
  (year mod 4 =? 0) && (negb (year mod 100 =? 0) || (year mod 400 =? 0)).

(** Days of the year before the first of month [m] (1 to 12). *)
Definition days_before_month (year m : Z) : Z :=
  let feb := if is_leap year then 29 else 28 in
  let lengths := [31; feb; 31; 30; 31; 30; 31; 31; 30; 31; 30; 31] in
  foldr Z.add 0 (take (Z.to_nat (m - 1)) lengths).

(** The day of the year [%W] and [%w] designate, weeks starting on Monday:
    week 1 starts on the first Monday of the year, and the days before it
    form week 0. *)
Definition calc_julian_from_W (year week_of_year day_of_week : Z) : Z :=
  let first_weekday := weekday (ordinal_jan1 year) in
  let week_0_length := (7 - first_weekday) mod 7 in
  if week_of_year =? 0 then 1 + day_of_week - first_weekday
  else 1 + (week_0_length + 7 * (week_of_year - 1)) + day_of_week.

Section TimeNormalizer.

(** The instants a timestamp of the installed pandas can hold. *)
Variable in_bounds : Z → bool.

(** [pd.to_datetime(f'{year}-W{week_num:02d}-1', format='%Y-W%W-%w')];
    [None] stands for the exception raised.  The text matches the format
    when the year prints as four digits and the week as two digits from 00
    to 53; [%w] reads 1, a Monday.  The parser of pandas keeps the day of
    the year in a variable that holds -1 while the day is not known: a
    week 0 whose Monday is two days before 1 January computes that very
    value, and the date falls back to the month and day not given, 1
    January. *)
Definition to_datetime_week (year week_num : Z) : option Z :=
  if (1000 <=? year) && (year <=? 9999) && (0 <=? week_num) && (week_num <=? 53)
  then
    let julian := calc_julian_from_W year week_num 0 in
    let d := if julian =? -1 then ordinal_jan1 year
             else ordinal_jan1 year + julian - 1 in
    if in_bounds d then Some d else None
  else None.

(** [parse_week], applied to one cell of the week column.  A cell that is
    not text prints as a number and does not match; whatever is raised on
    the way is caught and the result is NaT. *)
Definition parse_week (week_str : cell) : cell :=
  match week_str with
  | None => None
  | Some (Str s) =>
      match re_match_week (strip (code_points s)) with
      | Some (g1, g2) =>
          match int g1, int g2 with
          | Some week_num, Some year =>
              match to_datetime_week year week_num with
              | Some d => Some (Date d)
              | None => None
              end
          | _, _ => None
          end
      | None => None
      end
  | Some _ => None
  end.

(** [str.lower], as far as a comparison with an ASCII word goes: the
    capital letters of ASCII and the Kelvin sign are the characters whose
    lower case is an ASCII letter. *)
Definition to_lower (c : N) : N :=
  if in_range c (65, 90)%N then (c + 32)%N
  else if (c =? 8490)%N then 107%N
  else c.

Definition month_abbr : list string :=
  ["jan"; "feb"; "mar"; "apr"; "may"; "jun";
   "jul"; "aug"; "sep"; "oct"; "nov"; "dec"]%string.

(** [%b], letter case ignored: the number of the month, 1 to 12. *)
Definition month_number (m : list N) : option Z :=
  (λ i, Z.of_nat (S i.1)) <$>
    list_find (λ name, code_points name = to_lower <$> m) month_abbr.

(** The format ['%b %Y'] against the whole text: a month name, white space
    (a blank in the format stands for [\s+]) and four digits. *)
Definition match_month (s : list N) : option (Z * list N) :=
  match month_number (take 3 s) with
  | Some m =>
      let ws := take_while is_space (drop 3 s) in
      let y := drop_while is_space (drop 3 s) in
      if nonempty ws && (length y =? 4)%nat && forallb is_digit y
      then Some (m, y)
      else None
  | None => None
  end.

(** [pd.to_datetime(..., format='%b %Y', errors='coerce')] on one cell:
    the first day of the month, or NaT.  A cell that holds a timestamp
    already keeps it; a number prints as text that does not match. *)
Definition to_datetime_month (label : cell) : cell :=
  match label with
  | Some (Date d) => Some (Date d)
  | Some (Str s) =>
      match match_month (code_points s) with
      | Some (m, g) =>
          match int g with
          | Some year =>
              let d := ordinal_jan1 year + days_before_month year m in
              if (1 <=? year) && in_bounds d then Some (Date d) else None
          | None => None
          end
      | None => None
      end
  | _ => None
  end.

End TimeNormalizer.

(** *** The label grammars the parsers accept *)

(** A non-empty run of characters of one class. *)
Definition run_of (p : N → bool) (l : list N) : Prop :=
  l ≠ [] ∧ Forall (λ a, p a = true) l.

Definition four_digits (y : list N) : Prop :=
  length y = 4%nat ∧ Forall (λ a, is_digit a = true) y.

(** [s] begins with [Week], white space, a number of at most 4300 digits,
    white space and four digits; anything may follow. *)
Definition week_prefix (s : list N) (week_num year : Z) : Prop :=
  ∃ ws1 ds ws2 y rest,
    s = code_points "Week" ++ ws1 ++ ds ++ ws2 ++ y ++ rest
    ∧ run_of is_space ws1 ∧ run_of is_digit ds
    ∧ run_of is_space ws2 ∧ four_digits y
    ∧ (length ds ≤ int_max_str_digits)%nat
    ∧ week_num = digits_value ds ∧ year = digits_value y.

(** [s] is a month name in any letter case, white space and four digits,
    and nothing else. *)
Definition month_label (s : list N) (month year : Z) : Prop :=
  ∃ name ws y i abbr,
    s = name ++ ws ++ y
    ∧ month_abbr !! i = Some abbr
    ∧ code_points abbr = to_lower <$> name
    ∧ month = Z.of_nat (S i)
    ∧ run_of is_space ws ∧ four_digits y
    ∧ year = digits_value y.

(** The week grammar in the words of the specification: the label is
    [Week <int> <4-digit-year>]. *)
Definition spec_week_grammar (s : list N) : Prop :=
  ∃ ws1 ds ws2 y,
    s = code_points "Week" ++ ws1 ++ ds ++ ws2 ++ y
    ∧ run_of is_space ws1 ∧ run_of is_digit ds
    ∧ run_of is_space ws2 ∧ four_digits y.

(** The day a week label stands for, in the terms of the calendar.  From
    week 1 on it is the Monday of the week, week 1 being the seven days
    from the first Monday of the year.  Week 0 is the Monday on or before
    1 January, and 1 January itself in a year that begins on a
    Wednesday. *)
Definition week_instant (year week_num d : Z) : Prop :=
  let jan1 := ordinal_jan1 year in
  if decide (week_num = 0) then
    if decide (weekday jan1 = 2) then d = jan1
    else weekday d = 0 ∧ jan1 - 7 < d ≤ jan1
  else
    weekday d = 0
    ∧ ∃ first_monday,
        weekday first_monday = 0
        ∧ jan1 ≤ first_monday < jan1 + 7
        ∧ d = first_monday + 7 * (week_num - 1).

Definition first_of_month (year month : Z) : Z :=
  ordinal_jan1 year + days_before_month year month.

(** *** The pivot *)

(** [pivot_table]: the status columns, and per period label the counts
    under those columns, top to bottom. *)
Record PivotTable := {
  pcolumns : list scalar;
  prows : list (cell * list Z)
}.

Definition index (pt : PivotTable) : list cell := fst <$> prows pt.

(** [pd.DataFrame()]. *)
Definition empty_pivot : PivotTable := {| pcolumns := []; prows := [] |}.

Definition pivot_empty (pt : PivotTable) : bool :=
  match pcolumns pt, prows pt with
  | [], _ | _, [] => true
  | _, _ => false
  end.

(** The key of a row under [groupby([c1, c2])]: none when either part is
    missing. *)
Definition pair_key (c1 c2 : string) (r : row) : option (scalar * scalar) :=
  l ← at_col c1 r; s ← at_col c2 r; Some (l, s).

(** [df.groupby([c1, c2]).size().reset_index(name='Count')]: one entry per
    pair of keys present, pairs ascending, with the number of its rows. *)
Definition summary_of (c1 c2 : string) (rs : list row) : list (scalar * scalar * nat) :=
  let keys := omap (pair_key c1 c2) rs in
  (λ k, (k, length (filter (λ k', k' = k) keys))) <$> merge_sort pair_le (remove_dups keys).

Definition groupby_size (c1 c2 : string) (df : DataFrame)
    : result (list (scalar * scalar * nat)) :=
  if decide (c1 ∈ columns df) then
    if decide (c2 ∈ columns df) then Ok (summary_of c1 c2 (rows df))
    else Raise (KeyError c2)
  else Raise (KeyError c1).

(** [summary.pivot(index=..., columns=..., values='Count').fillna(0)]. *)
Definition pivot_fillna (summary : list (scalar * scalar * nat)) : PivotTable :=
  let idx := unique_sorted ((λ e, e.1.1) <$> summary) in
  let cols := unique_sorted ((λ e, e.1.2) <$> summary) in
  {| pcolumns := cols;
     prows := (λ l, (Some l,
                     (λ s, default 0 (Z.of_nat <$> assoc (l, s) summary)) <$> cols))
                <$> idx |}.

(** [pivot_table.reindex(labels, fill_value=v)]. *)
Definition reindex (labels : list cell) (fill_value : Z) (pt : PivotTable) : PivotTable :=
  {| pcolumns := pcolumns pt;
     prows := (λ p, (p, default (replicate (length (pcolumns pt)) fill_value)
                               (assoc p (prows pt))))
                <$> labels |}.

(** The ordering key of a row: the instant in its [Time_Date] cell. *)
Definition time_date (r : row) : Z :=
  match at_col "Time_Date" r with
  | Some (Date d) => d
  | _ => 0
  end.

(** [df.sort_values('Time_Date')]. *)
Definition sort_by_time (S : Sorter) (df : DataFrame) : DataFrame :=
  {| columns := columns df; rows := sort_values S true time_date (rows df) |}.

(** [df.drop_duplicates(subset=[c])]. *)
Definition drop_duplicates_subset (c : string) (df : DataFrame) : DataFrame :=
  {| columns := columns df; rows := drop_duplicates (at_col c) (rows df) |}.

Definition time_column_of (time_period : string) : string :=
  if String.eqb time_period "Week" then "Booking Week" else "Booking Month".

(** Lines 19 to 40 of [process_data]: the [Time_Date] column is written
    into the frame the caller passed. *)
Definition assign_time_date (in_bounds : Z → bool) (time_period : string) : Py unit :=
  let time_column := time_column_of time_period in
  if String.eqb time_period "Week"
  then setitem_apply "Time_Date" time_column (parse_week in_bounds)
  else setitem_apply "Time_Date" time_column (to_datetime_month in_bounds).

(** Lines 42 to 63: from here on [df] is a local name. *)
Definition build_pivot (S : Sorter) (time_period : string)
    : Py (PivotTable * DataFrame * string) :=
  let time_column := time_column_of time_period in
  df ← get;
  let df := dropna_subset "Time_Date" df in
  if empty df then mret (empty_pivot, df, time_column)
  else
    let df_sorted := sort_by_time S df in
    bookings_summary ← lift (groupby_size time_column "Booking Status" df_sorted);
    let pivot_table := pivot_fillna bookings_summary in
    let pivot_table :=
      if pivot_empty pivot_table then pivot_table
      else
        let time_sorted_df :=
          sort_by_time S (drop_duplicates_subset time_column df_sorted) in
        let sorted_periods := at_col time_column <$> rows time_sorted_df in
        reindex sorted_periods 0 pivot_table in
    mret (pivot_table, df_sorted, time_column).

Definition process_data (S : Sorter) (in_bounds : Z → bool) (time_period : string)
    : Py (PivotTable * DataFrame * string) :=
  _ ← assign_time_date in_bounds time_period;
  build_pivot S time_period.

(** What the page shows for an uploaded file that [pd.read_csv] has read:
    - [SchemaError]: 'CSV file must contain columns: ...';
    - [NoValidPeriodsError]: 'No valid data found for ... analysis. Please
      check your ... column format.' and the expected format of the mode;
    - [ProcessingError]: 'An error occurred while processing the file';
    - [Dashboard]: the statistics, charts and table. *)
Inductive page :=
| SchemaError
| NoValidPeriodsError (time_period time_column : string)
| ProcessingError (e : exn)
| Dashboard (total_bookings : nat) (pivot_table : PivotTable) (df_processed : DataFrame).

Definition required_columns : list string :=
  ["Booking Week"; "Booking Month"; "Booking Status"]%string.

Definition app (S : Sorter) (in_bounds : Z → bool) (time_period : string)
    (df : DataFrame) : page :=
  if decide (Forall (λ col, col ∈ columns df) required_columns) then
    match process_data S in_bounds time_period df with
    | (Ok (pivot_table, df_processed, time_column), df) =>
        if pivot_empty pivot_table
        then NoValidPeriodsError time_period time_column
        else Dashboard (len df) pivot_table df_processed
    | (Raise e, _) => ProcessingError e
    end
  else SchemaError.

(** *** What the statements below speak of *)

(** The parser of the mode. *)
Definition parser (in_bounds : Z → bool) (time_period : string) : cell → cell :=
  if String.eqb time_period "Week"
  then parse_week in_bounds
  else to_datetime_month in_bounds.

(** The instant a label resolves to. *)
Definition instant (in_bounds : Z → bool) (time_period : string) (label : cell) : Z :=
  match parser in_bounds time_period label with
  | Some (Date d) => d
  | _ => 0
  end.

(** The caller's frame once [process_data] has written [Time_Date]. *)
Definition with_time_date (in_bounds : Z → bool) (time_period : string)
    (df : DataFrame) : DataFrame :=
  assign "Time_Date"
    (λ r, parser in_bounds time_period (at_col (time_column_of time_period) r)) df.

(** The records that remain after parsing, in the order of the file. *)
Definition parsed (in_bounds : Z → bool) (time_period : string)
    (df : DataFrame) : list row :=
  rows (dropna_subset "Time_Date" (with_time_date in_bounds time_period df)).

(** The number of records with period label [l] and status [s]. *)
Definition bookings (time_column : string) (rs : list row) (l s : scalar) : nat :=
  length (filter (λ r, at_col time_column r = Some l
                       ∧ at_col "Booking Status" r = Some s) rs).

(** The rows of the pivot, one by one: a label, and under every status
    column the number of records with that label and status. *)
Definition counted (tc : string) (rs : list row) (pt : PivotTable) : Prop :=
  Forall (λ pr, ∃ l, pr.1 = Some l
                   ∧ pr.2 = (λ s, Z.of_nat (bookings tc rs l s)) <$> pcolumns pt)
         (prows pt).

(** The order of the periods in the words of the specification: the
    distinct labels, as they first occur, sorted by instant, with labels of
    one instant left in the order of the input. *)
Definition chronological_order (in_bounds : Z → bool) (time_period : string)
    (df : DataFrame) : list cell :=
  stable_sort true (instant in_bounds time_period)
    (drop_duplicates id
       (at_col (time_column_of time_period) <$> parsed in_bounds time_period df)).

(** The instants a nanosecond timestamp holds at midnight: 1677-09-22 to
    2262-04-11.  The examples run with it. *)
Definition nanosecond_bounds (d : Z) : bool := (612412 <=? d) && (d <=? 825914).

(** A row of a booking file. *)
Definition status_row (week month status : cell) : row :=
  {[ "Booking Week"%string := week;
     "Booking Month"%string := month;
     "Booking Status"%string := status ]}.

(** End-to-end scenario 2 of the specification. *)
Definition scenario_2 : DataFrame :=
  {| columns := required_columns;
     rows := [ status_row (Some (Str "Week 1 2024")) (Some (Str "Jan 2024"))
                 (Some (Str "Confirmed"));
               status_row (Some (Str "Week 10 2024")) (Some (Str "Mar 2024"))
                 (Some (Str "Cancelled"));
               status_row (Some (Str "Week 2 2024")) (Some (Str "Jan 2024"))
                 (Some (Str "Confirmed")) ] |}.

(** Twenty bookings: one of the second week of 2024, then one of the first
    week written "Week 1 2024", then eighteen of the first week written
    "Week 01 2024". *)
Definition twenty_bookings : DataFrame :=
  {| columns := required_columns;
     rows := status_row (Some (Str "Week 2 2024")) (Some (Str "Jan 2024"))
               (Some (Str "Confirmed"))
             :: status_row (Some (Str "Week 1 2024")) (Some (Str "Jan 2024"))
                  (Some (Str "Confirmed"))
             :: replicate 18
                  (status_row (Some (Str "Week 01 2024")) (Some (Str "Jan 2024"))
                     (Some (Str "Confirmed"))) |}.

(** A file with the header and no row, and a file whose only row has a
    label of neither format. *)
Definition header_only : DataFrame :=
  {| columns := required_columns; rows := [] |}.

Definition no_valid_period : DataFrame :=
  {| columns := required_columns;
     rows := [ status_row (Some (Str "2024-W01")) (Some (Str "2024-01"))
                 (Some (Str "Confirmed")) ] |}.

(** *** The summary header and the donut *)

(** Lines 204 to 224 of the page: [status_totals] and [total_bookings] are
    taken from the frame the page read (by then it carries [Time_Date]),
    and the three counts shown are looked up with a default of 0. *)
Record summary := {
  total_bookings : nat;
  confirmed : nat;
  cancelled : nat;
  rejected : nat
}.

Definition summary_statistics (S : Sorter) (df : DataFrame) : summary :=
  let status_totals := value_counts S (at_col "Booking Status" <$> rows df) in
  {| total_bookings := len df;
     confirmed := series_get (Str "Confirmed") 0%nat status_totals;
     cancelled := series_get (Str "Cancelled") 0%nat status_totals;
     rejected := series_get (Str "Rejected") 0%nat status_totals |}.

(** Lines 127 to 150 of [create_visualizations]: the wedges of the donut
    and the total written in its centre, both taken from [df_processed]. *)
Definition donut (S : Sorter) (df : DataFrame) : list (scalar * nat) * nat :=
  (value_counts S (at_col "Booking Status" <$> rows df), len df).

(** The sum of all the cells of a pivot: the total height of the bars. *)
Definition pivot_total (pt : PivotTable) : Z :=
  foldr Z.add 0 (concat (snd <$> prows pt)).

(** A file with the month column alone, with and without a label that
    parses. *)
Definition months_only : DataFrame :=
  {| columns := ["Booking Month"]%string;
     rows := [ {[ "Booking Month"%string := Some (Str "Jan 2024") ]} ] |}.

Definition months_only_unparsed : DataFrame :=
  {| columns := ["Booking Month"]%string;
     rows := [ {[ "Booking Month"%string := Some (Str "2024-01") ]} ] |}.

(** Scenario 2 with one more row, whose labels do not parse. *)
Definition scenario_2_with_noise : DataFrame :=
  {| columns := required_columns;
     rows := rows scenario_2
             ++ [ status_row (Some (Str "n/a")) (Some (Str "n/a"))
                    (Some (Str "Confirmed")) ] |}.

End App2.

(** ** Facts about the pandas model *)
Module PandasFacts.
Import Pandas Numpy.

(** *** The insertion sort meets the contract *)

Lemma insert_by_perm {A} (leb : A → A → bool) x l : insert_by leb x l ≡ₚ x :: l.
Proof.
  induction l as [|y l IH]; simpl; [done|].
  destruct (leb x y); [done|].
  rewrite IH. apply perm_swap.
Qed.

Lemma stable_sort_perm {A} asc (key : A → Z) l : stable_sort asc key l ≡ₚ l.
Proof.
  induction l as [|x l IH]; simpl; [done|].
  unfold stable_sort in *. simpl. by rewrite insert_by_perm, IH.
Qed.

Lemma key_leb_ordered {A} asc (key : A → Z) x y :
  key_leb asc key x y = true ↔ ordered asc key x y.
Proof. unfold key_leb, ordered. destruct asc; apply Z.leb_le. Qed.

Lemma key_leb_total {A} asc (key : A → Z) x y :
  key_leb asc key x y = false → ordered asc key y x.
Proof. unfold key_leb, ordered. destruct asc; rewrite Z.leb_gt; lia. Qed.

Lemma insert_by_sorted {A} asc (key : A → Z) x l :
  Sorted (ordered asc key) l →
  Sorted (ordered asc key) (insert_by (key_leb asc key) x l).
Proof.
  induction 1 as [|y l Hl IH Hhd]; simpl.
  - repeat constructor.
  - destruct (key_leb asc key x y) eqn:E.
    + constructor; [by constructor|]. constructor. by apply key_leb_ordered.
    + constructor; [done|].
      destruct Hhd as [|z l Hz]; simpl.
      * constructor. by apply key_leb_total.
      * destruct (key_leb asc key x z); constructor;
          [by apply key_leb_total | done].
Qed.

Lemma stable_sort_sorted {A} asc (key : A → Z) l :
  Sorted (ordered asc key) (stable_sort asc key l).
Proof.
  induction l as [|x l IH]; [constructor|].
  unfold stable_sort in *. simpl. by apply insert_by_sorted.
Qed.

Definition insertion_sorter : Sorter :=
  {| sort_values := @stable_sort;
     sort_values_perm := @stable_sort_perm;
     sort_values_sorted := @stable_sort_sorted |}.

(** *** The sort of numpy meets the contract *)

Lemma take_rows_seq {A} (l : list A) : take_rows l (seq 0 (length l)) = l.
Proof.
  unfold take_rows. induction l as [|x l IH]; [done|].
  cbn [length seq]. rewrite <-fmap_S_seq.
  change (omap ((x :: l) !!.) (0%nat :: (S <$> seq 0 (length l))))
    with (x :: omap ((x :: l) !!.) (S <$> seq 0 (length l))).
  f_equal. rewrite <-IH at 2. clear IH.
  induction (seq 0 (length l)) as [|i idx IH]; [done|].
  rewrite fmap_cons. simpl. destruct (l !! i); [f_equal|]; exact IH.
Qed.

Lemma take_rows_perm {A} (l : list A) indexer :
  indexer ≡ₚ seq 0 (length l) → take_rows l indexer ≡ₚ l.
Proof.
  intros Hperm. rewrite <-(take_rows_seq l) at 2. unfold take_rows.
  by rewrite Hperm.
Qed.

Lemma sort_values_numpy_perm {A} asc (key : A → Z) l :
  sort_values_numpy asc key l ≡ₚ l.
Proof.
  unfold sort_values_numpy.
  destruct (nargsort _ _) as [indexer|]; [|apply stable_sort_perm].
  destruct (decide _) as [[Hperm _]|_]; [|apply stable_sort_perm].
  by apply take_rows_perm.
Qed.

Lemma sort_values_numpy_sorted {A} asc (key : A → Z) l :
  Sorted (ordered asc key) (sort_values_numpy asc key l).
Proof.
  unfold sort_values_numpy.
  destruct (nargsort _ _) as [indexer|]; [|apply stable_sort_sorted].
  by destruct (decide _) as [[_ Hsorted]|_]; [|apply stable_sort_sorted].
Qed.

Definition numpy_sorter : Sorter :=
  {| sort_values := @sort_values_numpy;
     sort_values_perm := @sort_values_numpy_perm;
     sort_values_sorted := @sort_values_numpy_sorted |}.

(** A key followed by nineteen smaller keys, all of them equal: the
    partition takes the tenth position to the front, and the second comes
    after the sixteen positions from the tenth to the eighteenth and from
    the third to the ninth. *)
Example nargsort_one_then_nineteen :
  nargsort true (738893 :: replicate 19 738886)
  = Some [9; 17; 16; 15; 14; 13; 12; 11; 10; 19;
          8; 7; 6; 5; 4; 3; 2; 1; 18; 0]%nat.
Proof. by vm_compute. Qed.

Instance ordered_transitive {A} asc (key : A → Z) : Transitive (ordered asc key).
Proof. intros x y z. unfold ordered. destruct asc; lia. Qed.

(** *** Counting by key *)

Lemma count_one {K} `{EqDecision K} (x : K) (ks : list K) :
  NoDup ks → x ∈ ks →
  sum_list_with (λ k, if decide (x = k) then 1 else 0)%nat ks = 1%nat.
Proof.
  induction 1 as [|k ks Hk Hnd IH]; intros Hin.
  - by apply elem_of_nil in Hin.
  - simpl. apply elem_of_cons in Hin.
    destruct (decide (x = k)) as [->|Hne].
    + assert (sum_list_with (λ k', if decide (k = k') then 1 else 0)%nat ks = 0%nat)
        as ->; [|done].
      clear IH Hin Hnd. induction ks as [|k' ks IH]; [done|].
      simpl. apply not_elem_of_cons in Hk as [? ?].
      destruct (decide (k = k')); [done|]. by apply IH.
    + destruct Hin as [?|Hin]; [done|]. by rewrite IH.
Qed.

(** The sizes of the groups add up to the number of keys grouped. *)
Lemma sum_counts {K} `{EqDecision K} (l ks : list K) :
  NoDup ks → (∀ x, x ∈ l → x ∈ ks) →
  sum_list_with (λ k, length (filter (λ x, x = k) l)) ks = length l.
Proof.
  intros Hnd. induction l as [|x l IH]; intros Hin.
  - clear Hin Hnd. simpl. induction ks as [|k ks IHk]; [done|]. by simpl.
  - assert (x ∈ ks) as Hx by (apply Hin; left).
    assert (∀ y, y ∈ l → y ∈ ks) as Hl by (intros y Hy; apply Hin; by right).
    specialize (IH Hl). simpl. rewrite <-IH.
    transitivity
      (sum_list_with (λ k, if decide (x = k) then 1 else 0) ks
       + sum_list_with (λ k, length (filter (λ y, y = k) l)) ks)%nat.
    + clear. induction ks as [|k ks IHk]; [done|].
      simpl. rewrite filter_cons, IHk.
      destruct (decide (x = k)); simpl; lia.
    + by rewrite count_one.
Qed.

Lemma unique_sorted_perm keys : unique_sorted keys ≡ₚ remove_dups keys.
Proof. apply merge_sort_Permutation. Qed.

Lemma NoDup_unique_sorted keys : NoDup (unique_sorted keys).
Proof. rewrite unique_sorted_perm. apply NoDup_remove_dups. Qed.

Lemma elem_of_unique_sorted keys k : k ∈ unique_sorted keys ↔ k ∈ keys.
Proof. rewrite unique_sorted_perm. apply elem_of_remove_dups. Qed.

Lemma sum_counts_unique_sorted (l : list scalar) :
  sum_list_with (λ k, length (filter (λ x, x = k) l)) (unique_sorted l) = length l.
Proof.
  apply sum_counts; [apply NoDup_unique_sorted|].
  intros x. by rewrite elem_of_unique_sorted.
Qed.

(** *** Cells and rows *)

Lemma at_col_insert_eq c v (r : row) : at_col c (<[c := v]> r) = v.
Proof. unfold at_col. by rewrite lookup_insert_eq. Qed.

Lemma at_col_insert_ne c c' v (r : row) :
  c ≠ c' → at_col c (<[c' := v]> r) = at_col c r.
Proof. intros Hne. unfold at_col. by rewrite lookup_insert_ne. Qed.

Lemma filter_fmap {A B} (f : A → B) (P : B → Prop) `{!∀ y, Decision (P y)}
    (l : list A) :
  filter P (f <$> l) = f <$> filter (λ x, P (f x)) l.
Proof.
  induction l as [|x l IH]; [done|].
  rewrite fmap_cons, !filter_cons.
  destruct (decide (P (f x))); [rewrite fmap_cons|]; by rewrite IH.
Qed.

End PandasFacts.

(** ** Facts about pipeline A *)
Module AppFacts.
Import Pandas PandasFacts App.

Ltac run_py :=
  unfold analyze_booking_data, groupby_agg, getitem, lift, column, get;
  unfold mbind, mret, Py_bind, Py_ret, bind, ret.

(** On a frame with the three canonical columns the analysis returns, and
    its parts are these. *)
Lemma analyze_booking_data_ok S df :
  Forall (λ c, c ∈ columns df) expected_columns →
  ∃ a, analyze_booking_data S df = (Ok a, df)
     ∧ country_data a = sort_values S false by_bookings (country_table df)
     ∧ total_bookings a = len df
     ∧ top_country a = match country_data a with
                       | s :: _ => Hotel_Country_Name s
                       | [] => Str "N/A"
                       end.
Proof.
  intros Hcols. unfold expected_columns in Hcols.
  apply Forall_cons in Hcols as [H1 Hcols].
  apply Forall_cons in Hcols as [H2 Hcols].
  apply Forall_cons in Hcols as [H3 _].
  run_py. rewrite !decide_True by done. simpl.
  eexists. split; [reflexivity|]. simpl. done.
Qed.

Lemma cleaned_columns df :
  cleaned df → Forall (λ c, c ∈ columns df) expected_columns.
Proof.
  intros [-> _]. apply Forall_forall. auto.
Qed.

Lemma complete_row_lookup r c :
  complete_row expected_columns r → c ∈ expected_columns → at_col c r ≠ None.
Proof. unfold complete_row. rewrite Forall_forall. auto. Qed.

(** In a group every row has its guests, so [count] is the group size. *)
Lemma Total_Bookings_agg df k :
  Forall (complete_row expected_columns) (rows df) →
  Total_Bookings (agg k (group k df)) = length (group k df).
Proof.
  intros Hrows. simpl. unfold series_count, group.
  induction Hrows as [|r rs Hr Hrs IH]; [done|].
  rewrite filter_cons. destruct (decide (at_col "Hotel Country Name" r = Some k)).
  - rewrite fmap_cons, filter_cons.
    rewrite decide_True; [simpl; f_equal; exact IH|].
    apply (complete_row_lookup r); [done|]. unfold expected_columns. set_solver.
  - apply IH.
Qed.

(** The size of a group is the number of times its key occurs. *)
Lemma length_group df k :
  length (group k df)
  = length (filter (λ x, x = k) (omap id (at_col "Hotel Country Name" <$> rows df))).
Proof.
  unfold group. induction (rows df) as [|r rs IH]; [done|].
  rewrite filter_cons, fmap_cons. simpl.
  destruct (at_col "Hotel Country Name" r) as [x|] eqn:E; simpl.
  - rewrite filter_cons.
    destruct (decide (Some x = Some k)) as [Heq|Hne].
    + injection Heq as ->. rewrite !decide_True by done. simpl. f_equal. exact IH.
    + rewrite !decide_False by congruence. exact IH.
  - exact IH.
Qed.

Lemma length_keys df :
  Forall (complete_row expected_columns) (rows df) →
  length (omap id (at_col "Hotel Country Name" <$> rows df)) = length (rows df).
Proof.
  induction 1 as [|r rs Hr Hrs IH]; [done|].
  rewrite fmap_cons. simpl.
  destruct (at_col "Hotel Country Name" r) eqn:E; simpl; [f_equal; exact IH|].
  exfalso. apply (complete_row_lookup r "Hotel Country Name"); [done| |done].
  unfold expected_columns. set_solver.
Qed.

Lemma sum_country_table df :
  Forall (complete_row expected_columns) (rows df) →
  sum_list_with Total_Bookings (country_table df) = length (rows df).
Proof.
  intros Hrows. unfold country_table.
  rewrite <-(length_keys df Hrows), <-sum_counts_unique_sorted.
  induction (unique_sorted _) as [|k ks IH]; [done|].
  rewrite fmap_cons. cbn [sum_list_with].
  by rewrite IH, Total_Bookings_agg, length_group.
Qed.

(** C1: on every cleaned frame with at least one row the analysis returns,
    and the booking counts of its country table add up to the number of
    rows of the frame. *)
Theorem C1_bookings_add_up S df :
  cleaned df → rows df ≠ [] →
  ∃ a, analyze_booking_data S df = (Ok a, df)
     ∧ sum_list_with Total_Bookings (country_data a) = length (rows df).
Proof.
  intros Hclean _.
  destruct (analyze_booking_data_ok S df (cleaned_columns df Hclean))
    as (a & Ha & Hdata & _).
  exists a. split; [done|].
  rewrite Hdata, (sort_values_perm S). apply sum_country_table, Hclean.
Qed.

Lemma cleaned_scenario_1 : cleaned scenario_1.
Proof. split; [reflexivity|]. repeat constructor; by vm_compute. Qed.

Lemma C1_bookings_add_up_witness :
  cleaned scenario_1 ∧ rows scenario_1 ≠ [] ∧
  ∃ a, analyze_booking_data insertion_sorter scenario_1 = (Ok a, scenario_1)
     ∧ sum_list_with Total_Bookings (country_data a) = 3%nat.
Proof.
  split; [exact cleaned_scenario_1|]. split; [discriminate|].
  apply (C1_bookings_add_up insertion_sorter scenario_1 cleaned_scenario_1).
  discriminate.
Defined.

(** *** Ranking *)

Lemma Sorted_weaken {A} (R R' : relation A) l :
  (∀ x y, R x y → R' x y) → Sorted R l → Sorted R' l.
Proof.
  intros HR. induction 1 as [|x l Hl IH Hhd]; constructor; [done|].
  destruct Hhd; constructor; auto.
Qed.

Lemma country_table_nil df : rows df = [] → country_table df = [].
Proof. unfold country_table. by intros ->. Qed.

Lemma country_table_nonempty df :
  Forall (complete_row expected_columns) (rows df) →
  rows df ≠ [] → country_table df ≠ [].
Proof.
  intros Hrows Hne Hnil. pose proof (sum_country_table df Hrows) as Hsum.
  rewrite Hnil in Hsum. simpl in Hsum.
  destruct (rows df); [done|discriminate].
Qed.

Lemma country_table_names df :
  Hotel_Country_Name <$> country_table df
  = unique_sorted (omap id (at_col "Hotel Country Name" <$> rows df)).
Proof.
  unfold country_table. rewrite <-list_fmap_compose.
  induction (unique_sorted _) as [|k ks IH]; [done|].
  rewrite fmap_cons. by f_equal.
Qed.

Lemma elem_of_countries df k :
  k ∈ omap id (at_col "Hotel Country Name" <$> rows df)
  ↔ ∃ r, r ∈ rows df ∧ at_col "Hotel Country Name" r = Some k.
Proof.
  rewrite list_elem_of_omap. split.
  - intros (c & (r & -> & Hr)%list_elem_of_fmap & Hc). by exists r.
  - intros (r & Hr & Hk). exists (Some k). split; [|done].
    apply list_elem_of_fmap. by exists r.
Qed.

(** C4, as the code has it: on a cleaned frame the country table holds the
    rows of the grouping, one row for every country of the frame and no
    country twice, every row with the number of bookings of its country,
    ordered by that number, largest first; the top country is the country
    of its first row, and on a frame without rows it is "N/A".  The order
    among countries with equal counts is left to [sort_values]. *)
Theorem C4_ranking S df :
  cleaned df →
  ∃ a, analyze_booking_data S df = (Ok a, df)
     ∧ country_data a ≡ₚ country_table df
     ∧ NoDup (Hotel_Country_Name <$> country_data a)
     ∧ (∀ k, k ∈ Hotel_Country_Name <$> country_data a
             ↔ ∃ r, r ∈ rows df ∧ at_col "Hotel Country Name" r = Some k)
     ∧ Forall (λ s, Total_Bookings s = length (group (Hotel_Country_Name s) df))
              (country_data a)
     ∧ Sorted (λ s t, Total_Bookings t ≤ Total_Bookings s)%nat (country_data a)
     ∧ (rows df ≠ [] →
        ∃ s rest, country_data a = s :: rest
                ∧ top_country a = Hotel_Country_Name s)
     ∧ (rows df = [] → top_country a = Str "N/A").
Proof.
  intros Hclean.
  destruct (analyze_booking_data_ok S df (cleaned_columns df Hclean))
    as (a & Ha & Hdata & _ & Htop).
  exists a. split; [done|].
  assert (country_data a ≡ₚ country_table df) as Hperm
    by (rewrite Hdata; apply (sort_values_perm S)).
  assert (Hotel_Country_Name <$> country_data a
          ≡ₚ unique_sorted (omap id (at_col "Hotel Country Name" <$> rows df)))
    as Hnames by (by rewrite Hperm, country_table_names).
  split; [done|].
  split; [rewrite Hnames; apply NoDup_unique_sorted|].
  split; [intros k; by rewrite Hnames, elem_of_unique_sorted, elem_of_countries|].
  split.
  { rewrite Hperm. unfold country_table. apply Forall_fmap, Forall_forall.
    intros k _. apply (Total_Bookings_agg df k), Hclean. }
  split.
  - rewrite Hdata.
    apply (Sorted_weaken (ordered false by_bookings)); [|apply (sort_values_sorted S)].
    unfold ordered, by_bookings. intros x y. lia.
  - split.
    + intros Hne. destruct (country_data a) as [|s rest] eqn:E.
      * symmetry in Hperm. apply Permutation_nil_r in Hperm.
        by apply country_table_nonempty in Hperm; [|apply Hclean|].
      * by exists s, rest.
    + intros Hnil. rewrite (country_table_nil df Hnil) in Hperm.
      apply Permutation_nil_r in Hperm. by rewrite Htop, Hperm.
Qed.

Lemma C4_ranking_witness :
  cleaned scenario_1 ∧
  ∃ a, analyze_booking_data insertion_sorter scenario_1 = (Ok a, scenario_1)
     ∧ country_data a ≡ₚ country_table scenario_1
     ∧ NoDup (Hotel_Country_Name <$> country_data a)
     ∧ Sorted (λ s t, Total_Bookings t ≤ Total_Bookings s)%nat (country_data a)
     ∧ (rows scenario_1 ≠ [] →
        ∃ s rest, country_data a = s :: rest
                ∧ top_country a = Hotel_Country_Name s)
     ∧ (rows scenario_1 = [] → top_country a = Str "N/A").
Proof.
  split; [exact cleaned_scenario_1|].
  destruct (C4_ranking insertion_sorter scenario_1 cleaned_scenario_1)
    as (a & Ha & Hperm & Hnd & _ & _ & Hsorted & Htop & Hna).
  by exists a.
Defined.

Lemma cleaned_twenty_countries : cleaned twenty_countries.
Proof.
  split; [reflexivity|]. apply Forall_forall. intros r Hr.
  unfold twenty_countries, bookings_of in Hr. cbn [rows] in Hr.
  apply list_elem_of_bind in Hr as ([c n] & Hr & _).
  apply elem_of_replicate in Hr as [-> _].
  repeat constructor; by vm_compute.
Qed.

(** C4, as stated, fails in its tie rule.  Of twenty countries eight have
    two bookings and twelve have one.  The grouping lists the countries in
    alphabetical order, so the order the claim asks for is the eight in
    alphabetical order and then the twelve in alphabetical order; the
    table [analyze_booking_data] returns with the sort of numpy is in
    another order. *)
Lemma C4_counterexample :
  cleaned twenty_countries ∧ rows twenty_countries ≠ [] ∧
  Hotel_Country_Name <$> country_table twenty_countries
  = Str <$> ["Austria"; "Belgium"; "Croatia"; "Denmark"; "Estonia"; "Finland";
             "France"; "Germany"; "Greece"; "Hungary"; "Ireland"; "Italy";
             "Latvia"; "Malta"; "Norway"; "Poland"; "Portugal"; "Spain";
             "Sweden"; "Turkey"]%string ∧
  Total_Bookings <$> country_table twenty_countries
  = [1; 2; 1; 1; 2; 2; 1; 2; 1; 1; 1; 2; 1; 2; 2; 1; 1; 2; 1; 1]%nat ∧
  Hotel_Country_Name <$> stable_sort false by_bookings (country_table twenty_countries)
  = Str <$> ["Belgium"; "Estonia"; "Finland"; "Germany"; "Italy"; "Malta";
             "Norway"; "Spain"; "Austria"; "Croatia"; "Denmark"; "France";
             "Greece"; "Hungary"; "Ireland"; "Latvia"; "Poland"; "Portugal";
             "Sweden"; "Turkey"]%string ∧
  ∃ a, analyze_booking_data numpy_sorter twenty_countries = (Ok a, twenty_countries)
     ∧ Hotel_Country_Name <$> country_data a
       ≠ Hotel_Country_Name <$> stable_sort false by_bookings
                                  (country_table twenty_countries).
Proof.
  assert (Hotel_Country_Name <$> country_table twenty_countries
          = Str <$> ["Austria"; "Belgium"; "Croatia"; "Denmark"; "Estonia"; "Finland";
                     "France"; "Germany"; "Greece"; "Hungary"; "Ireland"; "Italy";
                     "Latvia"; "Malta"; "Norway"; "Poland"; "Portugal"; "Spain";
                     "Sweden"; "Turkey"]%string) as Hnames.
  { rewrite country_table_names. by vm_compute. }
  assert (Total_Bookings <$> country_table twenty_countries
          = [1; 2; 1; 1; 2; 2; 1; 2; 1; 1; 1; 2; 1; 2; 2; 1; 1; 2; 1; 1]%nat)
    as Hcounts.
  { unfold country_table. rewrite <-list_fmap_compose.
    etrans; [apply list_fmap_ext; intros _ k _; simpl;
             apply (Total_Bookings_agg twenty_countries k),
               cleaned_twenty_countries|].
    by vm_compute. }
  split; [exact cleaned_twenty_countries|].
  split; [discriminate|].
  split; [exact Hnames|]. split; [exact Hcounts|].
  split; [by vm_compute|].
  destruct (analyze_booking_data_ok numpy_sorter twenty_countries
              (cleaned_columns _ cleaned_twenty_countries)) as (a & Ha & Hdata & _).
  exists a. split; [done|]. rewrite Hdata. by vm_compute.
Qed.

(** *** The worked example *)

(** Two rows with different keys come back from any sort within the
    contract in the one order the keys allow. *)
Lemma sort_values_two S {A} (key : A → Z) x y :
  key y < key x → sort_values S false key [x; y] = [x; y].
Proof.
  intros Hlt.
  pose proof (sort_values_perm S A false key [x; y]) as Hperm.
  pose proof (sort_values_sorted S A false key [x; y]) as Hsorted.
  symmetry in Hperm.
  apply Permutation_length_2_inv in Hperm as [Heq|Heq]; [done|].
  rewrite Heq in Hsorted. apply Sorted_inv in Hsorted as [_ Hhd]. apply HdRel_inv in Hhd.
  unfold ordered in Hhd. lia.
Qed.

Lemma country_table_scenario_1 :
  country_table scenario_1 = [france_summary; spain_summary].
Proof.
  unfold country_table, france_summary, spain_summary.
  replace (unique_sorted _) with [Str "France"; Str "Spain"] by (by vm_compute).
  rewrite !fmap_cons, fmap_nil. unfold agg.
  replace (group (Str "France") scenario_1)
    with [booking "France" 2 3; booking "France" 1 5] by (by vm_compute).
  replace (group (Str "Spain") scenario_1)
    with [booking "Spain" 4 2] by (by vm_compute).
  f_equal; [|f_equal]; f_equal;
    first [ by vm_compute
          | apply Qc_is_canon; by vm_compute
          | vm_compute; f_equal; apply Qc_is_canon; by vm_compute ].
Qed.

(** [.round(2)] yields a whole number of hundredths. *)
Lemma round2_hundredths q : ∃ n : Z, round2 q = Q2Qc (n # 100).
Proof. by eexists. Qed.

(** C9: on the three rows of scenario 1 the analysis returns France with 2
    bookings, 3 guests in total and 1.5 on average, 8 nights in total and
    4 on average, then Spain with 1 booking, 4 guests and 2 nights; France
    is the top country.  The means are the values rounded to two decimals
    (here they are exact). *)
Theorem C9_scenario_1 S :
  ∃ a, analyze_booking_data S scenario_1 = (Ok a, scenario_1)
     ∧ country_data a = [france_summary; spain_summary]
     ∧ top_country a = Str "France"
     ∧ Avg_Guests <$> country_data a
       = [round2 <$> Some (Q2Qc (3 # 2)); round2 <$> Some (Q2Qc 4)]
     ∧ Avg_Stay_Nights <$> country_data a
       = [round2 <$> Some (Q2Qc 4); round2 <$> Some (Q2Qc 2)].
Proof.
  destruct (analyze_booking_data_ok S scenario_1
              (cleaned_columns _ cleaned_scenario_1)) as (a & Ha & Hdata & _ & Htop).
  exists a. split; [done|].
  rewrite country_table_scenario_1, sort_values_two in Hdata by (by vm_compute).
  rewrite Htop, Hdata. split; [done|]. split; [done|].
  split; simpl; repeat f_equal; apply Qc_is_canon; by vm_compute.
Qed.

(** *** Cleaning *)

Lemma rename_row_3 c0 c1 c2 r :
  rename_row [c0; c1; c2] expected_columns r
  = <["Hotel Country Name"%string := at_col c0 r]>
      (<["Guests"%string := at_col c1 r]>
         (<["Room Nights"%string := at_col c2 r]> ∅)).
Proof. reflexivity. Qed.

(** The canonical cells of a coerced row are the cells of the row by
    position, the numeric ones through [to_numeric]. *)
Lemma fields_coerce_row nl c0 c1 c2 r :
  fields (coerce_row nl [c0; c1; c2] r)
  = (at_col c0 r, to_numeric nl (at_col c1 r), to_numeric nl (at_col c2 r)).
Proof.
  unfold fields, coerce_row. rewrite rename_row_3.
  repeat first [ rewrite at_col_insert_eq | rewrite at_col_insert_ne by done ].
  reflexivity.
Qed.

Lemma complete_coerce_row nl c0 c1 c2 r :
  complete_row expected_columns (coerce_row nl [c0; c1; c2] r)
  ↔ valid_row nl c0 c1 c2 r.
Proof.
  pose proof (fields_coerce_row nl c0 c1 c2 r) as Hf.
  pose proof (f_equal (λ t, t.1.1) Hf) as H0.
  pose proof (f_equal (λ t, t.1.2) Hf) as H1.
  pose proof (f_equal (λ t, t.2) Hf) as H2.
  cbv beta in H0, H1, H2. unfold fields in H0, H1, H2. cbn [fst snd] in H0, H1, H2.
  unfold complete_row, expected_columns, valid_row.
  rewrite !Forall_cons, H0, H1, H2.
  split; [by intros (? & ? & ? & _)|].
  intros (? & ? & ?). by repeat split.
Qed.

Lemma clean_columns nl df : columns (clean nl df) = expected_columns.
Proof. reflexivity. Qed.

Lemma clean_rows nl df c0 c1 c2 :
  columns df = [c0; c1; c2] →
  rows (clean nl df)
  = coerce_row nl [c0; c1; c2] <$> filter (valid_row nl c0 c1 c2) (rows df).
Proof.
  intros Hcols. unfold clean, dropna, assign, set_columns. simpl.
  rewrite Hcols, <-!list_fmap_compose, filter_fmap.
  f_equal. apply list_filter_iff. intros r. apply complete_coerce_row.
Qed.

Lemma empty_clean nl df :
  empty (clean nl df) = match rows (clean nl df) with [] => true | _ => false end.
Proof. reflexivity. Qed.

(** [main] past the column check. *)
Lemma main_clean nl S df :
  length (columns df) = 3%nat →
  (rows (clean nl df) = [] ∧ main nl S df = EmptyDatasetError)
  ∨ (rows (clean nl df) ≠ []
     ∧ ∃ a, main nl S df = Success a
          ∧ analyze_booking_data S (clean nl df) = (Ok a, clean nl df)).
Proof.
  intros Hlen. unfold main. rewrite decide_False by (intros Hn; by apply Hn).
  rewrite empty_clean. destruct (rows (clean nl df)) eqn:E; [by left|right].
  split; [done|].
  destruct (analyze_booking_data_ok S (clean nl df)) as (a & Ha & _).
  { rewrite clean_columns. apply Forall_forall. auto. }
  exists a. by rewrite Ha.
Qed.

(** C6: in a frame of three columns, text that is no number becomes a
    missing value; the rows that reach the analysis are the rows that have
    a country and two numbers, with those numbers (no row is kept with a
    substitute value); when no row is left the run ends with
    [EmptyDatasetError], and otherwise it succeeds on the rows left. *)
Theorem C6_cleaning nl S df c0 c1 c2 :
  columns df = [c0; c1; c2] →
  (∀ s, nl s = None → to_numeric nl (Some (Str s)) = None)
  ∧ fields <$> rows (clean nl df)
    = (λ r, (at_col c0 r, to_numeric nl (at_col c1 r), to_numeric nl (at_col c2 r)))
        <$> filter (valid_row nl c0 c1 c2) (rows df)
  ∧ (filter (valid_row nl c0 c1 c2) (rows df) = [] →
     main nl S df = EmptyDatasetError)
  ∧ (filter (valid_row nl c0 c1 c2) (rows df) ≠ [] →
     ∃ a, main nl S df = Success a
        ∧ total_bookings a = length (filter (valid_row nl c0 c1 c2) (rows df))).
Proof.
  intros Hcols.
  pose proof (clean_rows nl df c0 c1 c2 Hcols) as Hrows.
  assert (length (columns df) = 3%nat) as Hlen by (by rewrite Hcols).
  split; [by intros s Hs; simpl; rewrite Hs|].
  split.
  { rewrite Hrows, <-list_fmap_compose. apply list_fmap_ext.
    intros _ r _. apply fields_coerce_row. }
  split.
  - intros Hnil. rewrite Hnil in Hrows.
    destruct (main_clean nl S df Hlen) as [[_ ?]|[Hne _]]; [done|].
    by rewrite Hrows in Hne.
  - intros Hne.
    destruct (main_clean nl S df Hlen) as [[Hnil _]|[_ (a & Hmain & Ha)]].
    + rewrite Hrows in Hnil. by apply fmap_nil_inv in Hnil.
    + exists a. split; [done|].
      destruct (analyze_booking_data_ok S (clean nl df)) as (a' & Ha' & _ & Hlen' & _).
      { rewrite clean_columns. apply Forall_forall. auto. }
      rewrite Ha in Ha'. injection Ha' as <-.
      by rewrite Hlen', <-(length_fmap (coerce_row nl [c0; c1; c2])), <-Hrows.
Qed.

Lemma C6_cleaning_witness :
  columns raw_upload = ["Country"; "G"; "N"]%string ∧
  ∃ a, main whole_number insertion_sorter raw_upload = Success a
     ∧ total_bookings a = 1%nat.
Proof.
  split; [reflexivity|].
  destruct (C6_cleaning whole_number insertion_sorter raw_upload "Country" "G" "N" eq_refl)
    as (_ & _ & _ & Hsome).
  apply Hsome. by vm_compute.
Defined.

(** A frame whose only row has guests that are no number: the row is
    dropped, not kept with a zero, and nothing is left. *)
Example one_bad_row_is_dropped :
  main whole_number insertion_sorter
    {| columns := ["Country"; "G"; "N"]%string;
       rows := [ {[ "Country"%string := Some (Str "Spain");
                    "G"%string := Some (Str "many");
                    "N"%string := Some (Num (Qc_of_Z 2)) ]} ] |}
  = EmptyDatasetError.
Proof. by vm_compute. Qed.

Lemma clean_without_missing nl df c0 c1 c2 :
  columns df = [c0; c1; c2] →
  clean nl (without_missing c0 df) = clean nl df.
Proof.
  intros Hcols.
  assert (rows (clean nl (without_missing c0 df)) = rows (clean nl df)) as Hrows.
  { rewrite (clean_rows nl df c0 c1 c2 Hcols).
    rewrite (clean_rows nl (without_missing c0 df) c0 c1 c2 Hcols).
    simpl. rewrite list_filter_filter. f_equal.
    apply list_filter_iff. unfold valid_row. intros r. tauto. }
  destruct (clean nl (without_missing c0 df)) as [cols1 rows1] eqn:E1.
  destruct (clean nl df) as [cols2 rows2] eqn:E2.
  pose proof (clean_columns nl (without_missing c0 df)) as Hc1.
  pose proof (clean_columns nl df) as Hc2.
  rewrite E1 in Hc1. rewrite E2 in Hc2. simpl in *. congruence.
Qed.

(** C10: the cleaning drops every row of which any of the three cells is
    missing.  Every row that reaches the analysis has a country, and the
    rows without a country count for nothing, whatever their numbers: the
    run is the run on the frame without them. *)
Theorem C10_missing_country nl S df c0 c1 c2 :
  columns df = [c0; c1; c2] →
  Forall (complete_row expected_columns) (rows (clean nl df))
  ∧ Forall (λ r, at_col "Hotel Country Name" r ≠ None) (rows (clean nl df))
  ∧ rows (clean nl df) = rows (clean nl (without_missing c0 df))
  ∧ main nl S df = main nl S (without_missing c0 df).
Proof.
  intros Hcols.
  assert (Forall (complete_row expected_columns) (rows (clean nl df))) as Hall.
  { apply Forall_forall. intros r Hr. unfold clean, dropna in Hr. simpl in Hr.
    by apply list_elem_of_filter in Hr as [? _]. }
  split; [done|]. split.
  { eapply Forall_impl; [exact Hall|]. intros r Hr.
    apply (complete_row_lookup r); [done|]. unfold expected_columns. set_solver. }
  rewrite <-(clean_without_missing nl df c0 c1 c2 Hcols). split; [done|].
  unfold main. simpl columns at 3 4.
  by rewrite (clean_without_missing nl df c0 c1 c2 Hcols).
Qed.

Lemma C10_missing_country_witness :
  columns raw_upload = ["Country"; "G"; "N"]%string ∧
  length (rows raw_upload) = 3%nat ∧
  length (rows (without_missing "Country" raw_upload)) = 2%nat ∧
  main whole_number insertion_sorter raw_upload
  = main whole_number insertion_sorter (without_missing "Country" raw_upload).
Proof.
  split; [reflexivity|]. split; [reflexivity|]. split; [by vm_compute|].
  apply (C10_missing_country whole_number insertion_sorter raw_upload "Country" "G" "N").
  reflexivity.
Defined.

End AppFacts.

(** ** Facts about the text helpers *)
Module TextFacts.
Import Text.

Lemma take_drop_while p s : take_while p s ++ drop_while p s = s.
Proof.
  induction s as [|a s IH]; [done|]. simpl.
  destruct (p a); simpl; [by rewrite IH|done].
Qed.

Lemma Forall_take_while p s : Forall (λ a, p a = true) (take_while p s).
Proof.
  induction s as [|a s IH]; [constructor|]. simpl.
  destruct (p a) eqn:E; by constructor.
Qed.

Lemma stops_drop_while p s : stops p (drop_while p s).
Proof.
  induction s as [|a s IH]; [done|]. simpl.
  destruct (p a) eqn:E; [done|]. by simpl.
Qed.

Lemma take_while_app p l s :
  Forall (λ a, p a = true) l → stops p s → take_while p (l ++ s) = l.
Proof.
  induction 1 as [|a l Ha Hl IH]; intros Hs; simpl.
  - destruct s as [|b s]; [done|]. simpl in *. by rewrite Hs.
  - rewrite Ha. by rewrite IH.
Qed.

Lemma drop_while_app p l s :
  Forall (λ a, p a = true) l → stops p s → drop_while p (l ++ s) = s.
Proof.
  induction 1 as [|a l Ha Hl IH]; intros Hs; simpl.
  - destruct s as [|b s]; [done|]. simpl in *. by rewrite Hs.
  - rewrite Ha. by apply IH.
Qed.

Lemma in_range_spec c r : in_range c r = true ↔ (r.1 ≤ c ≤ r.2)%N.
Proof. unfold in_range. rewrite andb_true_iff, !N.leb_le. done. Qed.

Lemma is_space_spec c :
  is_space c = true ↔ ∃ r, r ∈ space_ranges ∧ (r.1 ≤ c ≤ r.2)%N.
Proof.
  unfold is_space. rewrite existsb_exists. split.
  - intros (r & Hr & Hc). exists r. split; [by apply list_elem_of_In|].
    by apply in_range_spec.
  - intros (r & Hr & Hc). exists r. split; [by apply list_elem_of_In|].
    by apply in_range_spec.
Qed.

Lemma decimal_Some c v :
  decimal c = Some v
  ↔ ∃ z, z ∈ decimal_zeros ∧ (z ≤ c < z + 10)%N ∧ v = Z.of_N (c - z).
Proof.
  unfold decimal. split.
  - destruct (list_find _ _) as [[i z]|] eqn:Hfind; [|done].
    apply list_find_Some in Hfind as (Hi & Hz & _).
    intros [= <-]. exists z. split; [by eapply list_elem_of_lookup_2|done].
  - intros (z & Hz & Hc & ->).
    destruct (list_find (λ z, (z ≤ c < z + 10)%N) decimal_zeros)
      as [[i z']|] eqn:Hfind.
    + apply list_find_Some in Hfind as (Hi & Hz' & _). simpl.
      assert (Forall (λ z1, Forall (λ z2, z1 = z2 ∨ (z1 + 10 ≤ z2 ∨ z2 + 10 ≤ z1)%N)
                              decimal_zeros) decimal_zeros) as Hapart.
      { apply (bool_decide_unpack _). by vm_compute. }
      apply (proj1 (Forall_forall _ _) Hapart z) in Hz.
      apply list_elem_of_lookup_2 in Hi.
      apply (proj1 (Forall_forall _ _) Hz z') in Hi as [->|?]; [done|lia].
    + apply list_find_None in Hfind.
      by apply (proj1 (Forall_forall _ _) Hfind z) in Hz.
Qed.

Lemma is_digit_spec c :
  is_digit c = true ↔ ∃ z, z ∈ decimal_zeros ∧ (z ≤ c < z + 10)%N.
Proof.
  unfold is_digit. split.
  - destruct (decimal c) as [v|] eqn:Hd; [|done]. intros _.
    apply decimal_Some in Hd as (z & Hz & Hc & _). by exists z.
  - intros (z & Hz & Hc).
    by rewrite (proj2 (decimal_Some c _) (ex_intro _ z (conj Hz (conj Hc eq_refl)))).
Qed.

Lemma digit_not_space a : is_digit a = true → is_space a = false.
Proof.
  intros (z & Hz & Hc)%is_digit_spec.
  destruct (is_space a) eqn:Hs; [|done].
  apply is_space_spec in Hs as (r & Hr & Ha).
  assert (Forall (λ z, Forall (λ r, (r.2 < z ∨ z + 10 ≤ r.1)%N) space_ranges)
                 decimal_zeros) as Hapart.
  { apply (bool_decide_unpack _). by vm_compute. }
  apply (proj1 (Forall_forall _ _) Hapart z) in Hz.
  apply (proj1 (Forall_forall _ _) Hz r) in Hr. lia.
Qed.

Lemma space_not_digit a : is_space a = true → is_digit a = false.
Proof.
  intros Hs. destruct (is_digit a) eqn:Hd; [|done].
  apply digit_not_space in Hd. congruence.
Qed.

Lemma stops_run (p q : N → bool) l s :
  (∀ a, q a = true → p a = false) →
  l ≠ [] → Forall (λ a, q a = true) l → stops p (l ++ s).
Proof.
  intros Hpq Hne Hl. destruct l as [|a l]; [done|]. simpl.
  apply Hpq. by apply Forall_cons in Hl as [? _].
Qed.

Lemma nonempty_true {A} (l : list A) : nonempty l = true ↔ l ≠ [].
Proof. by destruct l. Qed.

Lemma forallb_Forall (p : N → bool) l :
  forallb p l = true ↔ Forall (λ a, p a = true) l.
Proof.
  induction l as [|a l IH]; simpl.
  - split; [constructor|done].
  - rewrite andb_true_iff, Forall_cons, IH. done.
Qed.

(** *** Numbers read from digits *)

Lemma digit_value_range a : is_digit a = true → 0 ≤ digit_value a ≤ 9.
Proof.
  unfold is_digit, digit_value.
  destruct (decimal a) as [v|] eqn:Hd; [|done]. intros _.
  apply decimal_Some in Hd as (z & _ & Hc & ->). simpl. lia.
Qed.

Lemma digits_value_range ds :
  Forall (λ a, is_digit a = true) ds →
  0 ≤ digits_value ds < 10 ^ Z.of_nat (length ds).
Proof.
  induction ds as [|d ds IH] using rev_ind; intros Hds.
  - by vm_compute.
  - apply Forall_app in Hds as [Hds Hd]. apply Forall_cons in Hd as [Hd _].
    specialize (IH Hds). apply digit_value_range in Hd.
    unfold digits_value in *. rewrite fold_left_app. simpl.
    rewrite length_app. simpl.
    rewrite Nat2Z.inj_add, Z.pow_add_r by lia.
    change (10 ^ Z.of_nat 1) with 10. lia.
Qed.

Lemma int_Some ds v :
  int ds = Some v ↔ (length ds ≤ int_max_str_digits)%nat ∧ v = digits_value ds.
Proof.
  unfold int. destruct (Nat.leb_spec (length ds) int_max_str_digits).
  - split; [by intros [= <-]|by intros [_ ->]].
  - split; [done|lia].
Qed.

Lemma consume_Some lit s s1 : consume lit s = Some s1 ↔ s = lit ++ s1.
Proof.
  revert s. induction lit as [|c lit IH]; intros s; simpl.
  - split; congruence.
  - destruct s as [|a s]; [done|].
    destruct (N.eqb_spec c a) as [->|Hne].
    + rewrite IH. split; congruence.
    + split; congruence.
Qed.

End TextFacts.

(** ** Facts about pipeline B *)
Module App2Facts.
Import Text Pandas PandasFacts TextFacts App2.

(** *** The week pattern *)

Lemma four_digits_stops p y s :
  (∀ a, is_digit a = true → p a = false) → four_digits y → stops p (y ++ s).
Proof.
  intros Hp [Hlen Hy]. apply (stops_run p is_digit); [done| |done].
  by destruct y.
Qed.

Lemma re_match_week_Some s ds y :
  re_match_week s = Some (ds, y)
  ↔ ∃ ws1 ws2 rest,
      s = code_points "Week" ++ ws1 ++ ds ++ ws2 ++ y ++ rest
      ∧ run_of is_space ws1 ∧ run_of is_digit ds
      ∧ run_of is_space ws2 ∧ four_digits y.
Proof.
  unfold re_match_week, run_of, four_digits. split.
  - destruct (consume _ s) as [s1|] eqn:Hs; [|done].
    apply consume_Some in Hs.
    destruct (_ && _) eqn:Hguard; [|done]. intros [= <- <-].
    repeat (apply andb_true_iff in Hguard as [Hguard ?]).
    exists (take_while is_space s1),
           (take_while is_space (drop_while is_digit (drop_while is_space s1))),
           (drop 4 (drop_while is_space (drop_while is_digit (drop_while is_space s1)))).
    split; [by rewrite take_drop, !take_drop_while|].
    split; [split; [by apply nonempty_true|apply Forall_take_while]|].
    split; [split; [by apply nonempty_true|apply Forall_take_while]|].
    split; [split; [by apply nonempty_true|apply Forall_take_while]|].
    split; [by apply Nat.eqb_eq|by apply forallb_Forall].
  - intros (ws1 & ws2 & rest & -> & [Hne1 Hws1] & [Hned Hds] & [Hne2 Hws2] & [Hlen Hy]).
    rewrite (proj2 (consume_Some _ _ _) eq_refl).
    assert (stops is_space (ds ++ ws2 ++ y ++ rest)) as Hs1
      by (apply (stops_run _ is_digit); auto using digit_not_space).
    assert (stops is_digit (ws2 ++ y ++ rest)) as Hs2
      by (apply (stops_run _ is_space); auto using space_not_digit).
    assert (stops is_space (y ++ rest)) as Hs3
      by (apply four_digits_stops; [apply digit_not_space|done]).
    rewrite !(take_while_app is_space ws1), !(drop_while_app is_space ws1) by done.
    rewrite !(take_while_app is_digit ds), !(drop_while_app is_digit ds) by done.
    rewrite !(take_while_app is_space ws2), !(drop_while_app is_space ws2) by done.
    rewrite take_app_length' by done.
    rewrite (proj2 (nonempty_true ws1)), (proj2 (nonempty_true ds)),
      (proj2 (nonempty_true ws2)), Hlen, (proj2 (forallb_Forall _ y)) by done.
    done.
Qed.

Lemma digits_value_four y : four_digits y → 0 ≤ digits_value y ≤ 9999.
Proof.
  intros [Hlen Hy]. apply digits_value_range in Hy. rewrite Hlen in Hy.
  change (10 ^ Z.of_nat 4) with 10000 in Hy. lia.
Qed.

Lemma int_four_digits y : four_digits y → int y = Some (digits_value y).
Proof.
  intros [Hlen _]. apply int_Some. split; [|done].
  rewrite Hlen. unfold int_max_str_digits. lia.
Qed.

Lemma digits_value_nonneg ds : Forall (λ a, is_digit a = true) ds → 0 ≤ digits_value ds.
Proof. intros Hds. apply digits_value_range in Hds. lia. Qed.

(** *** The day of a week label *)

(** The day [to_datetime_week] computes is the day the calendar gives. *)
Lemma week_instant_unique year week_num d :
  0 ≤ week_num →
  week_instant year week_num d
  ↔ d = (let julian := calc_julian_from_W year week_num 0 in
         if julian =? -1 then ordinal_jan1 year
         else ordinal_jan1 year + julian - 1).
Proof.
  intros Hw. unfold week_instant, calc_julian_from_W. cbv zeta.
  generalize (ordinal_jan1 year). intros o. unfold weekday.
  destruct (decide (week_num = 0)) as [->|Hne].
  - change (0 =? 0) with true. cbv iota.
    destruct (decide ((o + 6) mod 7 = 2)) as [H2|H2].
    + rewrite H2. by change (1 + 0 - 2 =? -1) with true.
    + destruct (Z.eqb_spec (1 + 0 - (o + 6) mod 7) (-1)) as [Heq|Hneq]; [lia|].
      split; [intros [Hd Hr]|intros ->]; Z.div_mod_to_equations; lia.
  - destruct (Z.eqb_spec week_num 0) as [?|_]; [done|].
    destruct (Z.eqb_spec (1 + ((7 - (o + 6) mod 7) mod 7 + 7 * (week_num - 1)) + 0)
                (-1)) as [Heq|Hneq].
    { exfalso. Z.div_mod_to_equations. lia. }
    split.
    + intros (Hd & fm & Hfm & Hr & ->). Z.div_mod_to_equations. lia.
    + intros ->. split; [Z.div_mod_to_equations; lia|].
      exists (o + (7 - (o + 6) mod 7) mod 7).
      split; [Z.div_mod_to_equations; lia|].
      split; [Z.div_mod_to_equations; lia|lia].
Qed.

(** [parse_week] resolves exactly the text that, stripped, begins with the
    week pattern, when the week is at most 53, the year at least 1000 and
    the day within the bounds of a timestamp. *)
Lemma parse_week_Some ib label d :
  parse_week ib label = Some (Date d)
  ↔ ∃ s week_num year,
      label = Some (Str s)
      ∧ week_prefix (strip (code_points s)) week_num year
      ∧ week_num ≤ 53 ∧ 1000 ≤ year
      ∧ week_instant year week_num d
      ∧ ib d = true.
Proof.
  unfold parse_week, week_prefix. split.
  - destruct label as [[s| |]|]; try done.
    destruct (re_match_week _) as [[g1 g2]|] eqn:Hm; [|done].
    apply re_match_week_Some in Hm
      as (ws1 & ws2 & rest & Hs & Hws1 & Hds & Hws2 & Hy).
    destruct (int g1) as [w|] eqn:Hw; [|done].
    destruct (int g2) as [y|] eqn:Hyear; [|done].
    apply int_Some in Hw as [Hlen ->]. apply int_Some in Hyear as [_ ->].
    unfold to_datetime_week.
    destruct (_ && _) eqn:Hguard; [|done].
    destruct (ib _) eqn:Hib; [|done]. intros [= <-].
    repeat (apply andb_true_iff in Hguard as [Hguard ?]).
    exists s, (digits_value g1), (digits_value g2). split; [done|]. split.
    { exists ws1, g1, ws2, g2, rest. done. }
    split; [lia|]. split; [lia|]. split; [|done].
    apply week_instant_unique; [lia|done].
  - intros (s & w & y & -> & (ws1 & ds & ws2 & g & rest & Hs & Hws1 & Hds & Hws2 & Hy
                              & Hlen & -> & ->)
              & Hw & Hyear & Hd & Hib).
    rewrite (proj2 (re_match_week_Some _ ds g)) by (by exists ws1, ws2, rest).
    rewrite (proj2 (int_Some ds _) (conj Hlen eq_refl)), (int_four_digits g Hy).
    pose proof (digits_value_four g Hy). pose proof (digits_value_nonneg ds (proj2 Hds)).
    apply week_instant_unique in Hd; [|done]. cbv zeta in Hd.
    unfold to_datetime_week. cbv zeta. rewrite <-Hd.
    replace (_ && _) with true; [by rewrite Hib|].
    symmetry. rewrite !andb_true_iff. repeat split; lia.
Qed.

(** [parse_week] never yields anything but an instant or NaT. *)
Lemma parse_week_total ib label :
  parse_week ib label = None ∨ ∃ d, parse_week ib label = Some (Date d).
Proof.
  unfold parse_week. destruct label as [[s| |]|]; auto.
  destruct (re_match_week _) as [[g1 g2]|]; auto.
  destruct (int g1); auto. destruct (int g2); auto.
  destruct (to_datetime_week _ _ _); eauto.
Qed.

(** *** The month format *)

Lemma NoDup_month_abbr : NoDup month_abbr.
Proof. apply (bool_decide_unpack (NoDup month_abbr)). by vm_compute. Qed.

Lemma month_abbr_length i abbr name :
  month_abbr !! i = Some abbr → code_points abbr = to_lower <$> name →
  length name = 3%nat.
Proof.
  intros Hi Hname.
  assert (Forall (λ n, length (code_points n) = 3%nat) month_abbr) as Hall
    by (repeat constructor).
  apply (Forall_lookup_1 _ _ _ _ Hall) in Hi.
  by rewrite Hname, length_fmap in Hi.
Qed.

Lemma code_points_month_abbr i j a b :
  month_abbr !! i = Some a → month_abbr !! j = Some b →
  code_points a = code_points b → i = j.
Proof.
  intros Hi Hj Hab.
  assert (NoDup (code_points <$> month_abbr)) as Hnd.
  { apply (bool_decide_unpack _). by vm_compute. }
  apply (NoDup_lookup _ i j (code_points a) Hnd).
  - by rewrite list_lookup_fmap, Hi.
  - by rewrite list_lookup_fmap, Hj, Hab.
Qed.

Lemma month_number_Some name m :
  month_number name = Some m
  ↔ ∃ i abbr, month_abbr !! i = Some abbr
       ∧ code_points abbr = to_lower <$> name
       ∧ m = Z.of_nat (S i).
Proof.
  unfold month_number. split.
  - destruct (list_find _ _) as [[i n]|] eqn:Hfind; [|done].
    apply list_find_Some in Hfind as (Hi & Hn & _).
    intros [= <-]. by exists i, n.
  - intros (i & abbr & Hi & Hname & ->).
    assert (list_find (λ n, code_points n = to_lower <$> name) month_abbr
            = Some (i, abbr)) as ->; [|done].
    apply list_find_Some. split; [done|]. split; [done|].
    intros j n Hj Hlt Hn.
    assert (j = i) by (apply (code_points_month_abbr j i n abbr); congruence).
    lia.
Qed.

Lemma match_month_Some s m y :
  match_month s = Some (m, y)
  ↔ ∃ name ws i abbr,
      s = name ++ ws ++ y
      ∧ month_abbr !! i = Some abbr
      ∧ code_points abbr = to_lower <$> name
      ∧ m = Z.of_nat (S i)
      ∧ run_of is_space ws ∧ four_digits y.
Proof.
  unfold match_month, run_of, four_digits. split.
  - destruct (month_number _) as [m'|] eqn:Hm; [|done].
    apply month_number_Some in Hm as (i & abbr & Hi & Hname & ->).
    destruct (_ && _) eqn:Hguard; [|done]. intros [= <- <-].
    repeat (apply andb_true_iff in Hguard as [Hguard ?]).
    exists (take 3 s), (take_while is_space (drop 3 s)), i, abbr.
    split; [by rewrite take_drop_while, take_drop|].
    split; [done|]. split; [done|]. split; [done|].
    split; [split; [by apply nonempty_true|apply Forall_take_while]|].
    split; [by apply Nat.eqb_eq|by apply forallb_Forall].
  - intros (name & ws & i & abbr & -> & Hi & Hname & -> & [Hne Hws] & [Hlen Hy]).
    assert (length name = 3%nat) as Hlname
      by (by apply (month_abbr_length i abbr)).
    assert (stops is_space (y ++ [])) as Hstop
      by (apply four_digits_stops; [apply digit_not_space|done]).
    rewrite app_nil_r in Hstop.
    rewrite take_app_length', drop_app_length' by done.
    rewrite (proj2 (month_number_Some name _)) by (by exists i, abbr).
    rewrite take_while_app, drop_while_app by done.
    by rewrite (proj2 (nonempty_true ws)), Hlen, (proj2 (forallb_Forall _ y)).
Qed.

(** [pd.to_datetime] with ['%b %Y'] resolves exactly the text that is a month
    label of a year from 1 on whose first day is within the bounds of a
    timestamp; a timestamp stays what it is. *)
Lemma to_datetime_month_Some ib label d :
  to_datetime_month ib label = Some (Date d)
  ↔ label = Some (Date d)
    ∨ ∃ s month year,
        label = Some (Str s)
        ∧ month_label (code_points s) month year
        ∧ 1 ≤ year
        ∧ d = first_of_month year month
        ∧ ib d = true.
Proof.
  unfold to_datetime_month, month_label, first_of_month. split.
  - destruct label as [[s|q|d']|]; try done; [|intros [= ->]; by left].
    destruct (match_month _) as [[m g]|] eqn:Hm; [|done].
    apply match_month_Some in Hm as (name & ws & i & abbr & Hs & Hi & Hname & -> & Hws & Hy).
    rewrite (int_four_digits g Hy).
    destruct (_ && _) eqn:Hguard; [|done]. intros [= <-].
    apply andb_true_iff in Hguard as [Hyear Hib].
    right. exists s, (Z.of_nat (S i)), (digits_value g). split; [done|]. split.
    { by exists name, ws, g, i, abbr. }
    repeat split; try done; lia.
  - intros [->|(s & m & y & -> & (name & ws & g & i & abbr & Hs & Hi & Hname & -> & Hws & Hy & ->)
              & Hyear & -> & Hib)]; [done|].
    rewrite (proj2 (match_month_Some _ (Z.of_nat (S i)) g))
      by (by exists name, ws, i, abbr).
    rewrite (int_four_digits g Hy), Hib.
    by replace (1 <=? digits_value g) with true by (symmetry; lia).
Qed.

Lemma to_datetime_month_total ib label :
  to_datetime_month ib label = None
  ∨ ∃ d, to_datetime_month ib label = Some (Date d).
Proof.
  unfold to_datetime_month. destruct label as [[s| |]|]; eauto.
  destruct (match_month _) as [[m g]|]; auto.
  destruct (int g); auto.
  destruct (_ && _); eauto.
Qed.

(** *** Counting the cells of the pivot *)

Section pivot.

Variable tc : string.
Implicit Types (rs : list row) (l s : scalar).

Abbreviation keys rs := (omap (pair_key tc "Booking Status") rs).

Lemma pair_key_Some r l s :
  pair_key tc "Booking Status" r = Some (l, s)
  ↔ at_col tc r = Some l ∧ at_col "Booking Status" r = Some s.
Proof.
  unfold pair_key.
  destruct (at_col tc r) as [l'|], (at_col "Booking Status" r) as [s'|];
    simpl; split; try done; try (by intros [? ?]).
  - by intros [= -> ->].
  - by intros [[= ->] [= ->]].
Qed.

Lemma count_keys rs l s :
  length (filter (λ k, k = (l, s)) (keys rs)) = bookings tc rs l s.
Proof.
  unfold bookings. induction rs as [|r rs IH]; [done|].
  rewrite filter_cons. simpl.
  destruct (pair_key tc "Booking Status" r) as [k|] eqn:E.
  - rewrite filter_cons. destruct (decide (k = (l, s))) as [->|Hne].
    + apply pair_key_Some in E. rewrite decide_True by done.
      simpl. f_equal. exact IH.
    + rewrite decide_False; [exact IH|].
      intros H. apply pair_key_Some in H. congruence.
  - rewrite decide_False; [exact IH|].
    intros H. apply pair_key_Some in H. congruence.
Qed.

Lemma elem_of_keys rs l s :
  (l, s) ∈ keys rs
  ↔ ∃ r, r ∈ rs ∧ at_col tc r = Some l ∧ at_col "Booking Status" r = Some s.
Proof.
  rewrite list_elem_of_omap.
  split; intros (r & Hr & H); exists r; split; try done; by apply pair_key_Some.
Qed.

Lemma bookings_absent rs l s : (l, s) ∉ keys rs → bookings tc rs l s = 0%nat.
Proof.
  intros Hnot. rewrite <-count_keys.
  destruct (filter _ _) as [|k ks] eqn:E; [done|].
  assert (k ∈ filter (λ k, k = (l, s)) (keys rs)) as Hk by (rewrite E; left).
  apply list_elem_of_filter in Hk as [-> Hk]. done.
Qed.

Lemma bookings_perm rs rs' l s : rs ≡ₚ rs' → bookings tc rs l s = bookings tc rs' l s.
Proof. intros Hp. unfold bookings. by rewrite Hp. Qed.

Lemma assoc_tabulate {K V} `{EqDecision K} (f : K → V) (ks : list K) k :
  assoc k ((λ k, (k, f k)) <$> ks) = if decide (k ∈ ks) then Some (f k) else None.
Proof.
  induction ks as [|k' ks IH]; [done|].
  rewrite fmap_cons. simpl. destruct (decide (k = k')) as [->|Hne].
  - rewrite decide_True by left. done.
  - rewrite IH. destruct (decide (k ∈ ks)).
    + rewrite decide_True by (by right). done.
    + rewrite decide_False; [done|]. rewrite elem_of_cons. by intros [?|?].
Qed.

Lemma elem_of_summary_keys rs k :
  k ∈ merge_sort pair_le (remove_dups (keys rs)) ↔ k ∈ keys rs.
Proof. by rewrite merge_sort_Permutation, elem_of_remove_dups. Qed.

(** A cell of the filled pivot is the number of records of its label and
    status, nought when there is none. *)
Lemma cell_value rs l s :
  default 0 (Z.of_nat <$> assoc (l, s) (summary_of tc "Booking Status" rs))
  = Z.of_nat (bookings tc rs l s).
Proof.
  unfold summary_of. rewrite (assoc_tabulate _ _ (l, s)).
  destruct (decide _) as [Hin|Hnot]; simpl.
  - by rewrite count_keys.
  - rewrite elem_of_summary_keys in Hnot. by rewrite bookings_absent.
Qed.

Lemma summary_labels rs l :
  l ∈ (λ e, e.1.1) <$> summary_of tc "Booking Status" rs ↔ ∃ s, (l, s) ∈ keys rs.
Proof.
  unfold summary_of. rewrite <-list_fmap_compose, list_elem_of_fmap. split.
  - intros ([l' s] & -> & Hk). apply elem_of_summary_keys in Hk. by exists s.
  - intros (s & Hk). exists (l, s). split; [done|]. by apply elem_of_summary_keys.
Qed.

Lemma summary_statuses rs s :
  s ∈ (λ e, e.1.2) <$> summary_of tc "Booking Status" rs ↔ ∃ l, (l, s) ∈ keys rs.
Proof.
  unfold summary_of. rewrite <-list_fmap_compose, list_elem_of_fmap. split.
  - intros ([l s'] & -> & Hk). apply elem_of_summary_keys in Hk. by exists l.
  - intros (l & Hk). exists (l, s). split; [done|]. by apply elem_of_summary_keys.
Qed.

Lemma pivot_fillna_rows rs :
  let pt := pivot_fillna (summary_of tc "Booking Status" rs) in
  prows pt
  = (λ l, (Some l, (λ s, Z.of_nat (bookings tc rs l s)) <$> pcolumns pt))
      <$> unique_sorted ((λ e, e.1.1) <$> summary_of tc "Booking Status" rs).
Proof.
  simpl. apply list_fmap_ext. intros _ l _. f_equal.
  apply list_fmap_ext. intros _ s _. apply cell_value.
Qed.

Lemma elem_of_pivot_columns rs s :
  s ∈ pcolumns (pivot_fillna (summary_of tc "Booking Status" rs))
  ↔ ∃ r, r ∈ rs ∧ at_col "Booking Status" r = Some s ∧ at_col tc r ≠ None.
Proof.
  simpl. rewrite elem_of_unique_sorted, summary_statuses. split.
  - intros (l & Hk). apply elem_of_keys in Hk as (r & Hr & Hl & Hs).
    exists r. by rewrite Hl.
  - intros (r & Hr & Hs & Hl). destruct (at_col tc r) as [l|] eqn:E; [|done].
    exists l. apply elem_of_keys. by exists r.
Qed.

Lemma assoc_labelled {V} (g : scalar → V) (ls : list scalar) (p : cell) :
  assoc p ((λ l, (Some l, g l)) <$> ls)
  = match p with
    | Some l => if decide (l ∈ ls) then Some (g l) else None
    | None => None
    end.
Proof.
  induction ls as [|l' ls IH]; [by destruct p|].
  rewrite fmap_cons. simpl. destruct (decide (p = Some l')) as [->|Hne].
  - rewrite decide_True by left. done.
  - rewrite IH. destruct p as [l|]; [|done].
    destruct (decide (l ∈ ls)).
    + rewrite decide_True by (by right). done.
    + rewrite decide_False; [done|]. rewrite elem_of_cons. intros [->|?]; done.
Qed.

(** A row of the reindexed pivot: the counts of its label under every
    status column. *)
Lemma reindex_row rs l :
  let pt := pivot_fillna (summary_of tc "Booking Status" rs) in
  default (replicate (length (pcolumns pt)) 0) (assoc (Some l) (prows pt))
  = (λ s, Z.of_nat (bookings tc rs l s)) <$> pcolumns pt.
Proof.
  intros pt. unfold pt at 2. rewrite pivot_fillna_rows. fold pt.
  rewrite (assoc_labelled _ _ (Some l)).
  destruct (decide _) as [Hin|Hnot]; [reflexivity|].
  rewrite elem_of_unique_sorted, summary_labels in Hnot.
  change (replicate (length (pcolumns pt)) 0
          = (λ s, Z.of_nat (bookings tc rs l s)) <$> pcolumns pt).
  induction (pcolumns pt) as [|s cols IH]; [done|].
  simpl. rewrite IH. f_equal.
  rewrite bookings_absent; [done|]. intros Hk. apply Hnot. by exists s.
Qed.

End pivot.

(** *** First occurrences *)

Section drop_duplicates.

Context {A K : Type} `{EqDecision K} (key : A → K).
Implicit Types (l : list A) (seen : list K).

Lemma drop_duplicates_from_keys seen l k :
  k ∈ key <$> drop_duplicates_from key seen l ↔ k ∈ key <$> l ∧ k ∉ seen.
Proof.
  revert seen. induction l as [|x l IH]; intros seen; cbn [drop_duplicates_from].
  - rewrite fmap_nil. split; [by intros ?%elem_of_nil|by intros [?%elem_of_nil _]].
  - destruct (decide (key x ∈ seen)) as [Hin|Hnot].
    + rewrite IH, fmap_cons, elem_of_cons. split; [tauto|].
      intros [[->|?] ?]; [done|tauto].
    + rewrite !fmap_cons, !elem_of_cons, IH, not_elem_of_cons.
      split; [intros [->|(? & ? & ?)]; tauto|].
      intros [[->|?] ?]; [by left|].
      destruct (decide (k = key x)); [by left|right; tauto].
Qed.

Lemma NoDup_drop_duplicates_from seen l :
  NoDup (key <$> drop_duplicates_from key seen l).
Proof.
  revert seen. induction l as [|x l IH]; intros seen; cbn [drop_duplicates_from];
    [constructor|].
  destruct (decide (key x ∈ seen)); [apply IH|].
  rewrite fmap_cons. constructor; [|apply IH].
  rewrite drop_duplicates_from_keys, not_elem_of_cons. tauto.
Qed.

Lemma elem_of_drop_duplicates_from seen l x :
  x ∈ drop_duplicates_from key seen l → x ∈ l.
Proof.
  revert seen. induction l as [|y l IH]; intros seen; simpl; [done|].
  destruct (decide (key y ∈ seen)).
  - intros ?%IH. by right.
  - intros [->|?%IH]%elem_of_cons; [by left|by right].
Qed.

Lemma drop_duplicates_keys l k :
  k ∈ key <$> drop_duplicates key l ↔ k ∈ key <$> l.
Proof.
  unfold drop_duplicates. rewrite drop_duplicates_from_keys.
  split; [tauto|]. intros ?. split; [done|]. apply not_elem_of_nil.
Qed.

End drop_duplicates.

(** *** The frame after the assignment *)

Lemma time_column_of_ne tp : time_column_of tp ≠ "Time_Date"%string.
Proof. unfold time_column_of. by destruct (String.eqb tp "Week"). Qed.

Lemma assign_time_date_run ib tp df :
  assign_time_date ib tp df
  = if decide (time_column_of tp ∈ columns df)
    then (Ok tt, with_time_date ib tp df)
    else (Raise (KeyError (time_column_of tp)), df).
Proof.
  unfold assign_time_date, with_time_date, parser, setitem_apply.
  destruct (String.eqb tp "Week"); by destruct (decide _).
Qed.

Lemma columns_with_time_date ib tp df c :
  c ≠ "Time_Date"%string →
  c ∈ columns (with_time_date ib tp df) ↔ c ∈ columns df.
Proof.
  intros Hne. unfold with_time_date, assign. simpl.
  destruct (decide _); [done|]. rewrite elem_of_app, list_elem_of_singleton. tauto.
Qed.

Lemma time_date_in_columns ib tp df :
  "Time_Date"%string ∈ columns (with_time_date ib tp df).
Proof.
  unfold with_time_date, assign. simpl.
  destruct (decide _); [done|]. rewrite elem_of_app, list_elem_of_singleton. tauto.
Qed.

(** The assignment touches no other column. *)
Lemma at_col_with_time_date ib tp df c :
  c ≠ "Time_Date"%string →
  at_col c <$> rows (with_time_date ib tp df) = at_col c <$> rows df.
Proof.
  intros Hne. unfold with_time_date, assign. simpl.
  rewrite <-list_fmap_compose. apply list_fmap_ext. intros _ r _. simpl.
  by apply at_col_insert_ne.
Qed.

(** In every row the new cell is the parsed label of the row. *)
Lemma rows_with_time_date ib tp df r :
  r ∈ rows (with_time_date ib tp df) →
  at_col "Time_Date" r = parser ib tp (at_col (time_column_of tp) r).
Proof.
  unfold with_time_date, assign. simpl.
  intros (r0 & -> & _)%list_elem_of_fmap.
  rewrite at_col_insert_eq, at_col_insert_ne
    by apply time_column_of_ne.
  done.
Qed.

(** Writing the column a second time changes nothing. *)
Lemma with_time_date_idem ib tp df :
  with_time_date ib tp (with_time_date ib tp df) = with_time_date ib tp df.
Proof.
  unfold with_time_date at 1. unfold assign.
  rewrite decide_True by apply time_date_in_columns.
  unfold with_time_date, assign. simpl.
  rewrite <-list_fmap_compose. f_equal. apply list_fmap_ext. intros _ r _. simpl.
  rewrite insert_insert_eq.
  by rewrite at_col_insert_ne by apply time_column_of_ne.
Qed.

Lemma elem_of_parsed ib tp df r :
  r ∈ parsed ib tp df
  ↔ r ∈ rows (with_time_date ib tp df)
    ∧ parser ib tp (at_col (time_column_of tp) r) ≠ None.
Proof.
  unfold parsed, dropna_subset. simpl. rewrite list_elem_of_filter.
  split; intros [H1 H2]; split; try done.
  - by rewrite <-(rows_with_time_date ib tp df r).
  - by rewrite (rows_with_time_date ib tp df r).
Qed.

Lemma parser_total ib tp label :
  parser ib tp label = None ∨ ∃ d, parser ib tp label = Some (Date d).
Proof.
  unfold parser. destruct (String.eqb tp "Week");
    [apply parse_week_total|apply to_datetime_month_total].
Qed.

Lemma parser_None ib tp : parser ib tp None = None.
Proof. unfold parser. by destruct (String.eqb tp "Week"). Qed.

(** A record that remains has a label, and its ordering key is the instant
    of that label. *)
Lemma parsed_row ib tp df r :
  r ∈ parsed ib tp df →
  at_col (time_column_of tp) r ≠ None
  ∧ time_date r = instant ib tp (at_col (time_column_of tp) r).
Proof.
  intros Hr. apply elem_of_parsed in Hr as [Hr Hp]. split.
  - intros Hnone. by rewrite Hnone, parser_None in Hp.
  - unfold time_date, instant. by rewrite (rows_with_time_date ib tp df r).
Qed.

(** *** [process_data], step by step *)

Lemma empty_dropna_subset df :
  columns df ≠ [] →
  empty (dropna_subset "Time_Date" df)
  = match rows (dropna_subset "Time_Date" df) with [] => true | _ => false end.
Proof. unfold empty. simpl. by destruct (columns df). Qed.

Lemma pivot_fillna_nil summary :
  pivot_empty (pivot_fillna summary) = true → summary = [].
Proof.
  destruct summary as [|e summary]; [done|]. intros Hempty. exfalso.
  unfold pivot_empty, pivot_fillna in Hempty. cbn [pcolumns prows] in Hempty.
  set (cols := unique_sorted ((λ e, e.1.2) <$> e :: summary)) in *.
  set (idx := unique_sorted ((λ e, e.1.1) <$> e :: summary)) in *.
  assert (e.1.2 ∈ cols) as Hc by (apply elem_of_unique_sorted; left).
  assert (e.1.1 ∈ idx) as Hi by (apply elem_of_unique_sorted; left).
  destruct cols; [by apply elem_of_nil in Hc|].
  destruct idx; [by apply elem_of_nil in Hi|].
  done.
Qed.

(** The result of [build_pivot] on a frame that has the columns. *)
Lemma build_pivot_run S tp df :
  time_column_of tp ∈ columns df → "Booking Status"%string ∈ columns df →
  let tc := time_column_of tp in
  let df2 := dropna_subset "Time_Date" df in
  let pt0 := pivot_fillna (summary_of tc "Booking Status" (rows (sort_by_time S df2))) in
  build_pivot S tp df
  = (Ok (if empty df2 then (empty_pivot, df2, tc)
         else (if pivot_empty pt0 then pt0
               else reindex
                      (at_col tc <$> rows (sort_by_time S
                                             (drop_duplicates_subset tc (sort_by_time S df2))))
                      0 pt0,
               sort_by_time S df2, tc)),
     df).
Proof.
  intros Htc Hst tc df2 pt0. unfold build_pivot.
  unfold mbind, mret, Py_bind, Py_ret, bind, ret, get, lift. fold tc df2.
  destruct (empty df2); [done|].
  unfold groupby_size. simpl columns. by rewrite !decide_True by done.
Qed.

Lemma process_data_run S ib tp df :
  Forall (λ c, c ∈ columns df) required_columns →
  process_data S ib tp df = build_pivot S tp (with_time_date ib tp df)
  ∧ time_column_of tp ∈ columns (with_time_date ib tp df)
  ∧ "Booking Status"%string ∈ columns (with_time_date ib tp df).
Proof.
  intros Hcols. unfold required_columns in Hcols.
  apply Forall_cons in Hcols as [Hw Hcols].
  apply Forall_cons in Hcols as [Hm Hcols].
  apply Forall_cons in Hcols as [Hs _].
  assert (time_column_of tp ∈ columns df) as Htc
    by (unfold time_column_of; by destruct (String.eqb tp "Week")).
  split; [|split].
  - unfold process_data, mbind, Py_bind, bind.
    by rewrite assign_time_date_run, decide_True.
  - by apply columns_with_time_date; [apply time_column_of_ne|].
  - by apply columns_with_time_date.
Qed.

Lemma counted_pivot_fillna tc rs :
  counted tc rs (pivot_fillna (summary_of tc "Booking Status" rs)).
Proof.
  unfold counted. rewrite pivot_fillna_rows.
  apply Forall_fmap, Forall_forall. intros l _. by exists l.
Qed.

Lemma counted_reindex tc rs ps :
  Forall (λ p, p ≠ None) ps →
  counted tc rs (reindex ps 0 (pivot_fillna (summary_of tc "Booking Status" rs))).
Proof.
  intros Hps. unfold counted, reindex. cbn [prows pcolumns].
  apply Forall_fmap. eapply Forall_impl; [exact Hps|].
  intros [l|] Hl; [|done]. exists l. split; [done|]. apply reindex_row.
Qed.

Lemma counted_perm tc rs rs' pt : rs ≡ₚ rs' → counted tc rs pt → counted tc rs' pt.
Proof.
  intros Hp Hc. unfold counted in *. eapply Forall_impl; [exact Hc|].
  intros pr (l & Hl & Hrow). exists l. split; [done|]. rewrite Hrow.
  apply list_fmap_ext. intros _ s _. by rewrite (bookings_perm tc rs rs').
Qed.

Lemma Sorted_fmap_elem_of {A B} (R1 : relation A) (R2 : relation B) (f : A → B) l :
  (∀ x y, x ∈ l → y ∈ l → R1 x y → R2 (f x) (f y)) →
  Sorted R1 l → Sorted R2 (f <$> l).
Proof.
  intros Hf Hl. induction Hl as [|x l Hl IH Hhd]; [constructor|].
  rewrite fmap_cons. constructor.
  - apply IH. intros y z Hy Hz. apply Hf; by right.
  - destruct Hhd as [|y l' Hxy]; [constructor|].
    rewrite fmap_cons. constructor. apply Hf; [left|right; left|done].
Qed.

Lemma counted_grid tc rs pt :
  counted tc rs pt →
  Forall (λ pr, length pr.2 = length (pcolumns pt) ∧ Forall (λ v, 0 ≤ v) pr.2)
         (prows pt).
Proof.
  intros Hc. eapply Forall_impl; [exact Hc|].
  intros [p row] (l & _ & Hrow). simpl in *. subst row.
  split; [by rewrite length_fmap|].
  apply Forall_fmap, Forall_forall. intros s _. simpl. lia.
Qed.

Lemma index_reindex ps v pt : index (reindex ps v pt) = ps.
Proof.
  unfold index, reindex. cbn [prows]. rewrite <-list_fmap_compose.
  induction ps as [|p ps IH]; [done|]. rewrite fmap_cons. by f_equal.
Qed.

(** C2, as the code has it: with the three columns present [process_data]
    returns; every row of the pivot carries, under every status column,
    the number of parsed records with its label and that status, so the
    grid is full, no cell is negative, and a combination that does not
    occur reads 0; the status columns are the statuses that occur; the
    labels are those of the parsed records, each once, and their instants
    never decrease down the rows.  The order among labels of one instant
    is left to [sort_values]. *)
Theorem C2_pivot S ib tp df :
  Forall (λ c, c ∈ columns df) required_columns →
  ∃ pt dfs,
    process_data S ib tp df
    = (Ok (pt, dfs, time_column_of tp), with_time_date ib tp df)
    ∧ rows dfs ≡ₚ parsed ib tp df
    ∧ counted (time_column_of tp) (parsed ib tp df) pt
    ∧ Forall (λ pr, length pr.2 = length (pcolumns pt) ∧ Forall (λ v, 0 ≤ v) pr.2)
             (prows pt)
    ∧ (∀ s, s ∈ pcolumns pt
            ↔ ∃ r, r ∈ parsed ib tp df ∧ at_col "Booking Status" r = Some s)
    ∧ NoDup (index pt)
    ∧ (pivot_empty pt = false →
       ∀ p, p ∈ index pt
            ↔ ∃ r, r ∈ parsed ib tp df ∧ at_col (time_column_of tp) r = p)
    ∧ Sorted (λ p q, instant ib tp p ≤ instant ib tp q) (index pt).
Proof.
  intros Hcols.
  destruct (process_data_run S ib tp df Hcols) as (Hrun & Htc & Hst).
  rewrite Hrun, build_pivot_run by done. clear Hrun.
  rewrite empty_dropna_subset by (intros Hnil; rewrite Hnil in Htc; by apply elem_of_nil in Htc).
  change (rows (dropna_subset "Time_Date" (with_time_date ib tp df)))
    with (parsed ib tp df).
  set (tc := time_column_of tp).
  pose proof (parsed_row ib tp df) as Hlab. fold tc in Hlab.
  destruct (parsed ib tp df) as [|r0 rs0] eqn:Hparsed.
  { eexists _, _. split; [reflexivity|]. simpl.
    split; [by change (parsed ib tp df ≡ₚ []); rewrite Hparsed|].
    repeat split; try constructor; try done.
    - by intros ?%elem_of_nil.
    - by intros (r & ?%elem_of_nil & _). }
  rewrite <-Hparsed in *. clear r0 rs0 Hparsed.
  set (rs := rows (sort_by_time S (dropna_subset "Time_Date" (with_time_date ib tp df)))).
  assert (rs ≡ₚ parsed ib tp df) as Hperm by apply (sort_values_perm S).
  set (pt0 := pivot_fillna (summary_of tc "Booking Status" rs)).
  assert (∀ s, s ∈ pcolumns pt0
               ↔ ∃ r, r ∈ parsed ib tp df ∧ at_col "Booking Status" r = Some s)
    as Hstat.
  { intros s. unfold pt0. rewrite elem_of_pivot_columns. split.
    - intros (r & Hr & Hs & _). exists r. by rewrite <-Hperm.
    - intros (r & Hr & Hs). exists r. rewrite Hperm. split; [done|].
      split; [done|]. by apply Hlab. }
  destruct (pivot_empty pt0) eqn:Hpe.
  - assert (pt0 = empty_pivot) as Hnil
      by (unfold pt0; by rewrite (pivot_fillna_nil _ Hpe)).
    eexists _, _. split; [reflexivity|]. split; [done|].
    split; [apply (counted_perm tc rs); [done|apply counted_pivot_fillna]|].
    split; [apply (counted_grid tc rs), counted_pivot_fillna|].
    split; [done|]. rewrite Hnil.
    split; [constructor|]. split; [done|constructor].
  - set (ts := sort_values S true time_date (drop_duplicates (at_col tc) rs)).
    assert (ts ≡ₚ drop_duplicates (at_col tc) rs) as Hts
      by apply (sort_values_perm S).
    assert (∀ r, r ∈ ts → r ∈ parsed ib tp df) as Hsub.
    { intros r Hr. rewrite Hts in Hr.
      apply elem_of_drop_duplicates_from in Hr. by rewrite <-Hperm. }
    assert (Forall (λ p, p ≠ None) (at_col tc <$> ts)) as Hsome.
    { apply Forall_fmap, Forall_forall. intros r Hr. by apply Hlab, Hsub. }
    eexists _, _. split; [reflexivity|]. split; [done|].
    change (rows (sort_by_time S (drop_duplicates_subset tc
              (sort_by_time S (dropna_subset "Time_Date" (with_time_date ib tp df))))))
      with ts.
    split; [apply (counted_perm tc rs); [done|by apply counted_reindex]|].
    split; [by apply (counted_grid tc rs), counted_reindex|].
    split; [done|]. rewrite index_reindex.
    split; [rewrite Hts; apply NoDup_drop_duplicates_from|].
    split.
    + intros _ p. rewrite Hts, drop_duplicates_keys, Hperm, list_elem_of_fmap.
      split; intros (r & ? & ?); by exists r.
    + apply (Sorted_fmap_elem_of (ordered true time_date));
        [|apply (sort_values_sorted S)].
      intros x y Hx Hy. unfold ordered.
      destruct (Hlab x (Hsub x Hx)) as [_ ->].
      by destruct (Hlab y (Hsub y Hy)) as [_ ->].
Qed.

Lemma required_columns_present df :
  columns df = required_columns → Forall (λ c, c ∈ columns df) required_columns.
Proof. intros ->. by apply Forall_forall. Qed.

Lemma C2_pivot_witness :
  Forall (λ c, c ∈ columns scenario_2) required_columns ∧
  ∃ pt dfs,
    process_data insertion_sorter nanosecond_bounds "Month" scenario_2
    = (Ok (pt, dfs, "Booking Month"%string),
       with_time_date nanosecond_bounds "Month" scenario_2)
    ∧ counted "Booking Month" (parsed nanosecond_bounds "Month" scenario_2) pt
    ∧ Sorted (λ p q, instant nanosecond_bounds "Month" p
                     ≤ instant nanosecond_bounds "Month" q) (index pt).
Proof.
  split; [by apply required_columns_present|].
  destruct (C2_pivot insertion_sorter nanosecond_bounds "Month" scenario_2
              (required_columns_present scenario_2 eq_refl))
    as (pt & dfs & Hrun & _ & Hcount & _ & _ & _ & _ & Hsorted).
  by exists pt, dfs.
Defined.

(** End-to-end scenario 2 of the specification, run with the insertion
    sort: January before March, two confirmed bookings in January and one
    cancelled in March, noughts elsewhere. *)
Example scenario_2_pivot :
  ∃ dfs df',
    process_data insertion_sorter nanosecond_bounds "Month" scenario_2
    = (Ok ({| pcolumns := [Str "Cancelled"; Str "Confirmed"];
              prows := [(Some (Str "Jan 2024"), [0; 2]);
                        (Some (Str "Mar 2024"), [1; 0])] |},
           dfs, "Booking Month"%string), df').
Proof. eexists _, _. by vm_compute. Qed.

(** C2, as stated, fails in its tie rule.  "Week 1 2024" and
    "Week 01 2024" are one instant, and the file has "Week 1 2024" first
    (in its second row, the other label filling the eighteen rows from the
    third on); yet the pivot [process_data] returns with the sort of numpy
    lists "Week 01 2024" first. *)
Lemma C2_counterexample :
  Forall (λ c, c ∈ columns twenty_bookings) required_columns ∧
  instant nanosecond_bounds "Week" (Some (Str "Week 1 2024"))
  = instant nanosecond_bounds "Week" (Some (Str "Week 01 2024")) ∧
  chronological_order nanosecond_bounds "Week" twenty_bookings
  = [Some (Str "Week 1 2024"); Some (Str "Week 01 2024");
     Some (Str "Week 2 2024")] ∧
  ∃ pt dfs df',
    process_data numpy_sorter nanosecond_bounds "Week" twenty_bookings
    = (Ok (pt, dfs, "Booking Week"%string), df')
    ∧ index pt = [Some (Str "Week 01 2024"); Some (Str "Week 1 2024");
                  Some (Str "Week 2 2024")].
Proof.
  split; [by apply required_columns_present|].
  split; [by vm_compute|]. split; [by vm_compute|].
  eexists _, _, _. split; by vm_compute.
Qed.

(** With the three columns present [process_data] returns: the caller's
    frame has its [Time_Date] column, the frame returned holds the parsed
    records, and without parsed records the pivot is the empty frame. *)
Lemma process_data_returns S ib tp df :
  Forall (λ c, c ∈ columns df) required_columns →
  ∃ pt dfs,
    process_data S ib tp df
    = (Ok (pt, dfs, time_column_of tp), with_time_date ib tp df)
    ∧ rows dfs ≡ₚ parsed ib tp df
    ∧ (parsed ib tp df = [] → pt = empty_pivot).
Proof.
  intros Hcols.
  destruct (process_data_run S ib tp df Hcols) as (Hrun & Htc & Hst).
  rewrite Hrun, build_pivot_run by done. clear Hrun.
  rewrite empty_dropna_subset
    by (intros Hnil; rewrite Hnil in Htc; by apply elem_of_nil in Htc).
  change (rows (dropna_subset "Time_Date" (with_time_date ib tp df)))
    with (parsed ib tp df).
  destruct (parsed ib tp df) as [|r0 rs0] eqn:Hparsed.
  - eexists _, _. split; [reflexivity|]. split; [|done].
    by change (parsed ib tp df ≡ₚ []); rewrite Hparsed.
  - eexists _, _. split; [reflexivity|]. split; [|done].
    rewrite <-Hparsed. apply (sort_values_perm S).
Qed.

(** *** Parsing the labels *)

(** The calendar of the model against four known days: 1 January of the
    year 1 has ordinal 1 and is a Monday, 1 January 2024 is a Monday and
    1 January 2025 a Wednesday. *)
Example calendar_anchors :
  ordinal_jan1 1 = 1 ∧ weekday 1 = 0
  ∧ ordinal_jan1 2024 = 738886 ∧ weekday 738886 = 0
  ∧ ordinal_jan1 2025 = 739252 ∧ weekday 739252 = 2.
Proof. by vm_compute. Qed.

(** The properties of the specification: the first week of 2024 and January
    2024 resolve (both to Monday 1 January 2024), week 99, a label without
    [Week] and an ISO month do not. *)
Example parse_week_1_2024 :
  parse_week nanosecond_bounds (Some (Str "Week 1 2024")) = Some (Date 738886).
Proof. by vm_compute. Qed.

Example parse_week_99_2024 :
  parse_week nanosecond_bounds (Some (Str "Week 99 2024")) = None.
Proof. by vm_compute. Qed.

Example parse_week_foo_2024 :
  parse_week nanosecond_bounds (Some (Str "Foo 2024")) = None.
Proof. by vm_compute. Qed.

Example to_datetime_jan_2024 :
  to_datetime_month nanosecond_bounds (Some (Str "Jan 2024")) = Some (Date 738886).
Proof. by vm_compute. Qed.

Example to_datetime_iso_month :
  to_datetime_month nanosecond_bounds (Some (Str "2024-01")) = None.
Proof. by vm_compute. Qed.

(** Week 0 of 2025, a year that begins on a Wednesday, is 1 January 2025
    and no Monday; week 0 of 2023, a year that begins on a Sunday, is
    Monday 26 December 2022. *)
Example parse_week_0_2025 :
  parse_week nanosecond_bounds (Some (Str "Week 0 2025")) = Some (Date 739252).
Proof. by vm_compute. Qed.

Example parse_week_0_2023 :
  parse_week nanosecond_bounds (Some (Str "Week 0 2023")) = Some (Date 738515)
  ∧ weekday 738515 = 0 ∧ ordinal_jan1 2023 = 738521.
Proof. by vm_compute. Qed.

(** White space and digits are those of Unicode: a no-break space (U+00A0)
    separates as a blank does, and Arabic-Indic digits (U+0661, U+0662,
    ...) are read as the digits they are. *)
Example re_match_week_unicode :
  re_match_week [87; 101; 101; 107; 160; 1633; 160; 1634; 1632; 1634; 1636]%N
  = Some ([1633]%N, [1634; 1632; 1634; 1636]%N)
  ∧ int [1633]%N = Some 1
  ∧ int [1634; 1632; 1634; 1636]%N = Some 2024.
Proof. by vm_compute. Qed.

Example code_points_no_break_space :
  code_points (String (ascii_of_nat 194) (String (ascii_of_nat 160) "1")) = [160; 49]%N
  ∧ is_space 160%N = true.
Proof. by vm_compute. Qed.

(** C3, as the code has it.  Parsing a label is a function that yields an
    instant or NaT and never raises.  In week mode a label resolves exactly
    when it is text that, stripped of surrounding white space, begins with
    [Week], white space, a number of at most 4300 digits, white space and
    four digits (whatever follows is ignored; white space and digits are
    those of Unicode), the number being at most 53, the year at least 1000
    and the day within the bounds of a timestamp.  From week 1 on the day
    is the Monday of the week, week 1 starting on the first Monday of the
    year; for week 0 it is the Monday on or before 1 January, and
    1 January itself when that day is a Wednesday.  In month mode a label
    resolves exactly when it is a timestamp already, which it stays, or
    text that is a month abbreviation in any letter case, white space and
    four digits and nothing else, the year being at least 1 and the first
    of the month within bounds; the text resolves to that day.  The
    records whose label does not resolve are dropped, and only those. *)
Theorem C3_parsing ib tp label :
  (parser ib tp label = None ∨ ∃ d, parser ib tp label = Some (Date d))
  ∧ (∀ d, parse_week ib label = Some (Date d)
          ↔ ∃ s week_num year,
              label = Some (Str s)
              ∧ week_prefix (strip (code_points s)) week_num year
              ∧ week_num ≤ 53 ∧ 1000 ≤ year
              ∧ week_instant year week_num d
              ∧ ib d = true)
  ∧ (∀ d, to_datetime_month ib label = Some (Date d)
          ↔ label = Some (Date d)
            ∨ ∃ s month year,
                label = Some (Str s)
                ∧ month_label (code_points s) month year
                ∧ 1 ≤ year
                ∧ d = first_of_month year month
                ∧ ib d = true)
  ∧ (∀ S df,
       Forall (λ c, c ∈ columns df) required_columns →
       ∃ pt dfs,
         process_data S ib tp df
         = (Ok (pt, dfs, time_column_of tp), with_time_date ib tp df)
         ∧ ∀ r, r ∈ rows dfs
                ↔ r ∈ rows (with_time_date ib tp df)
                  ∧ parser ib tp (at_col (time_column_of tp) r) ≠ None).
Proof.
  split; [apply parser_total|].
  split; [intros d; apply parse_week_Some|].
  split; [intros d; apply to_datetime_month_Some|].
  intros S df Hcols.
  destruct (process_data_returns S ib tp df Hcols) as (pt & dfs & Hrun & Hrows & _).
  exists pt, dfs. split; [done|].
  intros r. by rewrite Hrows, elem_of_parsed.
Qed.

Lemma C3_parsing_witness :
  Forall (λ c, c ∈ columns scenario_2) required_columns ∧
  ∃ pt dfs,
    process_data insertion_sorter nanosecond_bounds "Week" scenario_2
    = (Ok (pt, dfs, "Booking Week"%string),
       with_time_date nanosecond_bounds "Week" scenario_2)
    ∧ ∀ r, r ∈ rows dfs
           ↔ r ∈ rows (with_time_date nanosecond_bounds "Week" scenario_2)
             ∧ parser nanosecond_bounds "Week" (at_col "Booking Week" r) ≠ None.
Proof.
  split; [by apply required_columns_present|].
  destruct (C3_parsing nanosecond_bounds "Week" None) as (_ & _ & _ & Hdrop).
  exact (Hdrop insertion_sorter scenario_2 (required_columns_present scenario_2 eq_refl)).
Defined.

Lemma four_digits_last y :
  four_digits y → ∃ y' a, y = y' ++ [a] ∧ is_digit a = true.
Proof.
  intros [Hlen Hy].
  destruct y as [|a [|b [|c [|d [|]]]]]; try done.
  exists [a; b; c], d. split; [done|].
  apply (proj1 (Forall_forall _ _) Hy). set_solver.
Qed.

(** C3, as stated, fails.  "Week 1 2024abc" is not of the form
    [Week <int> <4-digit-year>], yet it resolves, to Monday 1 January 2024;
    "Week 99 2024" is of that form, yet it does not resolve. *)
Lemma C3_counterexample :
  (¬ spec_week_grammar (code_points "Week 1 2024abc")
   ∧ parse_week nanosecond_bounds (Some (Str "Week 1 2024abc")) = Some (Date 738886))
  ∧ (spec_week_grammar (code_points "Week 99 2024")
     ∧ parse_week nanosecond_bounds (Some (Str "Week 99 2024")) = None).
Proof.
  split; split.
  - intros (ws1 & ds & ws2 & y & Hs & _ & _ & _ & Hy).
    apply four_digits_last in Hy as (y' & a & -> & Ha).
    rewrite !(assoc_L (++)) in Hs. apply (f_equal last) in Hs.
    rewrite last_snoc in Hs. vm_compute in Hs. injection Hs as <-.
    by vm_compute in Ha.
  - by vm_compute.
  - exists [32]%N, [57; 57]%N, [32]%N, [50; 48; 50; 52]%N.
    split; [by vm_compute|].
    unfold run_of, four_digits.
    repeat split; try done; repeat constructor; by vm_compute.
  - by vm_compute.
Qed.

(** *** The page *)

Lemma parsed_nil ib tp df : rows df = [] → parsed ib tp df = [].
Proof.
  intros Hnil. unfold parsed, dropna_subset, with_time_date, assign. simpl.
  by rewrite Hnil.
Qed.

(** C5, as the code has it: when no record remains after parsing, the page
    reports that no valid data was found for the mode, naming the time
    column and its expected format; a file with the columns and no row at
    all is such a case and is reported in the same way. *)
Theorem C5_no_valid_periods S ib tp df :
  Forall (λ c, c ∈ columns df) required_columns →
  (parsed ib tp df = [] →
   app S ib tp df = NoValidPeriodsError tp (time_column_of tp))
  ∧ (rows df = [] →
     app S ib tp df = NoValidPeriodsError tp (time_column_of tp)).
Proof.
  intros Hcols.
  assert (parsed ib tp df = [] →
          app S ib tp df = NoValidPeriodsError tp (time_column_of tp)) as Hnone.
  { intros Hparsed. unfold app. rewrite decide_True by done.
    destruct (process_data_returns S ib tp df Hcols) as (pt & dfs & -> & _ & Hpt).
    by rewrite (Hpt Hparsed). }
  split; [done|]. intros Hnil. by apply Hnone, parsed_nil.
Qed.

Lemma C5_no_valid_periods_witness :
  Forall (λ c, c ∈ columns no_valid_period) required_columns ∧
  parsed nanosecond_bounds "Week" no_valid_period = [] ∧
  app insertion_sorter nanosecond_bounds "Week" no_valid_period
  = NoValidPeriodsError "Week" "Booking Week".
Proof.
  split; [by apply required_columns_present|]. split; [reflexivity|].
  destruct (C5_no_valid_periods insertion_sorter nanosecond_bounds "Week"
              no_valid_period (required_columns_present no_valid_period eq_refl))
    as [Hnone _].
  by apply Hnone.
Defined.

(** C5, as stated, fails in its second half: a file with the header and no
    row and a file whose only label does not parse yield the same page. *)
Lemma C5_counterexample :
  rows header_only = [] ∧ rows no_valid_period ≠ [] ∧
  app insertion_sorter nanosecond_bounds "Month" header_only
  = app insertion_sorter nanosecond_bounds "Month" no_valid_period.
Proof. split; [done|]. split; [done|]. by vm_compute. Qed.

(** *** Effects *)

Lemma analyze_booking_data_state S df : (App.analyze_booking_data S df).2 = df.
Proof.
  unfold App.analyze_booking_data, App.groupby_agg, getitem, lift, column, get.
  unfold mbind, mret, Py_bind, Py_ret, bind, ret.
  repeat (destruct (decide _); simpl; try done).
Qed.

Lemma build_pivot_state S tp df : (build_pivot S tp df).2 = df.
Proof.
  unfold build_pivot, mbind, mret, Py_bind, Py_ret, bind, ret, get, lift.
  destruct (empty _); [done|].
  by destruct (groupby_size _ _ _).
Qed.

Lemma process_data_state S ib tp df :
  (process_data S ib tp df).2
  = if decide (time_column_of tp ∈ columns df) then with_time_date ib tp df else df.
Proof.
  unfold process_data, mbind, Py_bind, bind. rewrite assign_time_date_run.
  destruct (decide _); [|done].
  pose proof (build_pivot_state S tp (with_time_date ib tp df)) as Hst.
  by destruct (build_pivot _ _ _) as [[?|?] ?].
Qed.

(** A second run on the frame the first run left behind does what the
    first run did. *)
Lemma process_data_again S ib tp df :
  process_data S ib tp (process_data S ib tp df).2 = process_data S ib tp df.
Proof.
  rewrite process_data_state. destruct (decide _) as [Htc|Htc]; [|done].
  unfold process_data, mbind, Py_bind, bind. rewrite !assign_time_date_run.
  rewrite !decide_True
    by (first [done|by apply columns_with_time_date; [apply time_column_of_ne|]]).
  by rewrite with_time_date_idem.
Qed.

(** C7, as the code has it: [analyze_booking_data] leaves the frame it is
    given as it was.  [process_data] writes the column [Time_Date] into the
    frame it is given (unless the time column is absent and it raises): it
    adds no row, drops none, and leaves every other column as it was; run
    again on that frame it returns what it returned and leaves what it
    left.  Both yield the same output whenever they are given the same
    frame. *)
Theorem C7_effects S ib tp df :
  (App.analyze_booking_data S df).2 = df
  ∧ (process_data S ib tp df).2
    = (if decide (time_column_of tp ∈ columns df)
       then with_time_date ib tp df else df)
  ∧ length (rows (with_time_date ib tp df)) = length (rows df)
  ∧ (∀ c, c ≠ "Time_Date"%string →
          (c ∈ columns (with_time_date ib tp df) ↔ c ∈ columns df)
          ∧ at_col c <$> rows (with_time_date ib tp df) = at_col c <$> rows df)
  ∧ process_data S ib tp (process_data S ib tp df).2 = process_data S ib tp df
  ∧ (∀ df', df' = df →
            App.analyze_booking_data S df' = App.analyze_booking_data S df
            ∧ process_data S ib tp df' = process_data S ib tp df).
Proof.
  split; [apply analyze_booking_data_state|].
  split; [apply process_data_state|].
  split.
  { unfold with_time_date, assign. simpl. apply length_fmap. }
  split.
  { intros c Hc. split; [by apply columns_with_time_date|].
    by apply at_col_with_time_date. }
  split; [apply process_data_again|].
  by intros df' ->.
Qed.

Lemma C7_effects_witness :
  ("Time_Date"%string ∉ columns scenario_2) ∧
  columns (process_data insertion_sorter nanosecond_bounds "Month" scenario_2).2
  = columns scenario_2 ++ ["Time_Date"%string] ∧
  at_col "Booking Status"
    <$> rows (with_time_date nanosecond_bounds "Month" scenario_2)
  = at_col "Booking Status" <$> rows scenario_2.
Proof.
  split; [by apply (bool_decide_unpack _)|].
  destruct (C7_effects insertion_sorter nanosecond_bounds "Month" scenario_2)
    as (_ & Hstate & _ & Hcols & _).
  split; [by rewrite Hstate|].
  by apply Hcols.
Defined.

(** C7, as stated, fails for [process_data]: the frame the caller passed
    has one column more after the call. *)
Lemma C7_counterexample :
  (process_data insertion_sorter nanosecond_bounds "Month" scenario_2).2 ≠ scenario_2
  ∧ columns scenario_2 = ["Booking Week"; "Booking Month"; "Booking Status"]%string
  ∧ columns (process_data insertion_sorter nanosecond_bounds "Month" scenario_2).2
    = ["Booking Week"; "Booking Month"; "Booking Status"; "Time_Date"]%string.
Proof.
  assert (columns (process_data insertion_sorter nanosecond_bounds "Month" scenario_2).2
          = ["Booking Week"; "Booking Month"; "Booking Status"; "Time_Date"]%string)
    as Hcols by (by vm_compute).
  split; [|done]. intros Heq. by rewrite Heq in Hcols.
Qed.

(** *** The column checks *)

Lemma set_columns_cells new df df' :
  App.cells df = App.cells df' → set_columns new df = set_columns new df'.
Proof.
  unfold App.cells, set_columns, rename_row. intros Hcells. f_equal.
  transitivity ((λ vs, list_to_map (zip new vs) : row)
                  <$> ((λ r, (λ c, at_col c r) <$> columns df) <$> rows df)).
  { by rewrite <-list_fmap_compose. }
  rewrite Hcells. by rewrite <-list_fmap_compose.
Qed.

Lemma main_cells nl S df df' :
  length (columns df) = length (columns df') →
  App.cells df = App.cells df' →
  App.main nl S df = App.main nl S df'.
Proof.
  intros Hlen Hcells. unfold App.main, App.clean.
  by rewrite Hlen, (set_columns_cells _ df df').
Qed.

Lemma app_SchemaError S ib tp df :
  app S ib tp df = SchemaError
  ↔ ¬ Forall (λ col, col ∈ columns df) required_columns.
Proof.
  unfold app. destruct (decide _) as [Hall|Hnot]; [|done].
  split; [|done].
  destruct (process_data S ib tp df) as [[[[pt dfs] tc]|e] df']; [|done].
  by destruct (pivot_empty pt).
Qed.

Lemma fields_set_columns df c0 c1 c2 :
  columns df = [c0; c1; c2] →
  App.fields <$> rows (set_columns App.expected_columns df)
  = (λ r, (at_col c0 r, at_col c1 r, at_col c2 r)) <$> rows df.
Proof.
  intros Hcols. unfold set_columns. cbn [rows].
  rewrite Hcols, <-list_fmap_compose. apply list_fmap_ext. intros _ r _.
  cbn [compose]. rewrite AppFacts.rename_row_3. unfold App.fields.
  repeat first [ rewrite at_col_insert_eq | rewrite at_col_insert_ne by done ].
  reflexivity.
Qed.

(** C8: pipeline A reports a schema error exactly when the file does not
    have three columns.  A file of three columns is renamed by position to
    the canonical names: whatever its header, in every row the first cell
    is the one under [Hotel Country Name], the second the one under
    [Guests] and the third the one under [Room Nights], and so they reach
    the cleaning and the analysis; the run depends on the cells by
    position and not on the header.  Pipeline B reports a schema error
    exactly when one of [Booking Week], [Booking Month], [Booking Status]
    is not among the columns, in whatever order the columns come. *)
Theorem C8_schema nl S ib tp df :
  ((∃ n, App.main nl S df = App.SchemaError n) ↔ length (columns df) ≠ 3%nat)
  ∧ (length (columns df) ≠ 3%nat →
     App.main nl S df = App.SchemaError (length (columns df)))
  ∧ columns (App.clean nl df) = App.expected_columns
  ∧ (∀ c0 c1 c2, columns df = [c0; c1; c2] →
       columns (set_columns App.expected_columns df) = App.expected_columns
       ∧ App.fields <$> rows (set_columns App.expected_columns df)
         = (λ r, (at_col c0 r, at_col c1 r, at_col c2 r)) <$> rows df
       ∧ App.fields <$> rows (App.clean nl df)
         = (λ r, (at_col c0 r, App.to_numeric nl (at_col c1 r),
                  App.to_numeric nl (at_col c2 r)))
             <$> filter (App.valid_row nl c0 c1 c2) (rows df))
  ∧ (∀ df', length (columns df) = 3%nat → length (columns df') = 3%nat →
            App.cells df = App.cells df' →
            App.main nl S df = App.main nl S df')
  ∧ (app S ib tp df = SchemaError
     ↔ ¬ Forall (λ col, col ∈ columns df) required_columns)
  ∧ (∀ df', columns df ≡ₚ columns df' →
            (app S ib tp df = SchemaError ↔ app S ib tp df' = SchemaError)).
Proof.
  split.
  { unfold App.main. destruct (decide _) as [Hne|Heq]; [split; [done|eauto]|].
    split; [|done]. intros [n Hn].
    destruct (empty _); [done|].
    by destruct (App.analyze_booking_data _ _) as [[?|?] ?]. }
  split; [by intros Hne; unfold App.main; rewrite decide_True|].
  split; [done|].
  split.
  { intros c0 c1 c2 Hcols. split; [done|].
    split; [by apply fields_set_columns|].
    rewrite (AppFacts.clean_rows nl df c0 c1 c2 Hcols), <-list_fmap_compose.
    apply list_fmap_ext. intros _ r _. apply AppFacts.fields_coerce_row. }
  split; [intros df' H3 H3' Hcells; apply main_cells; congruence|].
  split; [apply app_SchemaError|].
  intros df' Hperm. rewrite !app_SchemaError.
  assert (Forall (λ col, col ∈ columns df) required_columns
          ↔ Forall (λ col, col ∈ columns df') required_columns) as ->; [|done].
  rewrite !Forall_forall. by setoid_rewrite Hperm.
Qed.

Lemma C8_schema_witness :
  length (columns App.raw_upload) = 3%nat ∧
  length (columns App.scenario_1) = 3%nat ∧
  columns App.raw_upload = ["Country"; "G"; "N"]%string ∧
  App.fields <$> rows (set_columns App.expected_columns App.raw_upload)
  = [ (Some (Str "France"), Some (Str "2"), Some (Num (Qc_of_Z 3)));
      (Some (Str "Spain"), Some (Str "many"), Some (Num (Qc_of_Z 2)));
      (None, Some (Str "1"), Some (Num (Qc_of_Z 5))) ] ∧
  App.main whole_number insertion_sorter App.scenario_1
  = App.main whole_number insertion_sorter
      {| columns := ["a"; "b"; "c"]%string;
         rows := [ {[ "a"%string := Some (Str "France");
                      "b"%string := Some (Num (Qc_of_Z 2));
                      "c"%string := Some (Num (Qc_of_Z 3)) ]};
                   {[ "a"%string := Some (Str "France");
                      "b"%string := Some (Num (Qc_of_Z 1));
                      "c"%string := Some (Num (Qc_of_Z 5)) ]};
                   {[ "a"%string := Some (Str "Spain");
                      "b"%string := Some (Num (Qc_of_Z 4));
                      "c"%string := Some (Num (Qc_of_Z 2)) ]} ] |} ∧
  app insertion_sorter nanosecond_bounds "Month" App.scenario_1 = SchemaError.
Proof.
  split; [reflexivity|]. split; [reflexivity|]. split; [reflexivity|].
  destruct (C8_schema whole_number insertion_sorter nanosecond_bounds "Month"
              App.raw_upload) as (_ & _ & _ & Hren & _).
  destruct (Hren "Country"%string "G"%string "N"%string eq_refl) as (_ & Hfields & _).
  split; [rewrite Hfields; reflexivity|].
  destruct (C8_schema whole_number insertion_sorter nanosecond_bounds "Month"
              App.scenario_1) as (_ & _ & _ & _ & Hpos & Hb & _).
  split.
  - by apply Hpos.
  - apply Hb. intros Hall. apply Forall_cons in Hall as [Hw _].
    simpl in Hw. unfold App.expected_columns in Hw.
    repeat (apply elem_of_cons in Hw as [Hw|Hw]; [discriminate|]).
    by apply elem_of_nil in Hw.
Defined.

End App2Facts.

(** ** More about pipeline A *)
Module AppMore.
Import Pandas PandasFacts App AppFacts.

(** *** What [main] can end in *)

(** [main] ends in one of three ways: the column-count error, with the
    number of columns found, when the file does not have three columns;
    the no-valid-data error when it has three and the cleaning leaves no
    row; the dashboard otherwise.  The analysis never raises inside
    [main]. *)
Theorem main_outcomes nl S df :
  (length (columns df) ≠ 3%nat
   ∧ main nl S df = SchemaError (length (columns df)))
  ∨ (length (columns df) = 3%nat ∧ rows (clean nl df) = []
     ∧ main nl S df = EmptyDatasetError)
  ∨ (length (columns df) = 3%nat ∧ rows (clean nl df) ≠ []
     ∧ ∃ a, main nl S df = Success a
          ∧ analyze_booking_data S (clean nl df) = (Ok a, clean nl df)).
Proof.
  destruct (decide (length (columns df) = 3%nat)) as [Hlen|Hlen].
  - right. destruct (main_clean nl S df Hlen) as [[? ?]|[? ?]]; [by left|by right].
  - left. split; [done|]. unfold main. by rewrite decide_True.
Qed.

(** *** What the cleaning hands over *)

Lemma to_numeric_shape nl c :
  to_numeric nl c = None ∨ ∃ q, to_numeric nl c = Some (Num q).
Proof.
  destruct c as [[s|q|d]|]; simpl; eauto.
  destruct (nl s); simpl; eauto.
Qed.

Lemma three_columns df :
  length (columns df) = 3%nat → ∃ c0 c1 c2, columns df = [c0; c1; c2].
Proof.
  destruct (columns df) as [|c0 [|c1 [|c2 [|]]]]; try done. by eexists _, _, _.
Qed.

Lemma cleaned_clean nl df : length (columns df) = 3%nat → cleaned (clean nl df).
Proof.
  intros (c0 & c1 & c2 & Hcols)%three_columns. split; [done|].
  apply Forall_forall. intros r Hr. unfold clean, dropna in Hr. simpl in Hr.
  by apply list_elem_of_filter in Hr as [? _].
Qed.

(** Whatever the header and the cells of a file of three columns, the frame
    that reaches the analysis has the three canonical columns, no missing
    value, and numbers in every cell of [Guests] and [Room Nights]. *)
Theorem clean_numeric nl df :
  length (columns df) = 3%nat →
  cleaned (clean nl df)
  ∧ Forall (λ r, ∃ c g n, fields r = (Some c, Some (Num g), Some (Num n)))
           (rows (clean nl df)).
Proof.
  intros Hlen. split; [by apply cleaned_clean|].
  destruct (three_columns df Hlen) as (c0 & c1 & c2 & Hcols).
  rewrite (clean_rows nl df c0 c1 c2 Hcols).
  apply Forall_fmap, Forall_forall. intros r Hr.
  apply list_elem_of_filter in Hr as [(H0 & H1 & H2) _]. simpl.
  rewrite fields_coerce_row.
  destruct (at_col c0 r) as [c|]; [|done].
  destruct (to_numeric_shape nl (at_col c1 r)) as [?|[g Hg]]; [done|].
  destruct (to_numeric_shape nl (at_col c2 r)) as [?|[n Hn]]; [done|].
  exists c, g, n. by rewrite Hg, Hn.
Qed.

Lemma clean_numeric_witness :
  length (columns raw_upload) = 3%nat ∧
  cleaned (clean whole_number raw_upload)
  ∧ Forall (λ r, ∃ c g n, fields r = (Some c, Some (Num g), Some (Num n)))
           (rows (clean whole_number raw_upload)).
Proof.
  split; [reflexivity|]. by apply (clean_numeric whole_number raw_upload).
Defined.

(** *** Missing columns *)

(** [analyze_booking_data] returns exactly when the frame has the three
    columns; when one is missing it raises [KeyError] for a missing column
    and the frame is as it was. *)
Theorem analyze_booking_data_KeyError S df :
  ((∃ a, analyze_booking_data S df = (Ok a, df))
   ↔ Forall (λ c, c ∈ columns df) expected_columns)
  ∧ (¬ Forall (λ c, c ∈ columns df) expected_columns →
     ∃ c, c ∈ expected_columns ∧ (c ∉ columns df)
        ∧ analyze_booking_data S df = (Raise (KeyError c), df)).
Proof.
  assert (¬ Forall (λ c, c ∈ columns df) expected_columns →
          ∃ c, c ∈ expected_columns ∧ (c ∉ columns df)
             ∧ analyze_booking_data S df = (Raise (KeyError c), df)) as Hraise.
  { intros Hnot. unfold expected_columns in *.
    destruct (decide ("Hotel Country Name"%string ∈ columns df)) as [H1|H1];
      [destruct (decide ("Guests"%string ∈ columns df)) as [H2|H2];
       [destruct (decide ("Room Nights"%string ∈ columns df)) as [H3|H3]|]|].
    - destruct Hnot. by repeat constructor.
    - exists "Room Nights"%string. split; [set_solver|]. split; [done|].
      run_py. by rewrite !decide_True, decide_False by done.
    - exists "Guests"%string. split; [set_solver|]. split; [done|].
      run_py. by rewrite decide_True, decide_False by done.
    - exists "Hotel Country Name"%string. split; [set_solver|]. split; [done|].
      run_py. by rewrite decide_False by done. }
  split; [|done]. split.
  - intros [a Ha]. destruct (decide (Forall (λ c, c ∈ columns df) expected_columns))
      as [?|Hnot]; [done|].
    destruct (Hraise Hnot) as (c & _ & _ & Hc). by rewrite Hc in Ha.
  - intros Hall. destruct (analyze_booking_data_ok S df Hall) as (a & Ha & _). eauto.
Qed.

Lemma analyze_booking_data_KeyError_witness :
  (¬ Forall (λ c, c ∈ columns App2.scenario_2) expected_columns) ∧
  ∃ c, c ∈ expected_columns ∧ (c ∉ columns App2.scenario_2)
     ∧ analyze_booking_data insertion_sorter App2.scenario_2
       = (Raise (KeyError c), App2.scenario_2).
Proof.
  assert (¬ Forall (λ c, c ∈ columns App2.scenario_2) expected_columns) as Hnot.
  { intros Hall. apply Forall_cons in Hall as [Hin _]. simpl in Hin.
    unfold App2.required_columns in Hin.
    repeat (apply elem_of_cons in Hin as [Hin|Hin]; [discriminate|]).
    by apply elem_of_nil in Hin. }
  split; [done|].
  by apply (analyze_booking_data_KeyError insertion_sorter App2.scenario_2).
Defined.

(** *** The country table *)

Lemma analyze_booking_data_parts S df :
  Forall (λ c, c ∈ columns df) expected_columns →
  ∃ a, analyze_booking_data S df = (Ok a, df)
     ∧ country_data a = sort_values S false by_bookings (country_table df)
     ∧ total_bookings a = len df
     ∧ total_countries a = length (country_data a)
     ∧ total_guests a = series_sum (at_col "Guests" <$> rows df)
     ∧ avg_stay a = series_mean (at_col "Room Nights" <$> rows df)
     ∧ top_country a = match country_data a with
                       | s :: _ => Hotel_Country_Name s
                       | [] => Str "N/A"
                       end.
Proof.
  intros Hcols. unfold expected_columns in Hcols.
  apply Forall_cons in Hcols as [H1 Hcols].
  apply Forall_cons in Hcols as [H2 Hcols].
  apply Forall_cons in Hcols as [H3 _].
  run_py. rewrite !decide_True by done. simpl.
  eexists. split; [reflexivity|]. simpl. done.
Qed.

(** *** A successful run *)

Lemma by_bookings_max S l s rest :
  sort_values S false by_bookings l = s :: rest →
  Forall (λ t, (Total_Bookings t ≤ Total_Bookings s)%nat) (s :: rest).
Proof.
  intros Heq. pose proof (sort_values_sorted S _ false by_bookings l) as Hs.
  rewrite Heq in Hs. apply Sorted_StronglySorted in Hs; [|apply _].
  apply StronglySorted_inv in Hs as [_ Hall].
  constructor; [done|]. eapply Forall_impl; [exact Hall|].
  unfold ordered, by_bookings. intros t. simpl. lia.
Qed.

(** When [main] succeeds, the analysis it shows is that of the cleaned
    frame: at least one booking, the bookings of the countries adding up
    to [total_bookings], at least one country, and a top country that is a
    row of the table with no row above it in bookings. *)
Theorem main_success nl S df a :
  main nl S df = Success a →
  total_bookings a = length (rows (clean nl df))
  ∧ (1 ≤ total_bookings a)%nat
  ∧ sum_list_with Total_Bookings (country_data a) = total_bookings a
  ∧ total_countries a = length (country_data a)
  ∧ ∃ s, s ∈ country_data a
       ∧ top_country a = Hotel_Country_Name s
       ∧ Forall (λ t, (Total_Bookings t ≤ Total_Bookings s)%nat) (country_data a).
Proof.
  intros Hmain.
  destruct (decide (length (columns df) = 3%nat)) as [Hlen|Hlen];
    [|by unfold main in Hmain; rewrite decide_True in Hmain].
  destruct (main_clean nl S df Hlen) as [[_ H]|(Hne & a' & H & Hrun)];
    rewrite H in Hmain; try done.
  injection Hmain as ->.
  pose proof (cleaned_clean nl df Hlen) as Hclean.
  destruct (analyze_booking_data_parts S (clean nl df) (cleaned_columns _ Hclean))
    as (a' & Ha' & Hdata & Htotal & Hn & _ & _ & Htop).
  rewrite Hrun in Ha'. injection Ha' as <-.
  split; [done|]. split.
  { rewrite Htotal. unfold len. destruct (rows (clean nl df)); [done|simpl; lia]. }
  split.
  { rewrite Htotal, Hdata, (sort_values_perm S).
    apply sum_country_table, Hclean. }
  split; [done|].
  destruct (country_data a) as [|s rest] eqn:E.
  { exfalso. symmetry in Hdata. 
    pose proof (sort_values_perm S _ false by_bookings (country_table (clean nl df)))
      as Hperm.
    rewrite Hdata in Hperm. symmetry in Hperm. apply Permutation_nil_r in Hperm.
    by apply (country_table_nonempty (clean nl df)); [apply Hclean| |]. }
  exists s. split; [left|]. split; [done|].
  by apply (by_bookings_max S (country_table (clean nl df))).
Qed.

Lemma main_success_witness :
  ∃ a, main whole_number insertion_sorter raw_upload = Success a
     ∧ total_bookings a = 1%nat
     ∧ sum_list_with Total_Bookings (country_data a) = total_bookings a.
Proof.
  assert (∃ a, main whole_number insertion_sorter raw_upload = Success a)
    as [a Ha] by (eexists; by vm_compute).
  exists a. split; [done|].
  destruct (main_success whole_number insertion_sorter raw_upload a Ha)
    as (Hn & _ & Hsum & _).
  split; [|done]. rewrite Hn. by vm_compute.
Defined.

End AppMore.

(** ** More about pipeline B *)
Module App2More.
Import Text Pandas PandasFacts TextFacts App2 App2Facts.

(** *** The parts of what [process_data] returns *)

Lemma drop_duplicates_nonempty {A K} `{EqDecision K} (key : A → K) (l : list A) :
  l ≠ [] → drop_duplicates key l ≠ [].
Proof.
  destruct l as [|x l]; [done|]. intros _. unfold drop_duplicates.
  cbn [drop_duplicates_from]. by destruct (decide _) as [?%elem_of_nil|].
Qed.

Lemma Permutation_nonempty {A} (l l' : list A) : l ≡ₚ l' → l' ≠ [] → l ≠ [].
Proof. intros Hp Hne ->. by apply Permutation_nil_l in Hp. Qed.

Lemma process_data_parts S ib tp df :
  Forall (λ c, c ∈ columns df) required_columns →
  ∃ pt dfs,
    process_data S ib tp df
    = (Ok (pt, dfs, time_column_of tp), with_time_date ib tp df)
    ∧ rows dfs ≡ₚ parsed ib tp df
    ∧ Sorted (ordered true time_date) (rows dfs)
    ∧ counted (time_column_of tp) (parsed ib tp df) pt
    ∧ NoDup (index pt)
    ∧ NoDup (pcolumns pt)
    ∧ (∀ s, s ∈ pcolumns pt
            ↔ ∃ r, r ∈ parsed ib tp df ∧ at_col "Booking Status" r = Some s)
    ∧ (pivot_empty pt = false →
       ∀ p, p ∈ index pt
            ↔ ∃ r, r ∈ parsed ib tp df ∧ at_col (time_column_of tp) r = p)
    ∧ (pivot_empty pt = true →
       prows pt = []
       ∧ Forall (λ r, at_col "Booking Status" r = None) (parsed ib tp df))
    ∧ (pivot_empty pt = false →
       ∃ r, r ∈ parsed ib tp df ∧ at_col "Booking Status" r ≠ None).
Proof.
  intros Hcols.
  destruct (process_data_run S ib tp df Hcols) as (Hrun & Htc & Hst).
  rewrite Hrun, build_pivot_run by done. clear Hrun.
  rewrite empty_dropna_subset
    by (intros Hnil; rewrite Hnil in Htc; by apply elem_of_nil in Htc).
  change (rows (dropna_subset "Time_Date" (with_time_date ib tp df)))
    with (parsed ib tp df).
  set (tc := time_column_of tp).
  pose proof (parsed_row ib tp df) as Hlab. fold tc in Hlab.
  destruct (parsed ib tp df) as [|r0 rs0] eqn:Hparsed.
  { eexists _, _. split; [reflexivity|]. simpl.
    split; [by change (parsed ib tp df ≡ₚ []); rewrite Hparsed|].
    split; [change (Sorted (ordered true time_date) (parsed ib tp df));
            rewrite Hparsed; constructor|].
    repeat split; try constructor; try done.
    - by intros ?%elem_of_nil.
    - by intros (r & ?%elem_of_nil & _). }
  assert (parsed ib tp df ≠ []) as Hne by (by rewrite Hparsed).
  rewrite <-Hparsed in *. clear r0 rs0 Hparsed.
  set (rs := rows (sort_by_time S (dropna_subset "Time_Date" (with_time_date ib tp df)))).
  assert (rs ≡ₚ parsed ib tp df) as Hperm by apply (sort_values_perm S).
  assert (Sorted (ordered true time_date) rs) as Hsorted
    by apply (sort_values_sorted S).
  set (pt0 := pivot_fillna (summary_of tc "Booking Status" rs)).
  assert (∀ s, s ∈ pcolumns pt0
               ↔ ∃ r, r ∈ parsed ib tp df ∧ at_col "Booking Status" r = Some s)
    as Hstat.
  { intros s. unfold pt0. rewrite elem_of_pivot_columns. split.
    - intros (r & Hr & Hs & _). exists r. by rewrite <-Hperm.
    - intros (r & Hr & Hs). exists r. rewrite Hperm. split; [done|].
      split; [done|]. by apply Hlab. }
  assert (NoDup (pcolumns pt0)) as Hndc by apply NoDup_unique_sorted.
  destruct (pivot_empty pt0) eqn:Hpe.
  - assert (pt0 = empty_pivot) as Hnil
      by (unfold pt0; by rewrite (pivot_fillna_nil _ Hpe)).
    eexists _, _. split; [reflexivity|]. split; [done|]. split; [done|].
    split; [apply (counted_perm tc rs); [done|apply counted_pivot_fillna]|].
    assert (Forall (λ r, at_col "Booking Status" r = None) (parsed ib tp df)).
    { apply Forall_forall. intros r Hr.
      destruct (at_col "Booking Status" r) as [s|] eqn:E; [|done].
      assert (s ∈ pcolumns pt0) as Hs by (apply Hstat; by exists r).
      rewrite Hnil in Hs. by apply elem_of_nil in Hs. }
    split; [rewrite Hnil; constructor|]. split; [done|]. split; [done|].
    split; [by rewrite Hpe|]. split; [by rewrite Hnil|by rewrite Hpe].
  - set (ts := sort_values S true time_date (drop_duplicates (at_col tc) rs)).
    assert (ts ≡ₚ drop_duplicates (at_col tc) rs) as Hts
      by apply (sort_values_perm S).
    assert (∀ r, r ∈ ts → r ∈ parsed ib tp df) as Hsub.
    { intros r Hr. rewrite Hts in Hr.
      apply elem_of_drop_duplicates_from in Hr. by rewrite <-Hperm. }
    assert (Forall (λ p, p ≠ None) (at_col tc <$> ts)) as Hsome.
    { apply Forall_fmap, Forall_forall. intros r Hr. by apply Hlab, Hsub. }
    assert (ts ≠ []) as Htsne.
    { apply (Permutation_nonempty _ _ Hts), drop_duplicates_nonempty.
      by apply (Permutation_nonempty _ _ Hperm). }
    assert (∃ r, r ∈ parsed ib tp df ∧ at_col "Booking Status" r ≠ None) as Hex.
    { unfold pivot_empty in Hpe.
      destruct (pcolumns pt0) as [|s cols] eqn:E; [done|].
      destruct (proj1 (Hstat s)) as (r & Hr & Hs); [left|].
      exists r. by rewrite Hs. }
    assert (pivot_empty (reindex (at_col tc <$> ts) 0 pt0) = false) as Hpe'.
    { unfold pivot_empty in *. cbn [reindex pcolumns prows].
      destruct (pcolumns pt0); [done|]. by destruct ts. }
    eexists _, _. split; [reflexivity|]. split; [done|]. split; [done|].
    change (rows (sort_by_time S (drop_duplicates_subset tc
              (sort_by_time S (dropna_subset "Time_Date" (with_time_date ib tp df))))))
      with ts.
    split; [apply (counted_perm tc rs); [done|by apply counted_reindex]|].
    rewrite index_reindex.
    split; [rewrite Hts; apply NoDup_drop_duplicates_from|].
    split; [done|]. split; [done|].
    split.
    { intros _ p. rewrite Hts, drop_duplicates_keys, Hperm, list_elem_of_fmap.
      split; intros (r & ? & ?); by exists r. }
    split; [by rewrite Hpe'|done].
Qed.

(** *** What the page can end in *)

Lemma length_with_time_date ib tp df :
  length (rows (with_time_date ib tp df)) = length (rows df).
Proof. unfold with_time_date, assign. simpl. apply length_fmap. Qed.

Lemma parsed_rows_nonempty ib tp df r : r ∈ parsed ib tp df → rows df ≠ [].
Proof.
  intros Hr Hnil. rewrite (parsed_nil ib tp df Hnil) in Hr.
  by apply elem_of_nil in Hr.
Qed.

(** With the three columns present the page ends in one of two ways, and
    never in the processing error: the no-valid-data report, exactly when
    no parsed record has a status (so also when every label parses and
    every status is missing); the dashboard otherwise, whose
    [total_bookings] is the number of rows of the file, unparsed rows
    included, and at least 1. *)
Theorem app_outcomes S ib tp df :
  Forall (λ c, c ∈ columns df) required_columns →
  (Forall (λ r, at_col "Booking Status" r = None) (parsed ib tp df)
   ∧ app S ib tp df = NoValidPeriodsError tp (time_column_of tp))
  ∨ (¬ Forall (λ r, at_col "Booking Status" r = None) (parsed ib tp df)
     ∧ ∃ pt dfs,
         app S ib tp df = Dashboard (length (rows df)) pt dfs
         ∧ pivot_empty pt = false
         ∧ (1 ≤ length (rows df))%nat
         ∧ (length (rows dfs) ≤ length (rows df))%nat).
Proof.
  intros Hcols.
  destruct (process_data_parts S ib tp df Hcols)
    as (pt & dfs & Hrun & Hperm & _ & _ & _ & _ & _ & _ & Hempty & Hfull).
  unfold app. rewrite decide_True, Hrun by done.
  destruct (pivot_empty pt) eqn:Hpe.
  - left. by destruct (Hempty eq_refl).
  - right. destruct (Hfull eq_refl) as (r & Hr & Hs). split.
    { intros Hall. apply Hs. by apply (proj1 (Forall_forall _ _) Hall r). }
    exists pt, dfs. unfold len. rewrite length_with_time_date.
    split; [done|]. split; [done|]. split.
    + pose proof (parsed_rows_nonempty ib tp df r Hr).
      destruct (rows df); [done|simpl; lia].
    + rewrite Hperm. unfold parsed, dropna_subset. simpl.
      rewrite <-(length_with_time_date ib tp df). apply length_filter.
Qed.

Lemma app_outcomes_witness :
  Forall (λ c, c ∈ columns scenario_2_with_noise) required_columns ∧
  ∃ pt dfs,
    app insertion_sorter nanosecond_bounds "Month" scenario_2_with_noise
    = Dashboard 4 pt dfs
    ∧ length (rows dfs) = 3%nat.
Proof.
  split; [by apply required_columns_present|].
  destruct (app_outcomes insertion_sorter nanosecond_bounds "Month"
              scenario_2_with_noise
              (required_columns_present scenario_2_with_noise eq_refl))
    as [[_ Hno]|(_ & pt & dfs & Happ & _)].
  - by vm_compute in Hno.
  - exists pt, dfs. split; [exact Happ|].
    vm_compute in Happ. by injection Happ as _ <-.
Defined.

(** *** The frame returned *)

(** [df_processed] holds the parsed records and no other, every one with
    the instant of its label in [Time_Date], in non-decreasing order of
    that instant. *)
Theorem df_processed_sorted S ib tp df :
  Forall (λ c, c ∈ columns df) required_columns →
  ∃ pt dfs,
    process_data S ib tp df
    = (Ok (pt, dfs, time_column_of tp), with_time_date ib tp df)
    ∧ rows dfs ≡ₚ parsed ib tp df
    ∧ Forall (λ r, ∃ d, at_col "Time_Date" r = Some (Date d)
                      ∧ parser ib tp (at_col (time_column_of tp) r) = Some (Date d))
             (rows dfs)
    ∧ Sorted (λ r r', time_date r ≤ time_date r') (rows dfs).
Proof.
  intros Hcols.
  destruct (process_data_parts S ib tp df Hcols)
    as (pt & dfs & Hrun & Hperm & Hsorted & _).
  exists pt, dfs. split; [done|]. split; [done|]. split; [|done].
  rewrite Hperm. apply Forall_forall. intros r Hr.
  apply elem_of_parsed in Hr as [Hr Hp].
  rewrite (rows_with_time_date ib tp df r Hr).
  destruct (parser_total ib tp (at_col (time_column_of tp) r)) as [?|[d Hd]];
    [done|]. by exists d.
Qed.

Lemma df_processed_sorted_witness :
  Forall (λ c, c ∈ columns scenario_2_with_noise) required_columns ∧
  ∃ pt dfs,
    process_data insertion_sorter nanosecond_bounds "Month" scenario_2_with_noise
    = (Ok (pt, dfs, "Booking Month"%string),
       with_time_date nanosecond_bounds "Month" scenario_2_with_noise)
    ∧ Sorted (λ r r', time_date r ≤ time_date r') (rows dfs).
Proof.
  split; [by apply required_columns_present|].
  destruct (df_processed_sorted insertion_sorter nanosecond_bounds "Month"
              scenario_2_with_noise
              (required_columns_present scenario_2_with_noise eq_refl))
    as (pt & dfs & Hrun & _ & _ & Hsorted).
  by exists pt, dfs.
Defined.

(** *** Calling [process_data] without the column check *)

(** Without its time column [process_data] raises [KeyError] and the frame
    is as it was.  With the time column and without [Booking Status] it
    first writes [Time_Date]; then it returns the empty pivot when no label
    parses, and raises [KeyError] for [Booking Status] when one does. *)
Theorem process_data_KeyError S ib tp df :
  (time_column_of tp ∉ columns df →
   process_data S ib tp df = (Raise (KeyError (time_column_of tp)), df))
  ∧ (time_column_of tp ∈ columns df →
     "Booking Status"%string ∉ columns df →
     (parsed ib tp df = [] →
      process_data S ib tp df
      = (Ok (empty_pivot, dropna_subset "Time_Date" (with_time_date ib tp df),
             time_column_of tp),
         with_time_date ib tp df))
     ∧ (parsed ib tp df ≠ [] →
        process_data S ib tp df
        = (Raise (KeyError "Booking Status"), with_time_date ib tp df))).
Proof.
  split.
  - intros Hno. unfold process_data, mbind, Py_bind, bind.
    by rewrite assign_time_date_run, decide_False.
  - intros Htc Hst.
    assert (process_data S ib tp df = build_pivot S tp (with_time_date ib tp df)) as ->.
    { unfold process_data, mbind, Py_bind, bind.
      by rewrite assign_time_date_run, decide_True. }
    assert (columns (with_time_date ib tp df) ≠ []) as Hcols.
    { intros Hnil. pose proof (time_date_in_columns ib tp df) as Hin.
      rewrite Hnil in Hin. by apply elem_of_nil in Hin. }
    unfold build_pivot, mbind, mret, Py_bind, Py_ret, bind, ret, get, lift.
    rewrite empty_dropna_subset by done.
    change (rows (dropna_subset "Time_Date" (with_time_date ib tp df)))
      with (parsed ib tp df).
    split.
    + by intros ->.
    + intros Hne. destruct (parsed ib tp df); [done|].
      unfold groupby_size, sort_by_time, dropna_subset. cbn [columns].
      rewrite decide_True
        by (by apply columns_with_time_date; [apply time_column_of_ne|]).
      rewrite decide_False; [done|].
      by rewrite columns_with_time_date.
Qed.

Lemma process_data_KeyError_witness :
  ("Booking Week"%string ∉ columns months_only) ∧
  "Booking Month"%string ∈ columns months_only ∧
  ("Booking Status"%string ∉ columns months_only) ∧
  process_data insertion_sorter nanosecond_bounds "Week" months_only
  = (Raise (KeyError "Booking Week"), months_only) ∧
  process_data insertion_sorter nanosecond_bounds "Month" months_only
  = (Raise (KeyError "Booking Status"),
     with_time_date nanosecond_bounds "Month" months_only) ∧
  process_data insertion_sorter nanosecond_bounds "Month" months_only_unparsed
  = (Ok (empty_pivot,
         dropna_subset "Time_Date"
           (with_time_date nanosecond_bounds "Month" months_only_unparsed),
         "Booking Month"%string),
     with_time_date nanosecond_bounds "Month" months_only_unparsed).
Proof.
  assert ("Booking Week"%string ∉ columns months_only) as Hw
    by (by apply (bool_decide_unpack _)).
  assert ("Booking Month"%string ∈ columns months_only) as Hm by left.
  assert ("Booking Status"%string ∉ columns months_only) as Hs
    by (by apply (bool_decide_unpack _)).
  split; [done|]. split; [done|]. split; [done|]. split; [|split].
  - by apply (process_data_KeyError insertion_sorter nanosecond_bounds "Week"
                months_only).
  - by apply (process_data_KeyError insertion_sorter nanosecond_bounds "Month"
                months_only).
  - by apply (process_data_KeyError insertion_sorter nanosecond_bounds "Month"
                months_only_unparsed).
Defined.

(** *** The sum of the cells *)

Lemma sum_list_with_zero {A} (l : list A) : sum_list_with (λ _, 0%nat) l = 0%nat.
Proof. induction l as [|x l IH]; [done|]. simpl. exact IH. Qed.

Lemma sum_list_with_plus {A} (f g : A → nat) (l : list A) :
  sum_list_with (λ x, f x + g x)%nat l
  = (sum_list_with f l + sum_list_with g l)%nat.
Proof. induction l as [|x l IH]; [done|]. simpl. rewrite IH. lia. Qed.

Lemma sum_list_with_ext {A} (f g : A → nat) (l : list A) :
  (∀ x, x ∈ l → f x = g x) → sum_list_with f l = sum_list_with g l.
Proof.
  induction l as [|x l IH]; intros Hfg; [done|]. simpl.
  rewrite (Hfg x) by left. rewrite IH; [done|]. intros y Hy. apply Hfg. by right.
Qed.

Lemma sum_list_with_none {A} (f : A → nat) (l : list A) :
  (∀ x, x ∈ l → f x = 0%nat) → sum_list_with f l = 0%nat.
Proof.
  intros Hf. rewrite <-(sum_list_with_zero l). by apply sum_list_with_ext.
Qed.

(** The counts under the columns [cols] of the rows labelled [labels]. *)
Lemma sum_bookings tc (labels : list cell) (cols : list scalar) (rs : list row) :
  NoDup labels → NoDup cols →
  (∀ r s, r ∈ rs → at_col "Booking Status" r = Some s →
          s ∈ cols ∧ at_col tc r ≠ None ∧ at_col tc r ∈ labels) →
  sum_list_with
    (λ p, match p with
          | Some l => sum_list_with (λ s, bookings tc rs l s) cols
          | None => 0%nat
          end) labels
  = length (filter (λ r, at_col "Booking Status" r ≠ None) rs).
Proof.
  intros Hndl Hndc. induction rs as [|r rs IH]; intros Hin.
  - simpl. apply sum_list_with_none.
    intros [l|] _; [|done]. by apply sum_list_with_none.
  - rewrite filter_cons.
    assert (∀ r' s, r' ∈ rs → at_col "Booking Status" r' = Some s →
                    s ∈ cols ∧ at_col tc r' ≠ None ∧ at_col tc r' ∈ labels) as Hin'
      by (intros r' s ?; apply Hin; by right).
    specialize (IH Hin').
    transitivity
      (sum_list_with
         (λ p, (if decide (at_col tc r = p ∧ at_col "Booking Status" r ≠ None)
                then 1 else 0)
               + match p with
                 | Some l => sum_list_with (λ s, bookings tc rs l s) cols
                 | None => 0
                 end)%nat labels).
    + apply sum_list_with_ext. intros [l|] Hp; cbv beta.
      * unfold bookings.
        transitivity
          (sum_list_with
             (λ s, (if decide (at_col tc r = Some l
                               ∧ at_col "Booking Status" r = Some s)
                    then 1 else 0)
                   + length (filter (λ r, at_col tc r = Some l
                                          ∧ at_col "Booking Status" r = Some s) rs))%nat
             cols).
        { apply sum_list_with_ext. intros s _. cbv beta. rewrite filter_cons.
          by destruct (decide _). }
        rewrite sum_list_with_plus. f_equal.
        destruct (at_col "Booking Status" r) as [s0|] eqn:Hs0.
        -- destruct (Hin r s0) as (Hc & _ & _); [left|done|].
           destruct (decide (at_col tc r = Some l)) as [Hl|Hl].
           ++ rewrite decide_True by done.
              etrans; [|exact (count_one s0 cols Hndc Hc)]. apply sum_list_with_ext.
              intros s _. cbv beta. destruct (decide (s0 = s)) as [->|Hne].
              ** by rewrite decide_True.
              ** apply decide_False. intros [_ Heq]. by injection Heq.
           ++ rewrite decide_False by (by intros [? _]).
              apply sum_list_with_none.
              intros s _. cbv beta. apply decide_False. by intros [? _].
        -- rewrite decide_False by (by intros [_ ?]).
           apply sum_list_with_none.
           intros s _. cbv beta. apply decide_False. by intros [_ ?].
      * rewrite decide_False; [done|]. intros [Hl Hs].
        destruct (at_col "Booking Status" r) as [s0|] eqn:Hs0; [|done].
        destruct (Hin r s0) as (_ & Hsome & _); [left|done|]. done.
    + rewrite sum_list_with_plus.
      etrans; [apply (f_equal (Nat.add _)); exact IH|].
      destruct (at_col "Booking Status" r) as [s0|] eqn:Hs0.
      * destruct (Hin r s0) as (_ & _ & Hl); [left|done|].
        rewrite decide_True by done.
        rewrite (sum_list_with_ext _
                   (λ k, if decide (at_col tc r = k) then 1 else 0)%nat).
        -- by rewrite (count_one (at_col tc r) labels Hndl Hl).
        -- intros p _. cbv beta. destruct (decide (at_col tc r = p)).
           ++ by rewrite decide_True.
           ++ apply decide_False. by intros [? _].
      * rewrite decide_False by (by intros H; apply H).
        rewrite (sum_list_with_none _ labels); [done|].
        intros p _. cbv beta. apply decide_False. by intros [_ ?].
Qed.

Lemma foldr_add_fmap {A} (f : A → nat) (l : list A) (acc : Z) :
  foldr Z.add acc ((λ x, Z.of_nat (f x)) <$> l)
  = Z.of_nat (sum_list_with f l) + acc.
Proof.
  induction l as [|x l IH]; [simpl; lia|].
  rewrite fmap_cons. cbn [foldr sum_list_with]. rewrite IH. lia.
Qed.

Lemma foldr_add_app (l k : list Z) :
  foldr Z.add 0 (l ++ k) = foldr Z.add 0 l + foldr Z.add 0 k.
Proof. induction l as [|x l IH]; simpl; [done|]. rewrite IH. lia. Qed.

Lemma pivot_total_counted tc rs pt :
  counted tc rs pt →
  pivot_total pt
  = Z.of_nat
      (sum_list_with
         (λ p, match p with
               | Some l => sum_list_with (λ s, bookings tc rs l s) (pcolumns pt)
               | None => 0%nat
               end) (index pt)).
Proof.
  unfold counted, pivot_total, index.
  induction (prows pt) as [|[p row] prs IH]; intros Hc; [done|].
  apply Forall_cons in Hc as [(l & Hl & Hrow) Hc]. simpl in Hl, Hrow. subst p row.
  rewrite !fmap_cons. cbn [concat sum_list_with fst snd].
  rewrite foldr_add_app, (IH Hc), foldr_add_fmap.
  by rewrite Nat2Z.inj_add, Z.add_0_r.
Qed.

Lemma filter_no_status (rs : list row) :
  Forall (λ r, at_col "Booking Status" r = None) rs →
  filter (λ r, at_col "Booking Status" r ≠ None) rs = [].
Proof.
  induction 1 as [|r rs Hr _ IH]; [done|].
  rewrite filter_cons, decide_False by (by intros H; apply H). exact IH.
Qed.

(** *** Counting the values of a column *)

Lemma assoc_perm {K V} `{EqDecision K} (k : K) (l l' : list (K * V)) :
  NoDup l.*1 → l ≡ₚ l' → assoc k l = assoc k l'.
Proof.
  intros Hnd Hperm. induction Hperm as [|[k1 v1] l l' Hperm IH
                                       |[k1 v1] [k2 v2] l|l l' l'' H1 IH1 H2 IH2].
  - done.
  - rewrite fmap_cons in Hnd. apply NoDup_cons in Hnd as [_ Hnd].
    cbn [assoc]. destruct (decide (k = k1)); [done|]. by apply IH.
  - rewrite !fmap_cons in Hnd. apply NoDup_cons in Hnd as [Hne _].
    cbn [assoc]. destruct (decide (k = k1)) as [->|]; [|done].
    destruct (decide (k1 = k2)) as [->|]; [|done].
    exfalso. apply Hne. left.
  - rewrite IH1 by done. apply IH2. by rewrite <-H1.
Qed.

Lemma count_absent {K} `{EqDecision K} (k : K) (l : list K) :
  k ∉ l → length (filter (λ x, x = k) l) = 0%nat.
Proof.
  induction l as [|x l IH]; [done|]. rewrite not_elem_of_cons. intros [Hne Hl].
  rewrite filter_cons, decide_False by done. by apply IH.
Qed.

Lemma count_omap (k : scalar) (l : list cell) :
  length (filter (λ v, v = k) (omap id l)) = length (filter (λ c, c = Some k) l).
Proof.
  induction l as [|[v|] l IH]; [done| |].
  - change (omap id (Some v :: l)) with (v :: omap id l).
    rewrite !filter_cons. destruct (decide (v = k)) as [->|Hne].
    + rewrite decide_True by done. cbn [length]. by f_equal.
    + rewrite decide_False; [done|]. by intros [= ?].
  - change (omap id (None :: l)) with (omap id l).
    by rewrite filter_cons, decide_False.
Qed.

Lemma length_omap_id (l : list cell) :
  length (omap id l) = length (filter (λ c, c ≠ None) l).
Proof.
  induction l as [|[v|] l IH]; [done| |].
  - change (omap id (Some v :: l)) with (v :: omap id l).
    rewrite filter_cons, decide_True by done. cbn [length]. by f_equal.
  - change (omap id (None :: l)) with (omap id l).
    rewrite filter_cons, decide_False; [done|]. by intros H; apply H.
Qed.

Lemma NoDup_drop_duplicates_id {K} `{EqDecision K} (l : list K) :
  NoDup (drop_duplicates id l).
Proof.
  rewrite <-(list_fmap_id (drop_duplicates id l)).
  apply (NoDup_drop_duplicates_from id).
Qed.

Lemma elem_of_drop_duplicates_id {K} `{EqDecision K} (l : list K) k :
  k ∈ drop_duplicates id l ↔ k ∈ l.
Proof.
  pose proof (drop_duplicates_keys id l k) as Hk.
  by rewrite !list_fmap_id in Hk.
Qed.

(** What [get] reads in the result of [value_counts]: the number of cells
    that hold the value, nought being the default for a value not there. *)
Lemma series_get_value_counts S (l : list cell) (k : scalar) :
  series_get k 0%nat (value_counts S l) = length (filter (λ c, c = Some k) l).
Proof.
  unfold series_get, value_counts.
  set (values := omap id l).
  set (tab := (λ v, (v, length (filter (λ v', v' = v) values)))
                <$> drop_duplicates id values).
  assert (NoDup tab.*1) as Hnd.
  { unfold tab. rewrite <-list_fmap_compose.
    change (fst ∘ _) with (@id scalar).
    rewrite list_fmap_id. apply NoDup_drop_duplicates_id. }
  rewrite <-(assoc_perm k tab _ Hnd) by (by rewrite sort_values_perm).
  unfold tab. rewrite (assoc_tabulate _ _ k).
  destruct (decide _) as [Hin|Hnot]; simpl.
  - apply count_omap.
  - rewrite elem_of_drop_duplicates_id in Hnot.
    by rewrite <-count_omap, (count_absent k values Hnot).
Qed.

(** The counts of [value_counts] add up to the number of cells that hold a
    value. *)
Lemma sum_value_counts S (l : list cell) :
  sum_list_with snd (value_counts S l) = length (filter (λ c, c ≠ None) l).
Proof.
  unfold value_counts. rewrite sort_values_perm, <-length_omap_id.
  set (values := omap id l).
  transitivity
    (sum_list_with (λ k, length (filter (λ x, x = k) values))
       (drop_duplicates id values)).
  - induction (drop_duplicates id values) as [|v vs IH]; [done|].
    rewrite fmap_cons. cbn [sum_list_with snd]. by rewrite IH.
  - apply sum_counts; [apply NoDup_drop_duplicates_id|].
    intros x. by rewrite elem_of_drop_duplicates_id.
Qed.

Lemma count_value (c : string) (k : scalar) (rs : list row) :
  length (filter (λ v, v = Some k) (at_col c <$> rs))
  = length (filter (λ r, at_col c r = Some k) rs).
Proof.
  induction rs as [|r rs IH]; [done|].
  rewrite fmap_cons, !filter_cons.
  destruct (decide (at_col c r = Some k)) as [He|He].
  - rewrite decide_True by done. cbn [length]. f_equal. exact IH.
  - rewrite decide_False by done. exact IH.
Qed.

Lemma count_present (c : string) (rs : list row) :
  length (filter (λ v, v ≠ None) (at_col c <$> rs))
  = length (filter (λ r, at_col c r ≠ None) rs).
Proof.
  induction rs as [|r rs IH]; [done|].
  rewrite fmap_cons, !filter_cons.
  destruct (decide (at_col c r ≠ None)) as [He|He].
  - rewrite decide_True by done. cbn [length]. f_equal. exact IH.
  - rewrite decide_False by done. exact IH.
Qed.

Lemma disjoint_counts {A} (P1 P2 P3 : A → Prop)
    `{!∀ x, Decision (P1 x)} `{!∀ x, Decision (P2 x)} `{!∀ x, Decision (P3 x)}
    (l : list A) :
  (∀ x, P1 x → ¬ P2 x) → (∀ x, P1 x → ¬ P3 x) → (∀ x, P2 x → ¬ P3 x) →
  (length (filter P1 l) + length (filter P2 l) + length (filter P3 l)
   ≤ length l)%nat.
Proof.
  intros H12 H13 H23. induction l as [|x l IH]; [done|].
  rewrite !filter_cons.
  destruct (decide (P1 x)) as [Ha|Ha], (decide (P2 x)) as [Hb|Hb],
    (decide (P3 x)) as [Hc|Hc]; cbn [length];
    try lia; exfalso;
    first [by apply (H12 x)|by apply (H13 x)|by apply (H23 x)].
Qed.

(** *** The figures of the page *)

(** The four metrics are computed on the frame [process_data] has written
    [Time_Date] into; that column set aside, they are figures of the
    upload: the number of its rows, rows whose label did not parse
    included, and per status the number of rows that carry it, whatever
    order [value_counts] lists equal counts in.  The three status figures
    never exceed the total; rows of any other status, or of none, make the
    difference. *)
Theorem summary_statistics_counts S ib tp df :
  let s := summary_statistics S (with_time_date ib tp df) in
  let count status :=
    length (filter (λ r, at_col "Booking Status" r = Some (Str status)) (rows df)) in
  total_bookings s = length (rows df)
  ∧ confirmed s = count "Confirmed"%string
  ∧ cancelled s = count "Cancelled"%string
  ∧ rejected s = count "Rejected"%string
  ∧ (confirmed s + cancelled s + rejected s ≤ total_bookings s)%nat.
Proof.
  intros s count.
  assert (total_bookings s = length (rows df)) as Ht
    by apply length_with_time_date.
  assert (∀ status, series_get (Str status) 0%nat
                      (value_counts S (at_col "Booking Status"
                                         <$> rows (with_time_date ib tp df)))
                    = count status) as Hget.
  { intros status. rewrite series_get_value_counts.
    rewrite at_col_with_time_date by done.
    apply count_value. }
  assert (confirmed s = count "Confirmed"%string) as Hc by apply Hget.
  assert (cancelled s = count "Cancelled"%string) as Hx by apply Hget.
  assert (rejected s = count "Rejected"%string) as Hr by apply Hget.
  split; [done|]. split; [done|]. split; [done|]. split; [done|].
  rewrite Ht, Hc, Hx, Hr. unfold count.
  apply (disjoint_counts
           (λ r, at_col "Booking Status" r = Some (Str "Confirmed"))
           (λ r, at_col "Booking Status" r = Some (Str "Cancelled"))
           (λ r, at_col "Booking Status" r = Some (Str "Rejected")));
    intros r -> [=].
Qed.

Lemma length_filter_all {A} (P : A → Prop) `{!∀ x, Decision (P x)} (l : list A) :
  length (filter P l) = length l ↔ Forall P l.
Proof.
  induction l as [|x l IH]; [done|].
  rewrite filter_cons, Forall_cons. destruct (decide (P x)) as [Hx|Hx].
  - cbn [length]. rewrite <-IH. split; [intros [= ?]; by split|intros [_ ->]; done].
  - pose proof (length_filter P l). cbn [length]. split; [lia|tauto].
Qed.

Lemma length_parsed ib tp df :
  (length (parsed ib tp df) ≤ length (rows df))%nat
  ∧ (length (parsed ib tp df) = length (rows df)
     ↔ Forall (λ r, parser ib tp (at_col (time_column_of tp) r) ≠ None) (rows df)).
Proof.
  unfold parsed, dropna_subset. cbn [rows].
  rewrite <-(length_with_time_date ib tp df) at 1 2. split.
  - apply length_filter.
  - rewrite length_filter_all. unfold with_time_date, assign. cbn [rows].
    rewrite Forall_fmap. apply Forall_iff. intros r. simpl.
    by rewrite at_col_insert_eq.
Qed.

(** The pivot, the frame returned and the sum of the cells. *)
Lemma process_data_totals S ib tp df :
  Forall (λ c, c ∈ columns df) required_columns →
  ∃ pt dfs,
    process_data S ib tp df
    = (Ok (pt, dfs, time_column_of tp), with_time_date ib tp df)
    ∧ rows dfs ≡ₚ parsed ib tp df
    ∧ pivot_total pt
      = Z.of_nat (length (filter (λ r, at_col "Booking Status" r ≠ None)
                                 (parsed ib tp df))).
Proof.
  intros Hcols.
  destruct (process_data_parts S ib tp df Hcols)
    as (pt & dfs & Hrun & Hperm & _ & Hcount & Hndi & Hndc & Hstat & Hidx & Hempty & _).
  exists pt, dfs. split; [done|]. split; [done|].
  destruct (pivot_empty pt) eqn:Hpe.
  - destruct (Hempty eq_refl) as [Hnil Hall].
    unfold pivot_total. rewrite Hnil. simpl. symmetry.
    by rewrite (filter_no_status _ Hall).
  - rewrite (pivot_total_counted _ _ _ Hcount). f_equal.
    apply sum_bookings; [done..|].
    intros r s Hr Hs. split; [apply Hstat; by exists r|].
    split; [by apply (parsed_row ib tp df)|].
    apply (Hidx eq_refl). by exists r.
Qed.

(** The cells of the pivot add up to the number of parsed records that
    have a status: every such record is counted in one cell and one
    only. *)
Theorem pivot_total_parsed S ib tp df :
  Forall (λ c, c ∈ columns df) required_columns →
  ∃ pt dfs,
    process_data S ib tp df
    = (Ok (pt, dfs, time_column_of tp), with_time_date ib tp df)
    ∧ pivot_total pt
      = Z.of_nat (length (filter (λ r, at_col "Booking Status" r ≠ None)
                                 (parsed ib tp df))).
Proof.
  intros Hcols.
  destruct (process_data_totals S ib tp df Hcols) as (pt & dfs & Hrun & _ & Htotal).
  by exists pt, dfs.
Qed.

Lemma pivot_total_parsed_witness :
  Forall (λ c, c ∈ columns scenario_2_with_noise) required_columns ∧
  ∃ pt dfs,
    process_data insertion_sorter nanosecond_bounds "Month" scenario_2_with_noise
    = (Ok (pt, dfs, "Booking Month"%string),
       with_time_date nanosecond_bounds "Month" scenario_2_with_noise)
    ∧ pivot_total pt = 3.
Proof.
  split; [by apply required_columns_present|].
  destruct (pivot_total_parsed insertion_sorter nanosecond_bounds "Month"
              scenario_2_with_noise
              (required_columns_present scenario_2_with_noise eq_refl))
    as (pt & dfs & Hrun & Htotal).
  exists pt, dfs. split; [done|]. rewrite Htotal. by vm_compute.
Defined.

(** The donut is drawn from [df_processed], the metrics from the upload.
    The total in its centre is the number of records whose label parsed,
    at most the [Total Bookings] metric and equal to it only when every
    label parses; a wedge is the number of parsed records of its status;
    and the wedges add up to the sum of the cells of the pivot. *)
Theorem donut_totals S S' ib tp df :
  Forall (λ c, c ∈ columns df) required_columns →
  ∃ pt dfs,
    process_data S ib tp df
    = (Ok (pt, dfs, time_column_of tp), with_time_date ib tp df)
    ∧ (donut S' dfs).2 = length (parsed ib tp df)
    ∧ ((donut S' dfs).2 ≤ total_bookings (summary_statistics S' (with_time_date ib tp df)))%nat
    ∧ ((donut S' dfs).2 = total_bookings (summary_statistics S' (with_time_date ib tp df))
       ↔ Forall (λ r, parser ib tp (at_col (time_column_of tp) r) ≠ None) (rows df))
    ∧ (∀ status,
         series_get status 0%nat (donut S' dfs).1
         = length (filter (λ r, at_col "Booking Status" r = Some status)
                          (parsed ib tp df)))
    ∧ Z.of_nat (sum_list_with snd (donut S' dfs).1) = pivot_total pt.
Proof.
  intros Hcols.
  destruct (process_data_totals S ib tp df Hcols) as (pt & dfs & Hrun & Hperm & Htotal).
  exists pt, dfs. split; [done|].
  unfold donut, summary_statistics, len. cbn [fst snd total_bookings].
  rewrite length_with_time_date, (Permutation_length Hperm).
  destruct (length_parsed ib tp df) as [Hle Heq].
  split; [done|]. split; [done|]. split; [done|]. split.
  - intros status. rewrite series_get_value_counts, count_value.
    apply Permutation_length. by rewrite Hperm.
  - rewrite sum_value_counts, Htotal, count_present. f_equal.
    apply Permutation_length. by rewrite Hperm.
Qed.

Lemma donut_totals_witness :
  Forall (λ c, c ∈ columns scenario_2_with_noise) required_columns ∧
  ∃ pt dfs,
    process_data insertion_sorter nanosecond_bounds "Month" scenario_2_with_noise
    = (Ok (pt, dfs, "Booking Month"%string),
       with_time_date nanosecond_bounds "Month" scenario_2_with_noise)
    ∧ (donut insertion_sorter dfs).2 = 3%nat
    ∧ total_bookings
        (summary_statistics insertion_sorter
           (with_time_date nanosecond_bounds "Month" scenario_2_with_noise))
      = 4%nat.
Proof.
  split; [by apply required_columns_present|].
  destruct (donut_totals insertion_sorter insertion_sorter nanosecond_bounds "Month"
              scenario_2_with_noise
              (required_columns_present scenario_2_with_noise eq_refl))
    as (pt & dfs & Hrun & Hcentre & _).
  exists pt, dfs. split; [done|]. split; [|by vm_compute].
  rewrite Hcentre. by vm_compute.
Defined.

(** *** The calendar of the labels *)

(** The instant of a week label is a Monday, but for the label of week 0
    of a year that begins on a Wednesday, whose instant is that
    Wednesday, 1 January. *)
Theorem parse_week_weekday ib label d :
  parse_week ib label = Some (Date d) →
  weekday d = 0
  ∨ (weekday d = 2 ∧ ∃ year, 1000 ≤ year ≤ 9999 ∧ d = ordinal_jan1 year).
Proof.
  intros (s & w & y & _ & Hpre & _ & Hy & Hd & _)%parse_week_Some.
  destruct Hpre as (_ & _ & _ & g & _ & _ & _ & _ & _ & Hg & _ & _ & ->).
  pose proof (digits_value_four g Hg) as Hrange.
  unfold week_instant in Hd. cbv zeta in Hd.
  destruct (decide (w = 0)) as [->|Hw].
  - destruct (decide (weekday (ordinal_jan1 (digits_value g)) = 2)) as [Hwed|_].
    + right. subst d. split; [done|]. exists (digits_value g). split; [lia|done].
    + left. by destruct Hd.
  - left. by destruct Hd.
Qed.

Lemma parse_week_weekday_witness :
  parse_week nanosecond_bounds (Some (Str "Week 0 2025")) = Some (Date 739252)
  ∧ weekday 739252 = 2
  ∧ parse_week nanosecond_bounds (Some (Str "Week 10 2024")) = Some (Date 738949)
  ∧ weekday 738949 = 0.
Proof.
  assert (parse_week nanosecond_bounds (Some (Str "Week 0 2025"))
          = Some (Date 739252)) as H0 by (by vm_compute).
  assert (parse_week nanosecond_bounds (Some (Str "Week 10 2024"))
          = Some (Date 738949)) as H10 by (by vm_compute).
  split; [exact H0|]. split.
  { destruct (parse_week_weekday nanosecond_bounds _ _ H0) as [Hmon|[Hwed _]];
      [by vm_compute in Hmon|exact Hwed]. }
  split; [exact H10|].
  destruct (parse_week_weekday nanosecond_bounds _ _ H10) as [Hmon|[Hwed _]];
    [exact Hmon|by vm_compute in Hwed].
Defined.

Lemma to_datetime_week_Some ib y w d :
  to_datetime_week ib y w = Some d →
  0 ≤ w ≤ 53 ∧ week_instant y w d.
Proof.
  unfold to_datetime_week.
  destruct (_ && _) eqn:Hr; [|done].
  destruct (ib _); [|done]. intros [= <-].
  apply andb_prop in Hr as [Hr H53]. apply andb_prop in Hr as [_ H0].
  split; [lia|]. apply week_instant_unique; [lia|done].
Qed.

(** Within one year the week numbers are in the order of time, seven days
    from one to the next from week 1 on.  The labels of week 0 and of
    week 1 resolve to one instant, that of 1 January, in a year that
    begins on a Monday, and to no other two week numbers of a year does
    that happen. *)
Theorem to_datetime_week_order ib y w w' d d' :
  to_datetime_week ib y w = Some d →
  to_datetime_week ib y w' = Some d' →
  w ≤ w' →
  d ≤ d'
  ∧ (1 ≤ w → d' = d + 7 * (w' - w))
  ∧ (d = d' ↔ w = w' ∨ (w = 0 ∧ w' = 1 ∧ weekday (ordinal_jan1 y) = 0)).
Proof.
  intros [Hw Hd]%to_datetime_week_Some [Hw' Hd']%to_datetime_week_Some Hle.
  apply week_instant_unique in Hd; [|lia]. apply week_instant_unique in Hd'; [|lia].
  subst d d'. unfold calc_julian_from_W. cbv zeta.
  generalize (ordinal_jan1 y). intros o. unfold weekday.
  destruct (Z.eqb_spec w 0) as [->|Hw0]; destruct (Z.eqb_spec w' 0) as [->|Hw0'];
    repeat match goal with
           | |- context [?a =? -1] => destruct (Z.eqb_spec a (-1))
           end;
    Z.div_mod_to_equations; lia.
Qed.

Lemma to_datetime_week_order_witness :
  to_datetime_week nanosecond_bounds 2024 0 = Some 738886
  ∧ to_datetime_week nanosecond_bounds 2024 1 = Some 738886
  ∧ 0 ≤ 1
  ∧ weekday (ordinal_jan1 2024) = 0.
Proof.
  assert (to_datetime_week nanosecond_bounds 2024 0 = Some 738886) as H0
    by (by vm_compute).
  assert (to_datetime_week nanosecond_bounds 2024 1 = Some 738886) as H1
    by (by vm_compute).
  assert (0 ≤ 1) as Hle by lia.
  split; [exact H0|]. split; [exact H1|]. split; [exact Hle|].
  destruct (to_datetime_week_order nanosecond_bounds 2024 0 1 738886 738886
              H0 H1 Hle) as (_ & _ & Heq).
  destruct (proj1 Heq eq_refl) as [Hne|(_ & _ & Hmon)]; [lia|exact Hmon].
Defined.

Lemma ordinal_jan1_next y y' : y < y' → ordinal_jan1 y + 365 ≤ ordinal_jan1 y'.
Proof. unfold ordinal_jan1. intros Hlt. Z.div_mod_to_equations. lia. Qed.

Lemma days_before_month_lt y m m' :
  1 ≤ m → m < m' → m' ≤ 12 →
  0 ≤ days_before_month y m < days_before_month y m' ∧ days_before_month y m' < 365.
Proof.
  intros H1 Hlt H12.
  assert (m = 1 ∨ m = 2 ∨ m = 3 ∨ m = 4 ∨ m = 5 ∨ m = 6
          ∨ m = 7 ∨ m = 8 ∨ m = 9 ∨ m = 10 ∨ m = 11) as Hm by lia.
  assert (m' = 2 ∨ m' = 3 ∨ m' = 4 ∨ m' = 5 ∨ m' = 6
          ∨ m' = 7 ∨ m' = 8 ∨ m' = 9 ∨ m' = 10 ∨ m' = 11 ∨ m' = 12) as Hm' by lia.
  unfold days_before_month. destruct (is_leap y);
    repeat (destruct Hm as [->|Hm]); try subst m;
    repeat (destruct Hm' as [->|Hm']); try subst m';
    try lia; by vm_compute.
Qed.

Lemma days_before_month_range y m :
  1 ≤ m ≤ 12 → 0 ≤ days_before_month y m < 365.
Proof.
  intros [H1 H12]. destruct (decide (m = 12)) as [->|Hne].
  - destruct (days_before_month_lt y 1 12) as [[? ?] ?]; lia.
  - destruct (days_before_month_lt y m 12) as [[? ?] ?]; lia.
Qed.

Lemma first_of_month_lt y m y' m' :
  1 ≤ m ≤ 12 → 1 ≤ m' ≤ 12 →
  first_of_month y m < first_of_month y' m' ↔ y < y' ∨ (y = y' ∧ m < m').
Proof.
  intros Hm Hm'. unfold first_of_month.
  pose proof (days_before_month_range y m Hm).
  pose proof (days_before_month_range y' m' Hm').
  destruct (Z.lt_trichotomy y y') as [Hlt|[<-|Hgt]].
  - pose proof (ordinal_jan1_next y y' Hlt). lia.
  - destruct (Z.lt_trichotomy m m') as [Hlt|[<-|Hgt]].
    + destruct (days_before_month_lt y m m') as [[? ?] ?]; lia.
    + lia.
    + destruct (days_before_month_lt y m' m) as [[? ?] ?]; lia.
  - pose proof (ordinal_jan1_next y' y Hgt). lia.
Qed.

Lemma month_label_range s m y : month_label s m y → 1 ≤ m ≤ 12.
Proof.
  intros (name & ws & g & i & abbr & _ & Hi & _ & -> & _).
  apply lookup_lt_Some in Hi. change (length month_abbr) with 12%nat in Hi. lia.
Qed.

(** The instants of the month labels are in the order of the calendar,
    year first and month second; two labels share an instant exactly when
    they name the same month of the same year, however they spell it. *)
Theorem to_datetime_month_order ib s s' d d' :
  to_datetime_month ib (Some (Str s)) = Some (Date d) →
  to_datetime_month ib (Some (Str s')) = Some (Date d') →
  ∃ m y m' y',
    month_label (code_points s) m y
    ∧ month_label (code_points s') m' y'
    ∧ (d < d' ↔ y < y' ∨ (y = y' ∧ m < m'))
    ∧ (d = d' ↔ y = y' ∧ m = m').
Proof.
  intros [?|(s0 & m & y & [= <-] & Hl & _ & -> & _)]%to_datetime_month_Some
         [?|(s0' & m' & y' & [= <-] & Hl' & _ & -> & _)]%to_datetime_month_Some;
    try done.
  exists m, y, m', y'.
  pose proof (month_label_range _ _ _ Hl) as Hm.
  pose proof (month_label_range _ _ _ Hl') as Hm'.
  pose proof (first_of_month_lt y m y' m' Hm Hm') as Hlt.
  pose proof (first_of_month_lt y' m' y m Hm' Hm) as Hgt.
  split; [done|]. split; [done|]. split; [done|]. split.
  - intros Heq. lia.
  - by intros [-> ->].
Qed.

Lemma to_datetime_month_order_witness :
  to_datetime_month nanosecond_bounds (Some (Str "Mar 2024")) = Some (Date 738946)
  ∧ to_datetime_month nanosecond_bounds (Some (Str "mar  2024")) = Some (Date 738946)
  ∧ ∃ m y m' y',
      month_label (code_points "Mar 2024") m y
      ∧ month_label (code_points "mar  2024") m' y'
      ∧ y = y' ∧ m = m'.
Proof.
  assert (to_datetime_month nanosecond_bounds (Some (Str "Mar 2024"))
          = Some (Date 738946)) as H1 by (by vm_compute).
  assert (to_datetime_month nanosecond_bounds (Some (Str "mar  2024"))
          = Some (Date 738946)) as H2 by (by vm_compute).
  split; [exact H1|]. split; [exact H2|].
  destruct (to_datetime_month_order nanosecond_bounds _ _ _ _ H1 H2)
    as (m & y & m' & y' & Hl & Hl' & _ & Heq).
  exists m, y, m', y'.
  split; [exact Hl|]. split; [exact Hl'|]. exact (proj1 Heq eq_refl).
Defined.

End App2More.
